(** * Sentry -> ClickUp -> GitHub correlation worker: a shallow embedding

    Two generations of the worker are embedded:
    - [V1]: [src/index.ts], Sentry -> GitHub issues, with the status block
      of the issue body patched in place;
    - [V2]: the later worker, Sentry -> ClickUp task -> (tag) -> GitHub
      issue, with [handleSentry], [handleClickUp] and the router.

    JavaScript strings are sequences of UTF-16 code units, JSON values are
    an inductive type, the KV namespace is a finite map, and every handler
    is a computation in a state-and-exception monad that records the calls
    it makes. *)

From Stdlib Require Import ZArith NArith List String Ascii Lia Bool DecimalString.
From stdpp Require Import gmap list.

Set Warnings "-register-all".
Local Open Scope string_scope.
Local Open Scope Z_scope.
Local Open Scope list_scope.

(* ===================================================================== *)
(** ** JavaScript strings *)
(* ===================================================================== *)

(** A code unit of a JavaScript string (a number below 65536). *)
Abbreviation jschar := N.
Abbreviation jsstring := (list N).

(** An ASCII literal of the source as a code-unit sequence. *)
Definition lit (s : string) : jsstring :=
  List.map N_of_ascii (list_ascii_of_string s).

Fixpoint jsstring_eqb (a b : jsstring) : bool :=
  match a, b with
  | [], [] => true
  | x :: a', y :: b' => N.eqb x y && jsstring_eqb a' b'
  | _, _ => false
  end.

(** ECMAScript [LineTerminator]: LF, CR, LS, PS. *)
Definition is_line_terminator (c : jschar) : bool :=
  (N.eqb c 10 || N.eqb c 13 || N.eqb c 8232 || N.eqb c 8233)%N.

(** ECMAScript [WhiteSpace] or [LineTerminator]: what [\s] and [trim]
    recognise. *)
Definition is_space (c : jschar) : bool :=
  (N.eqb c 9 || N.eqb c 10 || N.eqb c 11 || N.eqb c 12 || N.eqb c 13
   || N.eqb c 32 || N.eqb c 160 || N.eqb c 5760
   || (N.leb 8192 c && N.leb c 8202)
   || N.eqb c 8232 || N.eqb c 8233 || N.eqb c 8239 || N.eqb c 8287
   || N.eqb c 12288 || N.eqb c 65279)%N.

(** [toLowerCase] on the code units A-Z; code units above U+007F are kept as
    they are (the Unicode case tables are not part of this development). *)
Definition lower_char (c : jschar) : jschar :=
  (if N.leb 65 c && N.leb c 90 then c + 32 else c)%N.

Definition toLowerCase (s : jsstring) : jsstring := List.map lower_char s.

(** [a.startsWith(p)], also the way a literal run of a pattern is matched. *)
Fixpoint starts_with (p s : jsstring) : bool :=
  match p, s with
  | [], _ => true
  | x :: p', y :: s' => N.eqb x y && starts_with p' s'
  | _ :: _, [] => false
  end.

(** A literal run matched under the [i] flag.  For the ASCII letters of the
    patterns below, canonicalisation identifies exactly a letter and its
    other case. *)
Fixpoint starts_with_ci (p s : jsstring) : bool :=
  match p, s with
  | [], _ => true
  | x :: p', y :: s' => N.eqb (lower_char x) (lower_char y) && starts_with_ci p' s'
  | _ :: _, [] => false
  end.

(** [s.includes(p)]. *)
Fixpoint includes (p s : jsstring) : bool :=
  starts_with p s ||
  match s with
  | [] => false
  | _ :: s' => includes p s'
  end.

Fixpoint includes_ci (p s : jsstring) : bool :=
  starts_with_ci p s ||
  match s with
  | [] => false
  | _ :: s' => includes_ci p s'
  end.

(** [xs.join(sep)] on strings. *)
Fixpoint join (sep : jsstring) (xs : list jsstring) : jsstring :=
  match xs with
  | [] => []
  | [x] => x
  | x :: rest => x ++ sep ++ join sep rest
  end.

Fixpoint drop_while (f : jschar -> bool) (s : jsstring) : jsstring :=
  match s with
  | [] => []
  | c :: s' => if f c then drop_while f s' else s
  end.

(** [s.trim()]: white space and line terminators are removed at both ends. *)
Definition trim_start (s : jsstring) : jsstring := drop_while is_space s.
Definition trim_end (s : jsstring) : jsstring :=
  rev (drop_while is_space (rev s)).
Definition trim (s : jsstring) : jsstring := trim_end (trim_start s).

(** [String(n)] for an integral number (below 1e21 in magnitude, where
    JavaScript prints all the digits). *)
Definition num_to_string (z : Z) : jsstring :=
  lit (NilZero.string_of_int (Z.to_int z)).

(* ===================================================================== *)
(** ** JSON values as the code sees them *)
(* ===================================================================== *)

(** A JavaScript value that came out of [JSON.parse], or [undefined].
    Numbers are the integral ones.  An object is its list of own fields,
    in insertion order, with distinct keys. *)
Inductive jsval : Type :=
  | VUndef
  | VNull
  | VBool (b : bool)
  | VNum (z : Z)
  | VStr (s : jsstring)
  | VArr (items : list jsval)
  | VObj (fields : list (jsstring * jsval)).

(** Truthiness: what [!v], [v || w], [v ? a : b] and [filter(Boolean)] test. *)
Definition truthy (v : jsval) : bool :=
  match v with
  | VUndef | VNull => false
  | VBool b => b
  | VNum z => negb (Z.eqb z 0)
  | VStr s => match s with [] => false | _ => true end
  | VArr _ | VObj _ => true
  end.

Definition nullish (v : jsval) : bool :=
  match v with
  | VUndef | VNull => true
  | _ => false
  end.

(** [a || b] and [a ?? b]. *)
Definition js_or (a b : jsval) : jsval := if truthy a then a else b.
Definition js_nullish_or (a b : jsval) : jsval := if nullish a then b else a.

(** [a || b || ... || z] and [a ?? b ?? ... ?? z]. *)
Fixpoint or_chain (xs : list jsval) (z : jsval) : jsval :=
  match xs with
  | [] => z
  | x :: rest => js_or x (or_chain rest z)
  end.

Fixpoint nullish_chain (xs : list jsval) (z : jsval) : jsval :=
  match xs with
  | [] => z
  | x :: rest => js_nullish_or x (nullish_chain rest z)
  end.

Fixpoint assoc (k : jsstring) (fields : list (jsstring * jsval)) : jsval :=
  match fields with
  | [] => VUndef
  | (k', v) :: rest => if jsstring_eqb k k' then v else assoc k rest
  end.

(** [v?.name] for the property names the workers read.  None of them is an
    own or inherited data property of a string, a number, a boolean or an
    array ([values] on an array is a method, whose [[0]] is [undefined], so
    the chain [.values?.[0]] ends in [undefined] either way). *)
Definition prop (v : jsval) (name : string) : jsval :=
  match v with
  | VObj fields => assoc (lit name) fields
  | _ => VUndef
  end.

(** [v?.[0]]. *)
Definition first_item (v : jsval) : jsval :=
  match v with
  | VArr (x :: _) => x
  | VStr (c :: _) => VStr [c]
  | VObj fields => assoc (lit "0") fields
  | _ => VUndef
  end.

(** [v?.a?.b?.c]. *)
Definition path (v : jsval) (names : list string) : jsval :=
  fold_left prop names v.

(** Whether [String(v)] returns.  The conversion of an object calls its
    [toString]; an own field of that name, which is a JSON value and so no
    function, shadows the inherited method, and the conversion throws a
    [TypeError].  An array converts its items (but [null] and [undefined]),
    and throws when one of them does. *)
Fixpoint printable (v : jsval) : bool :=
  match v with
  | VArr items =>
      (fix all (l : list jsval) : bool :=
         match l with
         | [] => true
         | x :: l' => printable x && all l'
         end) items
  | VObj fields =>
      negb (existsb (fun kv => jsstring_eqb (lit "toString") (fst kv)) fields)
  | _ => true
  end.

(** [String(v)] for a value on which it returns ([printable]), which is
    also what a template literal, [Array.join] and [toString()] give; an
    array joins its items with a comma, a [null] or [undefined] item giving
    the empty string.  The renderings below test [printable] where the
    source converts a value of the payload, the number of an issue or the
    identifier of a created task; the identifier of a task in the address
    of a ClickUp call is converted as it is. *)
Fixpoint js_to_string (v : jsval) : jsstring :=
  match v with
  | VUndef => lit "undefined"
  | VNull => lit "null"
  | VBool true => lit "true"
  | VBool false => lit "false"
  | VNum z => num_to_string z
  | VStr s => s
  | VArr items =>
      join (lit ",")
        ((fix each (l : list jsval) : list jsstring :=
            match l with
            | [] => []
            | x :: l' => (if nullish x then [] else js_to_string x) :: each l'
            end) items)
  | VObj _ => lit "[object Object]"
  end.

(** [Object.keys(v).length]; [None] is the [TypeError] on [null] and
    [undefined]. *)
Definition object_keys_length (v : jsval) : option nat :=
  match v with
  | VUndef | VNull => None
  | VBool _ | VNum _ => Some 0%nat
  | VStr s => Some (length s)
  | VArr items => Some (length items)
  | VObj fields => Some (length fields)
  end.

(** [xs.filter(Boolean).join(sep)] on strings. *)
Definition nonempty (s : jsstring) : bool :=
  match s with [] => false | _ => true end.
Definition join_truthy (sep : jsstring) (xs : list jsstring) : jsstring :=
  join sep (List.filter nonempty xs).

(** [bool(v, d)] of the later worker: an absent or empty variable gives the
    default. *)
Definition env_bool (v : option jsstring) (d : bool) : bool :=
  match v with
  | Some (c :: s) => jsstring_eqb (toLowerCase (c :: s)) (lit "true")
  | _ => d
  end.

(** Truthiness of an optional configuration string. *)
Definition configured (v : option jsstring) : bool :=
  match v with
  | Some (_ :: _) => true
  | _ => false
  end.

Definition env_or (v : option jsstring) (d : jsstring) : jsstring :=
  match v with
  | Some (c :: s) => c :: s
  | _ => d
  end.

(* ===================================================================== *)
(** ** Completions, the worker's state and its outside world *)
(* ===================================================================== *)

(** The completion of a JavaScript computation: a value, or a thrown error
    (its message; a [TypeError] of the runtime has the name as message). *)
Inductive completion (A : Type) : Type :=
  | Normal (a : A)
  | Thrown (e : jsstring).
Arguments Normal {A} a.
Arguments Thrown {A} e.

Definition type_error : jsstring := lit "TypeError".
Definition syntax_error : jsstring := lit "SyntaxError".

(** One record of the correlation store (the [StateRecord] type). *)
Record StateRecord : Type := mkState {
  clickup_task_id : jsval;
  issue_number : jsval;
  count : Z;
  first_seen : jsstring
}.

Record StandardsRecord : Type := mkStandards {
  std_text : jsval;
  updated_at : jsstring
}.

(** The call sites of the outbound HTTP requests. *)
Inductive endpoint : Type :=
  | CuCreateTask
  | CuComment
  | CuAddComment
  | CuGetTask
  | GhCreateIssue
  | GhPatchIssue
  | GhGetIssue
  | AiGithubModels
  | AiOpenAI.

Definition endpoint_eqb (a b : endpoint) : bool :=
  match a, b with
  | CuCreateTask, CuCreateTask | CuComment, CuComment
  | CuAddComment, CuAddComment | CuGetTask, CuGetTask
  | GhCreateIssue, GhCreateIssue | GhPatchIssue, GhPatchIssue
  | GhGetIssue, GhGetIssue | AiGithubModels, AiGithubModels
  | AiOpenAI, AiOpenAI => true
  | _, _ => false
  end.

(** An outbound request: the call site, the method, the URL and the value
    given to [JSON.stringify] for the body ([VUndef] when there is none).
    Headers carry only credentials and are left out. *)
Record request : Type := mkRequest {
  rq_endpoint : endpoint;
  rq_method : jsstring;
  rq_url : jsstring;
  rq_body : jsval
}.

(** What came back: the status, the text of the body and its JSON reading
    ([None] when [res.json()] rejects). *)
Record response : Type := mkResponse {
  rs_status : Z;
  rs_text : jsstring;
  rs_json : option jsval
}.

(** [res.ok]. *)
Definition rs_ok (r : response) : bool :=
  (200 <=? rs_status r) && (rs_status r <=? 299).

(** The outside world of one request: the answer of every downstream
    service ([None] is a network failure, on which [fetch] rejects) and the
    clock read by the successive calls of [nowIso]. *)
Record world : Type := mkWorld {
  http : request -> option response;
  clock : nat -> jsstring
}.

Definition ttl90 : Z := 60 * 60 * 24 * 90.

(** What a request does, in order. *)
Inductive event : Type :=
  | EvGet (key : jsstring)
  | EvPut (key : jsstring) (rec : StateRecord) (ttl : Z)
  | EvGetStandards
  | EvPutStandards (rec : StandardsRecord)
  | EvFetch (rq : request).

(** The KV namespace.  Correlation records live under their grouping key
    and the standards text under the key [STANDARDS:TEXT]; the two are kept
    apart here (a grouping key of [handleSentry] has two colons and is never
    that key). *)
Record store : Type := mkStore {
  states : gmap jsstring StateRecord;
  standards : option StandardsRecord
}.

Definition empty_store : store := mkStore ∅ None.

Record run_state : Type := mkRun {
  st_store : store;
  st_trace : list event;
  st_log : list jsstring;
  st_ticks : nat
}.

Definition start (s : store) : run_state := mkRun s [] [] 0.

(** State and exceptions. *)
Definition M (A : Type) : Type := run_state -> completion A * run_state.

Definition ret {A} (a : A) : M A := fun st => (Normal a, st).
Definition throw {A} (e : jsstring) : M A := fun st => (Thrown e, st).
Definition bind {A B} (m : M A) (k : A -> M B) : M B :=
  fun st =>
    match m st with
    | (Normal a, st') => k a st'
    | (Thrown e, st') => (Thrown e, st')
    end.

Notation "'let*' x ':=' m 'in' k" := (bind m (fun x => k))
  (at level 10, x pattern, m at level 100, k at level 200).
Notation "m ';;' k" := (bind m (fun _ => k))
  (at level 100, k at level 200, right associativity).

Definition lift {A} (c : completion A) : M A := fun st => (c, st).

(** [console.log], [console.warn], [console.error]: the arguments, joined
    with a space. *)
Definition console (parts : list jsstring) : M unit :=
  fun st => (Normal tt, mkRun (st_store st) (st_trace st) (st_log st ++ [join (lit " ") parts]) (st_ticks st)).

(** [new Date().toISOString()]. *)
Definition nowIso (w : world) : M jsstring :=
  fun st => (Normal (clock w (st_ticks st)),
             mkRun (st_store st) (st_trace st) (st_log st) (S (st_ticks st))).

(** [env.STATE.get(key, "json")] for a correlation record. *)
Definition state_get (key : jsstring) : M (option StateRecord) :=
  fun st => (Normal (states (st_store st) !! key),
             mkRun (st_store st) (st_trace st ++ [EvGet key]) (st_log st) (st_ticks st)).

(** [env.STATE.put(key, JSON.stringify(rec), { expirationTtl })]. *)
Definition state_put (key : jsstring) (rec : StateRecord) (ttl : Z) : M unit :=
  fun st => (Normal tt,
             mkRun (mkStore (<[key := rec]> (states (st_store st))) (standards (st_store st)))
                   (st_trace st ++ [EvPut key rec ttl]) (st_log st) (st_ticks st)).

Definition standards_get : M (option StandardsRecord) :=
  fun st => (Normal (standards (st_store st)),
             mkRun (st_store st) (st_trace st ++ [EvGetStandards]) (st_log st) (st_ticks st)).

Definition standards_put (rec : StandardsRecord) : M unit :=
  fun st => (Normal tt,
             mkRun (mkStore (states (st_store st)) (Some rec))
                   (st_trace st ++ [EvPutStandards rec]) (st_log st) (st_ticks st)).

(** [await fetch(url, init)]. *)
Definition fetch (w : world) (rq : request) : M response :=
  fun st =>
    let st' := mkRun (st_store st) (st_trace st ++ [EvFetch rq]) (st_log st) (st_ticks st) in
    match http w rq with
    | Some r => (Normal r, st')
    | None => (Thrown type_error, st')
    end.

(** [await res.json()]. *)
Definition res_json (r : response) : M jsval :=
  match rs_json r with
  | Some v => ret v
  | None => throw syntax_error
  end.

(** The HTTP answer of the worker. *)
Inductive resp_body : Type :=
  | Text (s : jsstring)
  | Json (v : jsval).

Record reply : Type := mkReply {
  status : Z;
  body : resp_body
}.

Definition ok (msg : jsstring) (st : Z) : reply := mkReply st (Text msg).
Definition err (msg : jsstring) (st : Z) : reply := mkReply st (Text msg).

(** The inbound request: method, path, the [token] query parameter and the
    JSON body ([None] when [req.json()] rejects). *)
Record inbound : Type := mkInbound {
  in_method : jsstring;
  in_path : jsstring;
  in_token : option jsstring;
  in_json : option jsval
}.

(** [await req.json().catch(() => ({}))]. *)
Definition json_or_empty (rq : inbound) : jsval :=
  match in_json rq with
  | Some v => v
  | None => VObj []
  end.

(** [configured && searchParams.get("token") !== configured]. *)
Definition token_mismatch (cfg : option jsstring) (tok : option jsstring) : bool :=
  match cfg with
  | Some (c :: s) =>
      match tok with
      | Some t => negb (jsstring_eqb t (c :: s))
      | None => true
      end
  | _ => false
  end.

(* ===================================================================== *)
(** ** More string operations *)
(* ===================================================================== *)

Definition nl : jsstring := [10%N].

(** [s.split(sep)] for a non-empty separator: the pieces between the
    occurrences of [sep], found from left to right without overlap.
    [skip] counts the code units of an occurrence still to pass and [cur]
    is the piece being read. *)
Fixpoint split_go (sep : jsstring) (s : jsstring) (skip : nat) (cur : jsstring)
  : list jsstring :=
  match s with
  | [] => [cur]
  | c :: s' =>
      match skip with
      | S n => split_go sep s' n cur
      | O =>
          if starts_with sep s
          then cur :: split_go sep s' (length sep - 1) []
          else split_go sep s' 0 (cur ++ [c])
      end
  end.

Definition split (sep s : jsstring) : list jsstring := split_go sep s 0 [].

(** [s.split(sep).pop()]. *)
Definition split_pop (sep s : jsstring) : jsstring := List.last (split sep s) [].

(** [xs.slice(-k)]. *)
Definition slice_last {A} (k : nat) (xs : list A) : list A :=
  skipn (length xs - k) xs.

Definition take_while (f : jschar -> bool) (s : jsstring) : jsstring :=
  (fix tw (l : jsstring) : jsstring :=
     match l with
     | [] => []
     | c :: l' => if f c then c :: tw l' else []
     end) s.

Definition is_str (v : jsval) (s : jsstring) : bool :=
  match v with
  | VStr t => jsstring_eqb t s
  | _ => false
  end.

(* ===================================================================== *)
(** ** The grouping key *)
(* ===================================================================== *)

(** The normalised event of [parseSentry]. *)
Record parsed_event : Type := mkParsed {
  projectSlug : jsval;
  environment : jsval;
  sentryIssueId : jsval;
  title : jsval;
  permalink : jsval;
  level : jsval;
  culprit : jsval;
  message : jsval;
  frames : list jsval
}.

Definition colon : jsstring := lit ":".

(** The template [`${project}:${environment}:${issueId}`] of both workers. *)
Definition groupKey (project env issue : jsval) : jsstring :=
  js_to_string project ++ colon ++ js_to_string env ++ colon ++ js_to_string issue.

Definition groupKeyFrom (p : parsed_event) : jsstring :=
  groupKey (projectSlug p) (environment p) (sentryIssueId p).

(** The template throws when one of its three values cannot be converted. *)
Definition printable_key (project env issue : jsval) : bool :=
  printable project && printable env && printable issue.


(* ===================================================================== *)
(** ** The event normaliser (the same expressions in both workers) *)
(* ===================================================================== *)

Definition issueObj (payload : jsval) : jsval :=
  nullish_chain
    [prop payload "issue"; path payload ["data"; "issue"]; path payload ["event"; "issue"]]
    VNull.

Definition eventObj (payload : jsval) : jsval :=
  nullish_chain [prop payload "event"; path payload ["data"; "event"]] VNull.

Definition project_of (payload : jsval) : jsval :=
  or_chain
    [prop payload "project_slug"; path payload ["project"; "slug"]; prop payload "project";
     path payload ["data"; "issue"; "project"; "slug"]]
    (VStr (lit "unknown")).

(** [tags.find((t) => t?.key === "environment")?.value]. *)
Definition environment_tag (tags : jsval) : jsval :=
  match tags with
  | VArr items =>
      match List.find (fun t => is_str (prop t "key") (lit "environment")) items with
      | Some t => prop t "value"
      | None => VUndef
      end
  | _ => VUndef
  end.

Definition environment_of (payload : jsval) : jsval :=
  or_chain
    [prop payload "environment"; prop (eventObj payload) "environment";
     environment_tag (prop (eventObj payload) "tags")]
    (VStr (lit "unknown")).

Definition issue_id_of (payload : jsval) : jsval :=
  or_chain
    [prop (issueObj payload) "id"; prop payload "issue_id"; path payload ["data"; "issue"; "id"]]
    VNull.

Definition title_of (payload : jsval) : jsval :=
  or_chain
    [prop (issueObj payload) "title"; prop (eventObj payload) "title"; prop payload "title"]
    (VStr (lit "Unhandled error")).

Definition permalink_of (payload : jsval) (fallback : jsstring) : jsval :=
  or_chain
    [prop (issueObj payload) "permalink"; prop payload "url"; prop payload "issue_url"]
    (VStr fallback).

(** [v?.exception?.values?.[0]]. *)
Definition first_exception (v : jsval) : jsval :=
  first_item (path v ["exception"; "values"]).

Definition framesList (payload : jsval) : jsval :=
  or_chain
    [path (first_exception (eventObj payload)) ["stacktrace"; "frames"];
     path (first_exception payload) ["stacktrace"; "frames"]]
    (VArr []).

(** [(framesList as any[]).slice(-k).reverse()]: only an array has both
    methods. *)
Definition top_frames (k : nat) (payload : jsval) : completion (list jsval) :=
  match framesList payload with
  | VArr items => Normal (rev (slice_last k items))
  | _ => Thrown type_error
  end.

(** One line of the frames block; reading a field of a [null] frame throws,
    and so does a field that is rendered and cannot be converted. *)
Definition frame_line (f : jsval) : completion jsstring :=
  if nullish f then Thrown type_error
  else if negb (forallb printable
                  [prop f "module"; prop f "filename"; prop f "lineno"; prop f "function"])
  then Thrown type_error
  else
    let file := join (lit "/")
                  (List.map js_to_string
                     (List.filter truthy [prop f "module"; prop f "filename"])) in
    let line := if truthy (prop f "lineno")
                then lit ":" ++ js_to_string (prop f "lineno") else [] in
    let fn := if truthy (prop f "function")
              then [32; 8211; 32]%N ++ js_to_string (prop f "function") else [] in
    Normal (lit "- `" ++ file ++ line ++ lit "`" ++ fn).

Fixpoint frame_lines (fs : list jsval) : completion (list jsstring) :=
  match fs with
  | [] => Normal []
  | f :: rest =>
      match frame_line f with
      | Thrown e => Thrown e
      | Normal l =>
          match frame_lines rest with
          | Thrown e => Thrown e
          | Normal ls => Normal (l :: ls)
          end
      end
  end.

Definition frames_open : jsstring :=
  lit "<details><summary>Top frames</summary>" ++ nl ++ nl.
Definition frames_close : jsstring := nl ++ nl ++ lit "</details>".

(** The test-ping guard of both workers:
    [Object.keys(payload).length <= 2 && !payload.issue && !payload.event && !payload.data];
    [None] when [Object.keys] throws. *)
Definition is_ping (payload : jsval) : option bool :=
  match object_keys_length payload with
  | None => None
  | Some n =>
      Some ((n <=? 2)%nat
            && negb (truthy (prop payload "issue"))
            && negb (truthy (prop payload "event"))
            && negb (truthy (prop payload "data")))
  end.

(** The first position of [s], from the left, at which the anchored
    matcher [at_head] succeeds: how [String.prototype.match] and [replace]
    search without the [g] flag. *)
Fixpoint search {A} (at_head : jsstring -> option A) (s : jsstring) : option A :=
  match at_head s with
  | Some a => Some a
  | None =>
      match s with
      | [] => None
      | _ :: s' => search at_head s'
      end
  end.

(* ===================================================================== *)
(** ** The later worker: Sentry -> ClickUp -> GitHub *)
(* ===================================================================== *)

Module V2.

Record Env : Type := mkEnv {
  SENTRY_SHARED_TOKEN : option jsstring;
  CLICKUP_SHARED_TOKEN : option jsstring;
  ADMIN_TOKEN : option jsstring;
  GITHUB_TOKEN : option jsstring;
  GITHUB_REPO : option jsstring;
  GITHUB_LABELS : option jsstring;
  GITHUB_AGENT_LABEL : option jsstring;
  GITHUB_ASSIGNEE : option jsstring;
  CLICKUP_TOKEN : option jsstring;
  CLICKUP_LIST_ID : option jsstring;
  CLICKUP_FIX_TAG : option jsstring;
  GITHUB_MODEL_API_KEY : option jsstring;
  GITHUB_MODEL_API_URL : option jsstring;
  OPENAI_API_KEY : option jsstring;
  OPENAI_BASE_URL : option jsstring;
  OPENAI_MODEL : option jsstring;
  CREATE_GITHUB_ON_SENTRY : option jsstring;
  UPDATE_CLICKUP_ON_REPEAT : option jsstring;
  (** [LEVEL_LABELS_JSON], already read by [JSON.parse]: unset, set but
      not JSON, or the parsed value. *)
  LEVEL_LABELS_JSON : option (option jsval)
}.

(** [levelToLabel]: a throwing [JSON.parse], indexing [null], or a level
    that cannot be converted to a property name, is caught and gives
    [undefined].  The labels are looked up among the own fields of an
    object. *)
Definition levelToLabel (level : jsval) (env : Env) : jsval :=
  if truthy level then
    match LEVEL_LABELS_JSON env with
    | Some (Some (VObj fields)) =>
        if printable level then assoc (js_to_string level) fields else VUndef
    | _ => VUndef
    end
  else VUndef.

Definition parseSentry (payload : jsval) : completion parsed_event :=
  match top_frames 8 payload with
  | Thrown e => Thrown e
  | Normal fs =>
      Normal
        {| projectSlug := project_of payload;
           environment := environment_of payload;
           sentryIssueId := issue_id_of payload;
           title := title_of payload;
           permalink := permalink_of payload [];
           level := or_chain [prop payload "level"] (prop (eventObj payload) "level");
           culprit := prop (issueObj payload) "culprit";
           message :=
             or_chain
               [prop (eventObj payload) "message";
                prop (first_exception (eventObj payload)) "value";
                prop payload "message"]
               (VStr []);
           frames := fs |}
  end.

Definition buildFramesMarkdown (fs : list jsval) : completion jsstring :=
  match fs with
  | [] => Normal []
  | _ =>
      match frame_lines fs with
      | Thrown e => Thrown e
      | Normal lines => Normal (frames_open ++ join nl lines ++ frames_close)
      end
  end.

(** [`[Sentry][${parsed.environment}] ${parsed.title}`]. *)
Definition ticket_title (p : parsed_event) : jsstring :=
  lit "[Sentry][" ++ js_to_string (environment p) ++ lit "] " ++ js_to_string (title p).

Definition links_line (p : parsed_event) : jsstring :=
  if truthy (permalink p)
  then lit "- **Sentry Issue:** " ++ js_to_string (permalink p)
  else lit "- (No Sentry link)".

Definition summary_text (aiMd : jsval) : jsstring :=
  js_to_string (js_nullish_or aiMd (VStr (lit "_AI summary unavailable_"))).

Definition level_line (p : parsed_event) : jsstring :=
  if truthy (level p) then lit "- **Level:** " ++ js_to_string (level p) else [].

Definition culprit_line (p : parsed_event) : jsstring :=
  if truthy (culprit p)
  then lit "- **Culprit:** `" ++ js_to_string (culprit p) ++ lit "`"
  else [].

(** The last line of a task description, the token that the escalation
    reads back. *)
Definition group_key_line (gk : jsstring) : jsstring :=
  lit "> GroupKey: `" ++ gk ++ lit "`".

(** The [description] of [clickupCreateOrUpdate], which is rendered right
    after the [title]; the two throw when a value that they render cannot be
    converted. *)
Definition task_description (gk : jsstring) (p : parsed_event) (aiMd : jsval)
  : completion jsstring :=
  if negb (forallb printable
             [environment p; title p; permalink p; aiMd; projectSlug p; level p; culprit p])
  then Thrown type_error
  else
  match buildFramesMarkdown (frames p) with
  | Thrown e => Thrown e
  | Normal fm =>
      Normal
        (join nl
           [lit "### Links";
            links_line p;
            [];
            lit "### AI Summary";
            summary_text aiMd;
            [];
            lit "### Context";
            lit "- **Project:** " ++ js_to_string (projectSlug p);
            level_line p;
            culprit_line p;
            [];
            fm;
            [];
            group_key_line gk])
  end.

(** The [body] of [githubCreateOrUpdateIssue]; it throws when a value that
    it renders cannot be converted. *)
Definition issue_body (p : parsed_event) (aiMd : jsval) (std : option StandardsRecord)
  : completion jsstring :=
  if negb (forallb printable
             [permalink p; aiMd; projectSlug p; level p; culprit p;
              match std with Some r => std_text r | None => VUndef end])
  then Thrown type_error
  else
  match buildFramesMarkdown (frames p) with
  | Thrown e => Thrown e
  | Normal fm =>
      Normal
        (join nl
           [lit "## " ++ [55357; 56541]%N ++ lit " Summary";
            lit "Issue auto-generated from Sentry + AI review.";
            [];
            lit "## " ++ [55357; 56599]%N ++ lit " Links";
            links_line p;
            [];
            lit "## " ++ [55358; 56598]%N ++ lit " AI Review";
            summary_text aiMd;
            [];
            lit "## " ++ [55357; 56589]%N ++ lit " Context";
            lit "- **Project:** " ++ js_to_string (projectSlug p);
            level_line p;
            culprit_line p;
            [];
            fm;
            [];
            lit "## " ++ [55357; 56528]%N ++ lit " Standards & Expectations";
            js_to_string
              (or_chain
                 [match std with Some r => std_text r | None => VUndef end]
                 (VStr (lit "_No standards configured yet. Use `/admin/standards` to set them._")))])
  end.

(** The prompt of [aiSummarize]; it throws when a value that it renders
    cannot be converted. *)
Definition ai_prompt (p : parsed_event) : completion jsstring :=
  if negb (forallb printable
             [title p; projectSlug p; environment p; level p; culprit p; message p])
  then Thrown type_error
  else
  match buildFramesMarkdown (frames p) with
  | Thrown e => Thrown e
  | Normal fm =>
      Normal
        (join_truthy nl
           [lit "You are a senior software engineer. Produce a crisp, actionable incident summary from a Sentry event.";
            lit "Return markdown with these sections:";
            lit "## Summary (2-3 sentences, plain English)";
            lit "## Likely Cause (bullet list)";
            lit "## Impact";
            lit "## Reproduction Steps";
            lit "## Suggested Fix";
            lit "## Extra Context";
            [];
            lit "**Title:** " ++ js_to_string (title p);
            lit "**Project:** " ++ js_to_string (projectSlug p);
            lit "**Environment:** " ++ js_to_string (environment p);
            (if truthy (level p) then lit "**Level:** " ++ js_to_string (level p) else []);
            (if truthy (culprit p) then lit "**Culprit:** " ++ js_to_string (culprit p) else []);
            (if truthy (message p) then lit "**Message:** " ++ js_to_string (message p) else []);
            [];
            fm])
  end.

(** The chat request sent to either summarisation service: the model and
    the two messages.  (The fixed sampling temperature 0.2 of the source is
    not an integral number and is left out of the recorded body.) *)
Definition chat_body (model prompt : jsstring) : jsval :=
  VObj
    [(lit "model", VStr model);
     (lit "messages",
      VArr
        [VObj [(lit "role", VStr (lit "system"));
               (lit "content", VStr (lit "You write concise, high-signal incident reports."))];
         VObj [(lit "role", VStr (lit "user")); (lit "content", VStr prompt)]])].

(** [data.choices?.[0]?.message?.content || null]; [data.choices] throws
    on a [null] answer. *)
Definition chat_content (data : jsval) : completion jsval :=
  if nullish data then Thrown type_error
  else Normal (or_chain [path (first_item (prop data "choices")) ["message"; "content"]] VNull).

Definition aiSummarize (w : world) (env : Env) (parsed : parsed_event) : M jsval :=
  let model := env_or (OPENAI_MODEL env) (lit "gpt-4o-mini") in
  let* prompt := lift (ai_prompt parsed) in
  let openai : M jsval :=
    if configured (OPENAI_API_KEY env) then
      let base := env_or (OPENAI_BASE_URL env) (lit "https://api.openai.com/v1") in
      let* res := fetch w (mkRequest AiOpenAI (lit "POST") (base ++ lit "/chat/completions")
                                     (chat_body model prompt)) in
      if rs_ok res then
        let* data := res_json res in
        lift (chat_content data)
      else
        console [lit "OpenAI summarize failed:"; num_to_string (rs_status res); rs_text res];;
        ret VNull
    else ret VNull in
  if configured (GITHUB_MODEL_API_KEY env) then
    let base := env_or (GITHUB_MODEL_API_URL env) (lit "https://models.inference.ai.azure.com") in
    let* res := fetch w (mkRequest AiGithubModels (lit "POST") (base ++ lit "/v1/chat/completions")
                                   (chat_body model prompt)) in
    if rs_ok res then
      let* data := res_json res in
      lift (chat_content data)
    else
      console [lit "GitHub Models summarize failed:"; num_to_string (rs_status res); rs_text res];;
      openai
  else openai.

(* --------- ClickUp ---------- *)

Definition clickup_base : jsstring := lit "https://api.clickup.com/api/v2".

Record cu_result : Type := mkCu {
  created : bool;
  task_id : jsval
}.

Definition prior_task_id (state : option StateRecord) : jsval :=
  match state with
  | Some r => clickup_task_id r
  | None => VUndef
  end.

Definition prior_issue_number (state : option StateRecord) : jsval :=
  match state with
  | Some r => issue_number r
  | None => VUndef
  end.

Definition repeat_comment (p : parsed_event) (now : jsstring) : jsstring :=
  join_truthy nl
    [lit "New occurrence for **" ++ ticket_title p ++ lit "**";
     (if truthy (level p) then lit "- Level: " ++ js_to_string (level p) else []);
     lit "- Seen at: " ++ now;
     (if truthy (permalink p) then lit "- Sentry: " ++ js_to_string (permalink p) else [])].

Definition clickupCreateOrUpdate (w : world) (env : Env) (gk : jsstring)
    (parsed : parsed_event) (aiMd : jsval) (state : option StateRecord) : M cu_result :=
  if negb (configured (CLICKUP_TOKEN env)) || negb (configured (CLICKUP_LIST_ID env))
  then ret (mkCu false VUndef)
  else
    let ttl := ticket_title parsed in
    let* description := lift (task_description gk parsed aiMd) in
    if negb (truthy (prior_task_id state)) then
      let* res :=
        fetch w
          (mkRequest CuCreateTask (lit "POST")
             (clickup_base ++ lit "/list/" ++ env_or (CLICKUP_LIST_ID env) [] ++ lit "/task")
             (VObj [(lit "name", VStr ttl);
                    (lit "description", VStr description);
                    (lit "tags",
                     VArr (List.filter truthy [VStr (lit "sentry"); environment parsed]))])) in
      if negb (rs_ok res) then
        throw (lit "ClickUp create failed: " ++ num_to_string (rs_status res)
                 ++ lit " " ++ rs_text res)
      else
        let* task := res_json res in
        if nullish task then throw type_error
        else ret (mkCu true (prop task "id"))
    else
      (if env_bool (UPDATE_CLICKUP_ON_REPEAT env) true then
         let* now := nowIso w in
         let* res :=
           fetch w
             (mkRequest CuComment (lit "POST")
                (clickup_base ++ lit "/task/" ++ js_to_string (prior_task_id state)
                   ++ lit "/comment")
                (VObj [(lit "comment_text", VStr (repeat_comment parsed now))])) in
         if negb (rs_ok res) then
           console [lit "ClickUp comment failed:"; num_to_string (rs_status res); rs_text res]
         else ret tt
       else ret tt);;
      ret (mkCu false (prior_task_id state)).

Definition clickupAddComment (w : world) (env : Env) (taskId : jsval) (comment : jsstring)
  : M unit :=
  if negb (configured (CLICKUP_TOKEN env)) then ret tt
  else
    let* res :=
      fetch w
        (mkRequest CuAddComment (lit "POST")
           (lit "https://api.clickup.com/api/v2/task/" ++ js_to_string taskId ++ lit "/comment")
           (VObj [(lit "comment_text", VStr comment)])) in
    if negb (rs_ok res) then
      console [lit "ClickUp add comment failed:"; num_to_string (rs_status res); rs_text res]
    else ret tt.

(* --------- GitHub ---------- *)

(** [(env.GITHUB_REPO || "").split("/")], destructured into its first two
    pieces; both must be non-empty. *)
Definition owner_repo (repo : option jsstring) : option (jsstring * jsstring) :=
  match split (lit "/") (env_or repo []) with
  | (c :: o) :: (d :: r) :: _ => Some (c :: o, d :: r)
  | _ => None
  end.

Definition issue_labels (env : Env) (p : parsed_event) : list jsval :=
  let baseLabels :=
    List.filter nonempty
      (List.map trim (split (lit ",") (env_or (GITHUB_LABELS env) (lit "sentry")))) in
  let levelLabel := levelToLabel (level p) env in
  List.map VStr baseLabels
    ++ (if truthy levelLabel then [levelLabel] else [])
    ++ (if configured (GITHUB_AGENT_LABEL env)
        then [VStr (env_or (GITHUB_AGENT_LABEL env) [])] else []).

Definition githubCreateOrUpdateIssue (w : world) (env : Env) (gk : jsstring)
    (parsed : parsed_event) (aiMd : jsval) (std : option StandardsRecord)
    (existingIssueNumber : jsval) : M jsval :=
  match owner_repo (GITHUB_REPO env) with
  | None => throw (lit "GITHUB_REPO must be 'owner/repo'")
  | Some (owner, repo) =>
      if negb (printable (environment parsed) && printable (title parsed))
      then throw type_error
      else
      let ttl := ticket_title parsed in
      let labels := issue_labels env parsed in
      let* body := lift (issue_body parsed aiMd std) in
      let issues := lit "https://api.github.com/repos/" ++ owner ++ lit "/" ++ repo ++ lit "/issues" in
      if negb (truthy existingIssueNumber) then
        let* createRes :=
          fetch w
            (mkRequest GhCreateIssue (lit "POST") issues
               (VObj ([(lit "title", VStr ttl);
                       (lit "body", VStr body);
                       (lit "labels", VArr labels)]
                      ++ (if configured (GITHUB_ASSIGNEE env)
                          then [(lit "assignees", VArr [VStr (env_or (GITHUB_ASSIGNEE env) [])])]
                          else [])))) in
        if negb (rs_ok createRes) then
          throw (lit "GitHub create failed: " ++ num_to_string (rs_status createRes)
                   ++ lit " " ++ rs_text createRes)
        else
          let* created := res_json createRes in
          if nullish created then throw type_error
          else ret (prop created "number")
      else if negb (printable existingIssueNumber) then throw type_error
      else
        let* patchRes :=
          fetch w
            (mkRequest GhPatchIssue (lit "PATCH")
               (issues ++ lit "/" ++ js_to_string existingIssueNumber)
               (VObj [(lit "body", VStr body)])) in
        if negb (rs_ok patchRes) then
          throw (lit "GitHub patch failed: " ++ num_to_string (rs_status patchRes)
                   ++ lit " " ++ rs_text patchRes)
        else ret existingIssueNumber
  end.

(* --------- Standards (KV) ---------- *)

Definition getStandards : M (option StandardsRecord) := standards_get.

Definition setStandards (w : world) (text : jsval) : M StandardsRecord :=
  let* now := nowIso w in
  let rec := mkStandards text now in
  standards_put rec;;
  ret rec.

(* --------- Handlers --------- *)

Definition sentry_message (cu : cu_result) (count : Z) : jsstring :=
  if created cu
  then lit "ClickUp task " ++ js_to_string (task_id cu) ++ lit " created (occurrence "
         ++ num_to_string count ++ lit ")."
  else lit "ClickUp task "
         ++ js_to_string (js_nullish_or (task_id cu) (VStr (lit "(none)")))
         ++ lit " updated (occurrence " ++ num_to_string count ++ lit ").".

Definition handleSentry (w : world) (env : Env) (req : inbound) : M reply :=
  if token_mismatch (SENTRY_SHARED_TOKEN env) (in_token req)
  then ret (err (lit "unauthorized") 401)
  else if negb (jsstring_eqb (in_method req) (lit "POST"))
          || negb (jsstring_eqb (in_path req) (lit "/webhooks/sentry"))
  then ret (ok (lit "Worker is running") 200)
  else
    let payload := json_or_empty req in
    if negb (configured (GITHUB_REPO env)) || negb (configured (GITHUB_TOKEN env))
    then ret (err (lit "Missing GitHub config") 500)
    else
      match is_ping payload with
      | None => throw type_error
      | Some true => ret (ok (lit "ok") 200)
      | Some false =>
          let* parsed := lift (parseSentry payload) in
          if negb (truthy (sentryIssueId parsed))
          then ret (ok (lit "ok (no issue id)") 200)
          else if negb (printable_key (projectSlug parsed) (environment parsed)
                          (sentryIssueId parsed))
          then throw type_error
          else
            let gk := groupKeyFrom parsed in
            let* prior := state_get gk in
            let count := match prior with Some r => count r | None => 0 end + 1 in
            let* firstSeen :=
              match prior with
              | Some r => ret (first_seen r)
              | None => nowIso w
              end in
            let* aiMd := aiSummarize w env parsed in
            let* cu := clickupCreateOrUpdate w env gk parsed aiMd prior in
            let newState :=
              {| clickup_task_id := js_nullish_or (task_id cu) (prior_task_id prior);
                 issue_number := prior_issue_number prior;
                 count := count;
                 first_seen := firstSeen |} in
            state_put gk newState ttl90;;
            (if env_bool (CREATE_GITHUB_ON_SENTRY env) false then
               let* std := getStandards in
               let* num :=
                 githubCreateOrUpdateIssue w env gk parsed aiMd std
                   (prior_issue_number prior) in
               state_put gk
                 {| clickup_task_id := clickup_task_id newState;
                    issue_number := num;
                    count := count;
                    first_seen := firstSeen |} ttl90;;
               if truthy (clickup_task_id newState) then
                 if negb (printable num) then throw type_error
                 else
                   clickupAddComment w env (clickup_task_id newState)
                     (lit "Created GitHub issue **#" ++ js_to_string num
                        ++ lit "** from Sentry event.")
               else ret tt
             else ret tt);;
            if negb (printable (task_id cu)) then throw type_error
            else ret (ok (sentry_message cu count) (if created cu then 201 else 200))
      end.

(* --------- The escalation endpoint --------- *)

Definition backtick : jschar := 96%N.
Definition not_backtick (c : jschar) : bool := negb (N.eqb c backtick).

(** The pattern [GroupKey:\s*`([^`]+)`] (flag [i]) at the head of [s],
    giving its group 1.  Neither greedy run can give a code unit back: what
    follows [\s*] is a backtick, which is no white space, and what follows
    [[^`]+] is a backtick, which the run excludes. *)
Definition group_key_at (s : jsstring) : option jsstring :=
  if starts_with_ci (lit "GroupKey:") s then
    match drop_while is_space (skipn 9 s) with
    | c :: rest =>
        if N.eqb c backtick then
          let captured := take_while not_backtick rest in
          match captured, skipn (length captured) rest with
          | _ :: _, _ :: _ => Some captured
          | _, _ => None
          end
        else None
    | [] => None
    end
  else None.

(** [description.match(/GroupKey:\s*`([^`]+)`/i)?.[1]]. *)
Definition extract_group_key (description : jsstring) : option jsstring :=
  search group_key_at description.

Definition rbracket : jschar := 93%N.

(** The lazy group [(.+?)] followed by [\]\s]: [taken] is what the group
    holds so far (at least one code unit). *)
Fixpoint env_name_rest (s : jsstring) (taken : jsstring) : option jsstring :=
  match s with
  | [] => None
  | c :: s' =>
      if N.eqb c rbracket && match s' with d :: _ => is_space d | [] => false end
      then Some taken
      else if is_line_terminator c then None
      else env_name_rest s' (taken ++ [c])
  end.

(** The pattern [\[Sentry]\[(.+?)\]\s] at the head of [s]. *)
Definition env_name_at (s : jsstring) : option jsstring :=
  if starts_with (lit "[Sentry][") s then
    match skipn 9 s with
    | c :: s' => if is_line_terminator c then None else env_name_rest s' [c]
    | [] => None
    end
  else None.

(** The pattern [\*\*Sentry Issue:\*\*\s*(\S+)] at the head of [s]. *)
Definition sentry_url_at (s : jsstring) : option jsstring :=
  if starts_with (lit "**Sentry Issue:**") s then
    match take_while (fun c => negb (is_space c)) (drop_while is_space (skipn 17 s)) with
    | [] => None
    | url => Some url
    end
  else None.

(** [name.replace(/^\[Sentry]\[[^\]]+]\s*/, "")]. *)
Definition strip_title_prefix (name : jsstring) : jsstring :=
  if starts_with (lit "[Sentry][") name then
    let inner := take_while (fun c => negb (N.eqb c rbracket)) (skipn 9 name) in
    match inner, skipn (9 + length inner) name with
    | _ :: _, _ :: rest => drop_while is_space rest
    | _, _ => name
    end
  else name.

(** A value on which a string method is called: anything but a string
    throws. *)
Definition as_string (v : jsval) : completion jsstring :=
  match v with
  | VStr s => Normal s
  | _ => Thrown type_error
  end.

(** [tags.map((t) => (t || "").toLowerCase())] on the truthy tag names. *)
Fixpoint lower_tags (tags : list jsval) : completion (list jsstring) :=
  match tags with
  | [] => Normal []
  | t :: rest =>
      match as_string t with
      | Thrown e => Thrown e
      | Normal s =>
          match lower_tags rest with
          | Thrown e => Thrown e
          | Normal ls => Normal (toLowerCase s :: ls)
          end
      end
  end.

(** The tag names of the notification. *)
Definition task_tags (task : jsval) : list jsval :=
  match nullish_chain [prop task "tags"] (prop task "tag") with
  | VArr items =>
      List.filter truthy
        (List.map (fun t => match t with VStr _ => t | _ => prop t "name" end) items)
  | _ => []
  end.

Definition trigger_tag (env : Env) : jsstring :=
  toLowerCase (env_or (CLICKUP_FIX_TAG env) (lit "ai-to-fix")).

(** The tag found in [history_items] or in [changes] when the tag list
    does not carry the trigger. *)
Definition added_tag (body : jsval) : jsval :=
  or_chain [path (first_item (prop body "history_items")) ["after"; "tag"]]
    (first_item (path body ["changes"; "tags"; "added"])).

(** [!(!added || (added.name || added).toString().toLowerCase() !== tag)];
    [toString()] throws on a value that cannot be converted. *)
Definition added_is_trigger (body : jsval) (trigger : jsstring) : completion bool :=
  let added := added_tag body in
  if negb (truthy added) then Normal false
  else if negb (printable (js_or (prop added "name") added)) then Thrown type_error
  else
    Normal (jsstring_eqb (toLowerCase (js_to_string (js_or (prop added "name") added)))
              trigger).

(** Lines 499-500: the text after the last [### AI Summary] heading. *)
Definition recover_summary (description : jsstring) : jsval :=
  match split_pop (lit "### AI Summary") description with
  | [] => VNull
  | aiBlock => VStr (trim aiBlock)
  end.

Definition parsedLite (gk name description : jsstring) : parsed_event :=
  {| projectSlug := VStr (lit "unknown");
     environment :=
       or_chain [match search env_name_at name with Some e => VStr e | None => VUndef end]
         (VStr (lit "unknown"));
     sentryIssueId := or_chain [VStr (split_pop colon gk)] VNull;
     title := or_chain [VStr (strip_title_prefix name)] (VStr (lit "Unhandled error"));
     permalink :=
       or_chain [match search sentry_url_at description with Some u => VStr u | None => VUndef end]
         (VStr []);
     level := VUndef;
     culprit := VUndef;
     message := VUndef;
     frames := [] |}.

(** [task] and [taskId] of the notification (lines 440-441). *)
Definition notified_task (body : jsval) : jsval :=
  nullish_chain [prop body "task"; path body ["event"; "task"]] body.

Definition notified_task_id (body : jsval) : jsval :=
  or_chain [prop (notified_task body) "id"; prop (notified_task body) "task_id"]
    (prop body "task_id").

(** Lines 444-458: [hasTrigger], or else the trigger found in the change
    entries of the notification. *)
Definition trigger_found (env : Env) (body : jsval) : completion bool :=
  match lower_tags (task_tags (notified_task body)) with
  | Thrown e => Thrown e
  | Normal lowered =>
      let hasTrigger := existsb (fun t => jsstring_eqb t (trigger_tag env)) lowered in
      if hasTrigger then Normal true else added_is_trigger body (trigger_tag env)
  end.

(** The request that fetches the full task. *)
Definition get_task_request (taskId : jsval) : request :=
  mkRequest CuGetTask (lit "GET")
    (lit "https://api.clickup.com/api/v2/task/" ++ js_to_string taskId) VUndef.

(** [full?.description || ""], on which [match] is then called. *)
Definition description_of (full : jsval) : completion jsstring :=
  as_string (or_chain [prop full "description"] (VStr [])).

Definition handleClickUp (w : world) (env : Env) (req : inbound) : M reply :=
  if token_mismatch (CLICKUP_SHARED_TOKEN env) (in_token req)
  then ret (err (lit "unauthorized") 401)
  else if negb (jsstring_eqb (in_method req) (lit "POST"))
  then ret (err (lit "Method not allowed") 405)
  else if negb (configured (GITHUB_REPO env)) || negb (configured (GITHUB_TOKEN env))
  then ret (err (lit "Missing GitHub config") 500)
  else
    let body := json_or_empty req in
    let taskId := notified_task_id body in
    if negb (truthy taskId) then ret (ok (lit "no task id") 200)
    else
      let triggerTag := trigger_tag env in
      let* found := lift (trigger_found env body) in
      if negb found
      then ret (ok (lit "no trigger tag") 200)
      else if negb (configured (CLICKUP_TOKEN env))
      then ret (err (lit "Missing CLICKUP_TOKEN") 500)
      else
        let* res := fetch w (get_task_request taskId) in
        if negb (rs_ok res) then
          ret (err (lit "ClickUp get task failed: " ++ num_to_string (rs_status res)
                      ++ lit " " ++ rs_text res) 502)
        else
          let* full := res_json res in
          let* description := lift (description_of full) in
          match extract_group_key description with
          | None => ret (err (lit "No GroupKey found in task description") 400)
          | Some groupKey =>
              let* state := state_get groupKey in
              let* name := lift (as_string (or_chain [prop full "name"] (VStr []))) in
              let lite := parsedLite groupKey name description in
              let aiMd := recover_summary description in
              let* std := getStandards in
              let* issueNo :=
                githubCreateOrUpdateIssue w env groupKey lite aiMd std
                  (prior_issue_number state) in
              let* firstSeen :=
                match state with
                | Some r => ret (first_seen r)
                | None => nowIso w
                end in
              state_put groupKey
                {| clickup_task_id := taskId;
                   issue_number := issueNo;
                   count := match state with Some r => count r | None => 1 end;
                   first_seen := firstSeen |} ttl90;;
              if negb (printable issueNo) then throw type_error
              else
              clickupAddComment w env taskId
                (lit "Created/updated GitHub issue **#" ++ js_to_string issueNo
                   ++ lit "** for Copilot." ++ nl ++ nl ++ lit "_(Trigger: `" ++ triggerTag
                   ++ lit "` tag)_");;
              ret (ok (lit "GH issue #" ++ js_to_string issueNo
                         ++ lit " created/updated from ClickUp tag.") 200)
          end.

Definition handleStandards (w : world) (env : Env) (req : inbound) : M reply :=
  if negb (configured (ADMIN_TOKEN env))
     || match in_token req with
        | Some t => negb (jsstring_eqb t (env_or (ADMIN_TOKEN env) []))
        | None => true
        end
  then ret (err (lit "unauthorized") 401)
  else if jsstring_eqb (in_method req) (lit "GET") then
    let* rec := getStandards in
    ret (mkReply 200
           (Json match rec with
                 | Some r => VObj [(lit "text", std_text r); (lit "updated_at", VStr (updated_at r))]
                 | None => VObj [(lit "text", VStr []); (lit "updated_at", VNull)]
                 end))
  else if jsstring_eqb (in_method req) (lit "PUT") then
    let text := prop (json_or_empty req) "text" in
    if nullish (json_or_empty req) then throw type_error
    else if negb (truthy text) then ret (err (lit "Missing {text}") 400)
    else
      let* rec := setStandards w text in
      ret (mkReply 201
             (Json (VObj [(lit "text", std_text rec); (lit "updated_at", VStr (updated_at rec))])))
  else ret (err (lit "Method not allowed") 405).

(** The router.  A handler is returned without [await], so the [try] has
    long been left when the handler's promise settles: a handler that
    throws rejects the promise of [fetch], and the [catch] clause only
    guards the routing itself, which does not throw. *)
Definition fetch_handler (w : world) (env : Env) (req : inbound) : M reply :=
  if jsstring_eqb (in_path req) (lit "/health") then ret (ok (lit "ok") 200)
  else if jsstring_eqb (in_path req) (lit "/webhooks/sentry") then handleSentry w env req
  else if jsstring_eqb (in_path req) (lit "/webhooks/clickup") then handleClickUp w env req
  else if jsstring_eqb (in_path req) (lit "/admin/standards") then handleStandards w env req
  else ret (ok (lit "Worker is running") 200).

End V2.

(* ===================================================================== *)
(** ** The first worker: Sentry -> GitHub issues ([src/index.ts]) *)
(* ===================================================================== *)

Module V1.

Record Env : Type := mkEnv {
  STATE : bool;  (** whether the KV binding is present *)
  GITHUB_TOKEN : option jsstring;
  GITHUB_REPO : option jsstring;
  SENTRY_SHARED_TOKEN : option jsstring
}.

(** The fields of the payload that the body and the title are built from. *)
Record fields : Type := mkFields {
  f_project : jsval;
  f_environment : jsval;
  f_issue_id : jsval;
  f_title : jsval;
  f_permalink : jsval;
  f_frames_block : jsstring;
  f_level_line : jsstring;
  f_culprit_line : jsstring
}.

Definition framesBlock (payload : jsval) : completion jsstring :=
  match top_frames 4 payload with
  | Thrown e => Thrown e
  | Normal fs =>
      match frame_lines fs with
      | Thrown e => Thrown e
      | Normal [] => Normal []
      | Normal lines => Normal (frames_open ++ join nl lines ++ frames_close ++ nl)
      end
  end.

Definition levelLine (payload : jsval) : jsstring :=
  let lv := or_chain [prop payload "level"] (prop (eventObj payload) "level") in
  if truthy lv then lit "**Level:** " ++ js_to_string lv else [].

Definition culpritLine (payload : jsval) : jsstring :=
  let c := prop (issueObj payload) "culprit" in
  if truthy c then lit "**Culprit:** `" ++ js_to_string c ++ lit "`" else [].

(** Lines 50-107: the fields, the frames block, the level line and the
    culprit line; a value of the two lines that cannot be converted
    throws. *)
Definition normalize (payload : jsval) : completion fields :=
  match framesBlock payload with
  | Thrown e => Thrown e
  | Normal fb =>
      if negb (printable (or_chain [prop payload "level"] (prop (eventObj payload) "level"))
               && printable (prop (issueObj payload) "culprit"))
      then Thrown type_error
      else
      Normal
        {| f_project := project_of payload;
           f_environment := environment_of payload;
           f_issue_id := issue_id_of payload;
           f_title := title_of payload;
           f_permalink := permalink_of payload (lit "(no Sentry link)");
           f_frames_block := fb;
           f_level_line := levelLine payload;
           f_culprit_line := culpritLine payload |}
  end.

Definition status_head : jsstring := lit "## " ++ [55357; 56522]%N ++ lit " Status".

Definition occurrences_line (n : Z) : jsstring :=
  lit "**Occurrences:** " ++ num_to_string n ++ lit "  ".
Definition first_seen_line (t : jsstring) : jsstring :=
  lit "**First seen:** " ++ t ++ lit "  ".
Definition last_seen_line (t : jsstring) : jsstring :=
  lit "**Last seen:** " ++ t.

(** [buildBody]: the empty strings are filtered out before the join. *)
Definition buildBody (f : fields) (occurrences : Z) (firstSeen lastSeen : jsstring)
  : jsstring :=
  join_truthy nl
    [lit "## " ++ [55357; 56541]%N ++ lit " Summary";
     lit "New or repeated Sentry alert detected.";
     [];
     lit "## " ++ [55357; 56599]%N ++ lit " Links";
     lit "- **Sentry Issue:** " ++ js_to_string (f_permalink f);
     [];
     lit "## " ++ [55357; 56589]%N ++ lit " Key Details";
     lit "**Project:** " ++ js_to_string (f_project f);
     f_level_line f;
     f_culprit_line f;
     f_frames_block f;
     [];
     status_head;
     occurrences_line occurrences;
     first_seen_line firstSeen;
     last_seen_line lastSeen;
     [];
     lit "> Raw payload omitted. Inspect in Sentry for full context."].

Definition newStatusBlock (newCount : Z) (firstSeen now : jsstring) : jsstring :=
  join nl
    [status_head;
     occurrences_line newCount;
     first_seen_line firstSeen;
     last_seen_line now;
     []].

(** [$] under the [m] flag: the end of the input, or just before a line
    terminator. *)
Definition at_eol (s : jsstring) : bool :=
  match s with
  | [] => true
  | c :: _ => is_line_terminator c
  end.

(** The group [(?:\n## |\n> |\n?$)] at the head of [s], alternatives in
    order, giving the text it matches.  In the last one [\n?] first takes
    the newline and gives it back when [$] fails after it. *)
Definition status_end_at (s : jsstring) : option jsstring :=
  if starts_with (nl ++ lit "## ") s then Some (nl ++ lit "## ")
  else if starts_with (nl ++ lit "> ") s then Some (nl ++ lit "> ")
  else
    match s with
    | c :: s' =>
        if N.eqb c 10 && at_eol s' then Some nl
        else if at_eol s then Some []
        else None
    | [] => Some []
    end.

(** The lazy run [[\s\S]*?] followed by the group: the run takes one more
    code unit only when the group fails where it stands.  The pair is the
    run and the text of the group. *)
Fixpoint status_tail (s : jsstring) : jsstring * jsstring :=
  match status_end_at s with
  | Some g => ([], g)
  | None =>
      match s with
      | c :: s' => let '(run, g) := status_tail s' in (c :: run, g)
      | [] => ([], [])
      end
  end.

(** [statusRegex], [/## 📊 Status[\s\S]*?(?:\n## |\n> |\n?$)/m], at the head
    of [s]: the text matched. *)
Definition statusRegex_at (s : jsstring) : option jsstring :=
  if starts_with status_head s then
    let '(run, g) := status_tail (skipn (length status_head) s) in
    Some (status_head ++ run ++ g)
  else None.

(** [re.test(s)]. *)
Definition regex_test (at_head : jsstring -> option jsstring) (s : jsstring) : bool :=
  match search at_head s with
  | Some _ => true
  | None => false
  end.

(** [s.replace(re, fn)] without the [g] flag: the leftmost match is
    replaced by [fn match]. *)
Fixpoint replace_first (at_head : jsstring -> option jsstring)
    (fn : jsstring -> jsstring) (s : jsstring) : jsstring :=
  match at_head s with
  | Some m => fn m ++ skipn (length m) s
  | None =>
      match s with
      | [] => []
      | c :: s' => c :: replace_first at_head fn s'
      end
  end.

(** [match.match(/(\n## |\n> |\n?$)/m)?.[1] ?? "\n"]. *)
Definition trailing_of (m : jsstring) : jsstring :=
  match search status_end_at m with
  | Some g => g
  | None => nl
  end.

(** [updatedBody]; [issueBody] is [issue.body || ""], which [test] turns
    into a string and on which [replace] must exist.  The fallback renders
    the link and the project. *)
Definition updatedBody (f : fields) (issueBody : jsval) (newCount : Z)
    (firstSeen now : jsstring) : completion jsstring :=
  if negb (printable issueBody) then Thrown type_error
  else if regex_test statusRegex_at (js_to_string issueBody) then
    match issueBody with
    | VStr b =>
        Normal (replace_first statusRegex_at
                  (fun m => newStatusBlock newCount firstSeen now ++ trailing_of m) b)
    | _ => Thrown type_error
    end
  else if negb (printable (f_permalink f) && printable (f_project f)) then Thrown type_error
  else Normal (buildBody f newCount firstSeen now).

Definition owner_repo (repo : jsstring) : option (jsstring * jsstring) :=
  match split (lit "/") repo with
  | (c :: o) :: (d :: r) :: _ => Some (c :: o, d :: r)
  | _ => None
  end.

Definition text_reply (msg : jsstring) (st : Z) : reply := mkReply st (Text msg).

Definition fetch_handler (w : world) (env : Env) (req : inbound) : M reply :=
  if token_mismatch (SENTRY_SHARED_TOKEN env) (in_token req)
  then ret (text_reply (lit "unauthorized") 401)
  else if negb (jsstring_eqb (in_method req) (lit "POST"))
          || negb (jsstring_eqb (in_path req) (lit "/webhooks/sentry"))
  then ret (text_reply (lit "Worker is running") 200)
  else
    let payload := json_or_empty req in
    match is_ping payload with
    | None => throw type_error
    | Some true =>
        console [lit "Received test ping, ignoring."];;
        ret (text_reply (lit "ok") 200)
    | Some false =>
        if negb (configured (GITHUB_REPO env))
        then ret (text_reply (lit "Missing GITHUB_REPO") 500)
        else if negb (configured (GITHUB_TOKEN env))
        then ret (text_reply (lit "Missing GITHUB_TOKEN") 500)
        else if negb (STATE env)
        then ret (text_reply (lit "Missing KV binding STATE") 500)
        else
          match owner_repo (env_or (GITHUB_REPO env) []) with
          | None => ret (text_reply (lit "GITHUB_REPO must be 'owner/repo'") 500)
          | Some (owner, repo) =>
              let* f := lift (normalize payload) in
              if negb (truthy (f_issue_id f)) then
                console [lit "Skipping " ++ [8212%N] ++ lit " no Sentry issue id present."];;
                ret (text_reply (lit "ok (no issue id)") 200)
              else if negb (printable_key (f_project f) (f_environment f) (f_issue_id f))
              then throw type_error
              else
                let gk := groupKey (f_project f) (f_environment f) (f_issue_id f) in
                let* state := state_get gk in
                let* now := nowIso w in
                let issues :=
                  lit "https://api.github.com/repos/" ++ owner ++ lit "/" ++ repo
                    ++ lit "/issues" in
                match state with
                | None =>
                    if negb (printable (f_permalink f) && printable (f_title f))
                    then throw type_error
                    else
                    let createBody := buildBody f 1 now now in
                    let* createRes :=
                      fetch w
                        (mkRequest GhCreateIssue (lit "POST") issues
                           (VObj
                              [(lit "title",
                                VStr (lit "[Sentry][" ++ js_to_string (f_environment f)
                                        ++ lit "] " ++ js_to_string (f_title f)));
                               (lit "body", VStr createBody);
                               (lit "labels",
                                VArr (List.filter truthy
                                        [VStr (lit "sentry"); f_environment f]))])) in
                    if negb (rs_ok createRes) then
                      console [lit "GitHub create failed"; num_to_string (rs_status createRes);
                               rs_text createRes];;
                      ret (text_reply
                             (lit "GitHub issue create failed: "
                                ++ num_to_string (rs_status createRes) ++ lit " "
                                ++ rs_text createRes) 502)
                    else
                      let* created := res_json createRes in
                      if nullish created then throw type_error
                      else
                        let number := prop created "number" in
                        state_put gk
                          {| clickup_task_id := VUndef;
                             issue_number := number;
                             count := 1;
                             first_seen := now |} ttl90;;
                        if negb (printable number) then throw type_error
                        else
                        console [lit "Created issue #" ++ js_to_string number ++ lit " for " ++ gk];;
                        ret (text_reply (lit "Created issue #" ++ js_to_string number) 201)
                | Some st =>
                    let newCount := (if Z.eqb (count st) 0 then 1 else count st) + 1 in
                    if negb (printable (issue_number st)) then throw type_error
                    else
                    let issue_url := issues ++ lit "/" ++ js_to_string (issue_number st) in
                    let* issueRes := fetch w (mkRequest GhGetIssue (lit "GET") issue_url VUndef) in
                    if negb (rs_ok issueRes) then
                      console [lit "GitHub get failed"; num_to_string (rs_status issueRes);
                               rs_text issueRes];;
                      ret (text_reply
                             (lit "GitHub get issue failed: "
                                ++ num_to_string (rs_status issueRes) ++ lit " "
                                ++ rs_text issueRes) 502)
                    else
                      let* issue := res_json issueRes in
                      if nullish issue then throw type_error
                      else
                        let* updated :=
                          lift (updatedBody f (or_chain [prop issue "body"] (VStr []))
                                  newCount (first_seen st) now) in
                        let* patchRes :=
                          fetch w
                            (mkRequest GhPatchIssue (lit "PATCH") issue_url
                               (VObj [(lit "body", VStr updated)])) in
                        if negb (rs_ok patchRes) then
                          console [lit "GitHub patch failed"; num_to_string (rs_status patchRes);
                                   rs_text patchRes];;
                          ret (text_reply
                                 (lit "GitHub patch failed: "
                                    ++ num_to_string (rs_status patchRes) ++ lit " "
                                    ++ rs_text patchRes) 502)
                        else
                          state_put gk
                            {| clickup_task_id := clickup_task_id st;
                               issue_number := issue_number st;
                               count := newCount;
                               first_seen := first_seen st |} ttl90;;
                          console [lit "Updated issue #" ++ js_to_string (issue_number st)
                                     ++ lit " (occurrences=" ++ num_to_string newCount
                                     ++ lit ") for " ++ gk];;
                          ret (text_reply
                                 (lit "Updated issue #" ++ js_to_string (issue_number st)
                                    ++ lit " (occurrences=" ++ num_to_string newCount
                                    ++ lit ")") 200)
                end
          end
    end.

End V1.

(* ===================================================================== *)
(** ** Vocabulary of the statements *)
(* ===================================================================== *)

Definition no_colon (s : jsstring) : bool := forallb (fun c => negb (N.eqb c 58)) s.

Definition no_backtick (s : jsstring) : bool := forallb V2.not_backtick s.

(** A task description without its last line, the grouping-key token. *)
Definition before_token (gk d : jsstring) : jsstring :=
  firstn (length d - length (V2.group_key_line gk)) d.

Definition summary_heading : jsstring := lit "### AI Summary".

(** [has_key k fields]: the object has an own field named [k]. *)
Definition has_key (k : string) (fields : list (jsstring * jsval)) : bool :=
  existsb (fun kv => jsstring_eqb (lit k) (fst kv)) fields.

(** A success status. *)
Definition success (rep : reply) : bool := (200 <=? status rep) && (status rep <=? 299).

(** Weakest preconditions of a computation, for its normal and its
    exceptional completion. *)
Definition wp {A} (m : M A) (Qn : A -> run_state -> Prop) (Qe : jsstring -> run_state -> Prop)
    (st : run_state) : Prop :=
  match m st with
  | (Normal a, st') => Qn a st'
  | (Thrown e, st') => Qe e st'
  end.

(** The states that the primitive steps lead to. *)
Definition push (st : run_state) (e : event) : run_state :=
  mkRun (st_store st) (st_trace st ++ [e]) (st_log st) (st_ticks st).
Definition logged (st : run_state) (l : jsstring) : run_state :=
  mkRun (st_store st) (st_trace st) (st_log st ++ [l]) (st_ticks st).
Definition ticked (st : run_state) : run_state :=
  mkRun (st_store st) (st_trace st) (st_log st) (S (st_ticks st)).
Definition stored (st : run_state) (key : jsstring) (rec : StateRecord) (ttl : Z) : run_state :=
  mkRun (mkStore (<[key := rec]> (states (st_store st))) (standards (st_store st)))
        (st_trace st ++ [EvPut key rec ttl]) (st_log st) (st_ticks st).

(** A fetch at one of the call sites [ok]. *)
Definition fetch_of (ok : endpoint -> bool) (e : event) : Prop :=
  exists rq, e = EvFetch rq /\ ok (rq_endpoint rq) = true.

(** [st'] is [st] after some fetches at the call sites [ok], and nothing
    else that is recorded in the store or in the trace. *)
Definition frame (ok : endpoint -> bool) (st st' : run_state) : Prop :=
  st_store st' = st_store st /\
  exists evs, st_trace st' = st_trace st ++ evs /\ Forall (fetch_of ok) evs.

Definition is_ai (e : endpoint) : bool :=
  match e with AiGithubModels | AiOpenAI => true | _ => false end.

(** The best-effort side actions: the repeat-occurrence comment and the
    cross-reference comment. *)
Definition is_comment (e : endpoint) : bool :=
  match e with CuComment | CuAddComment => true | _ => false end.

Definition any_endpoint (e : endpoint) : bool := true.

(** The calls a request waits on: ticket create, update, and the ticket
    fetch before them. *)
Definition mandatory (e : endpoint) : bool :=
  match e with
  | CuCreateTask | CuGetTask | GhCreateIssue | GhPatchIssue | GhGetIssue => true
  | _ => false
  end.

(** The call was answered, with a non-success status. *)
Definition refused (w : world) (rq : request) : bool :=
  match http w rq with
  | Some res => negb (rs_ok res)
  | None => false
  end.

Definition clean (w : world) (e : event) : bool :=
  match e with
  | EvFetch rq => negb (mandatory (rq_endpoint rq) && refused w rq)
  | _ => true
  end.

(** No mandatory call of the request has been refused so far. *)
Definition Clean (w : world) (st : run_state) : Prop :=
  forallb (clean w) (st_trace st) = true.

(** The message ends with the status and the body of the answer. *)
Definition embeds (msg : jsstring) (res : response) : Prop :=
  exists prefix, msg = prefix ++ num_to_string (rs_status res) ++ lit " " ++ rs_text res.

(** The request was cut short by the refusal of a mandatory call at [ep],
    which is the last thing it did. *)
Definition Aborted (w : world) (st : run_state) (msg : jsstring) (ep : endpoint) : Prop :=
  exists pre rq res,
    st_trace st = pre ++ [EvFetch rq] /\ forallb (clean w) pre = true
    /\ rq_endpoint rq = ep /\ mandatory ep = true
    /\ http w rq = Some res /\ rs_ok res = false /\ embeds msg res.

Definition QeAbort (w : world) (e : jsstring) (st : run_state) : Prop :=
  Clean w st \/ exists ep, Aborted w st e ep /\ endpoint_eqb ep CuGetTask = false.

Definition QnClickUp (w : world) (rep : reply) (st : run_state) : Prop :=
  Clean w st \/ exists msg, Aborted w st msg CuGetTask /\ rep = err msg 502.

Definition QnV1 (w : world) (s : store) (rep : reply) (st : run_state) : Prop :=
  Clean w st
  \/ exists msg ep, Aborted w st msg ep /\ rep = V1.text_reply msg 502 /\ st_store st = s.

(** The record carries the first-seen time of the record that [s] holds
    under the key, and one occurrence more. *)
Definition carried (s : store) (key : jsstring) (rec : StateRecord) : Prop :=
  forall prior, states s !! key = Some prior ->
    first_seen rec = first_seen prior /\ count rec = count prior + 1.

Definition Puts (s : store) (st : run_state) : Prop :=
  forall key rec ttl, In (EvPut key rec ttl) (st_trace st) -> carried s key rec.

(** The same for the first worker, whose [state.count || 1] reads a zero
    count as one. *)
Definition carried1 (s : store) (key : jsstring) (rec : StateRecord) : Prop :=
  forall prior, states s !! key = Some prior -> count prior <> 0 ->
    first_seen rec = first_seen prior /\ count rec = count prior + 1.

Definition Puts1 (s : store) (st : run_state) : Prop :=
  forall key rec ttl, In (EvPut key rec ttl) (st_trace st) -> carried1 s key rec.

(** The request has written a record under [key], and the store now holds
    it there: it carries the first-seen time of [prior] and one occurrence
    more. *)
Definition Recorded (key : jsstring) (prior : StateRecord) (st : run_state) : Prop :=
  exists rec,
    In (EvPut key rec ttl90) (st_trace st)
    /\ states (st_store st) !! key = Some rec
    /\ first_seen rec = first_seen prior /\ count rec = count prior + 1.

(** Every record counts at least one occurrence. *)
Definition positive (s : store) : Prop :=
  forall key rec, states s !! key = Some rec -> 0 < count rec.

Definition Pos (st : run_state) : Prop := positive (st_store st).

(** The number of calls a request made at one call site. *)
Fixpoint fetches (ep : endpoint) (tr : list event) : nat :=
  match tr with
  | [] => 0
  | EvFetch rq :: tr' => (if endpoint_eqb (rq_endpoint rq) ep then 1 else 0) + fetches ep tr'
  | _ :: tr' => fetches ep tr'
  end.

(** The correlation-store writes of a request. *)
Fixpoint writes (tr : list event) : nat :=
  match tr with
  | [] => 0
  | EvPut _ _ _ :: tr' => S (writes tr')
  | EvPutStandards _ :: tr' => S (writes tr')
  | _ :: tr' => writes tr'
  end.

(** What a step adds: the store is kept and the creates are counted. *)
Definition adds (st st' : run_state) (cu gh : nat) : Prop :=
  st_store st' = st_store st
  /\ fetches CuCreateTask (st_trace st') = (fetches CuCreateTask (st_trace st) + cu)%nat
  /\ fetches GhCreateIssue (st_trace st') = (fetches GhCreateIssue (st_trace st) + gh)%nat.

(** The guards of [handleSentry] that a correlated delivery passes, with
    the event it is normalised to. *)
Definition correlated (env : V2.Env) (req : inbound) (p : parsed_event) : Prop :=
  token_mismatch (V2.SENTRY_SHARED_TOKEN env) (in_token req) = false
  /\ jsstring_eqb (in_method req) (lit "POST") = true
  /\ jsstring_eqb (in_path req) (lit "/webhooks/sentry") = true
  /\ configured (V2.GITHUB_REPO env) = true
  /\ configured (V2.GITHUB_TOKEN env) = true
  /\ is_ping (json_or_empty req) = Some false
  /\ V2.parseSentry (json_or_empty req) = Normal p
  /\ truthy (sentryIssueId p) = true.

(** The same for the first worker. *)
Definition correlated1 (env : V1.Env) (req : inbound) (f : V1.fields) : Prop :=
  token_mismatch (V1.SENTRY_SHARED_TOKEN env) (in_token req) = false
  /\ jsstring_eqb (in_method req) (lit "POST") = true
  /\ jsstring_eqb (in_path req) (lit "/webhooks/sentry") = true
  /\ is_ping (json_or_empty req) = Some false
  /\ configured (V1.GITHUB_REPO env) = true
  /\ configured (V1.GITHUB_TOKEN env) = true
  /\ V1.STATE env = true
  /\ V1.owner_repo (env_or (V1.GITHUB_REPO env) []) <> None
  /\ V1.normalize (json_or_empty req) = Normal f
  /\ truthy (V1.f_issue_id f) = true.

Definition key1 (f : V1.fields) : jsstring :=
  groupKey (V1.f_project f) (V1.f_environment f) (V1.f_issue_id f).

(** The ticket stores name what they create. *)
Definition ids_returned (w : world) : Prop :=
  forall rq res v, http w rq = Some res -> rs_json res = Some v ->
    (rq_endpoint rq = CuCreateTask -> truthy (prop v "id") = true)
    /\ (rq_endpoint rq = GhCreateIssue -> truthy (prop v "number") = true).

(** Two worlds that differ at most in how the comment calls are answered
    (both answer them). *)
Definition agree (w w' : world) : Prop :=
  (forall n, clock w n = clock w' n)
  /\ forall rq,
       if is_comment (rq_endpoint rq)
       then http w rq <> None /\ http w' rq <> None
       else http w rq = http w' rq.

(** Two states of a request that differ at most in the log. *)
Definition sim (st st' : run_state) : Prop :=
  st_store st = st_store st' /\ st_trace st = st_trace st' /\ st_ticks st = st_ticks st'.

Definition rel {A} (m m' : M A) : Prop :=
  forall st st', sim st st' ->
    fst (m st) = fst (m' st') /\ sim (snd (m st)) (snd (m' st')).

(* ===================================================================== *)
(** ** Scenarios *)
(* ===================================================================== *)

Module Scenario.

Definition T0 : jsstring := lit "2024-01-01T00:00:00.000Z".
Definition T1 : jsstring := lit "2024-01-02T00:00:00.000Z".

(** [{project: "api", environment: "prod", issue: {id: "42", title: "NullPointer"}}] *)
Definition payload0 : jsval :=
  VObj [(lit "project", VStr (lit "api"));
        (lit "environment", VStr (lit "prod"));
        (lit "issue", VObj [(lit "id", VStr (lit "42"));
                            (lit "title", VStr (lit "NullPointer"))])].

Definition req0 : inbound :=
  mkInbound (lit "POST") (lit "/webhooks/sentry") None (Some payload0).

(** What [parseSentry] makes of [payload0]. *)
Definition ev0 : parsed_event :=
  {| projectSlug := VStr (lit "api");
     environment := VStr (lit "prod");
     sentryIssueId := VStr (lit "42");
     title := VStr (lit "NullPointer");
     permalink := VStr [];
     level := VUndef;
     culprit := VUndef;
     message := VStr [];
     frames := [] |}.

Definition gk0 : jsstring := lit "api:prod:42".

(** What the first worker makes of [payload0]. *)
Definition fields0 : V1.fields :=
  {| V1.f_project := VStr (lit "api");
     V1.f_environment := VStr (lit "prod");
     V1.f_issue_id := VStr (lit "42");
     V1.f_title := VStr (lit "NullPointer");
     V1.f_permalink := VStr (lit "(no Sentry link)");
     V1.f_frames_block := [];
     V1.f_level_line := [];
     V1.f_culprit_line := [] |}.

(** The issue body that the first worker renders on the first occurrence. *)
Definition body0 : jsstring := V1.buildBody fields0 1 T0 T0.

(** [body0] after the update of the second occurrence: the new block is
    followed by the three lines of the old one. *)
Definition body0_updated : jsstring :=
  join nl
    [lit "## " ++ [55357; 56541]%N ++ lit " Summary";
     lit "New or repeated Sentry alert detected.";
     lit "## " ++ [55357; 56599]%N ++ lit " Links";
     lit "- **Sentry Issue:** (no Sentry link)";
     lit "## " ++ [55357; 56589]%N ++ lit " Key Details";
     lit "**Project:** api";
     V1.status_head;
     V1.occurrences_line 2;
     V1.first_seen_line T0;
     V1.last_seen_line T1;
     [];
     V1.occurrences_line 1;
     V1.first_seen_line T0;
     V1.last_seen_line T0;
     lit "> Raw payload omitted. Inspect in Sentry for full context."].

Definition env1 : V1.Env :=
  V1.mkEnv true (Some (lit "ghp_token")) (Some (lit "acme/api")) None.

(** GitHub and ClickUp configured, no summarisation service, and the
    GitHub issue opened with the first alert. *)
Definition env2 : V2.Env :=
  {| V2.SENTRY_SHARED_TOKEN := None;
     V2.CLICKUP_SHARED_TOKEN := None;
     V2.ADMIN_TOKEN := None;
     V2.GITHUB_TOKEN := Some (lit "ghp_token");
     V2.GITHUB_REPO := Some (lit "acme/api");
     V2.GITHUB_LABELS := None;
     V2.GITHUB_AGENT_LABEL := None;
     V2.GITHUB_ASSIGNEE := None;
     V2.CLICKUP_TOKEN := Some (lit "pk_token");
     V2.CLICKUP_LIST_ID := Some (lit "901");
     V2.CLICKUP_FIX_TAG := None;
     V2.GITHUB_MODEL_API_KEY := None;
     V2.GITHUB_MODEL_API_URL := None;
     V2.OPENAI_API_KEY := None;
     V2.OPENAI_BASE_URL := None;
     V2.OPENAI_MODEL := None;
     V2.CREATE_GITHUB_ON_SENTRY := Some (lit "true");
     V2.UPDATE_CLICKUP_ON_REPEAT := None;
     V2.LEVEL_LABELS_JSON := None |}.

(** [env2] without the GitHub target. *)
Definition env2_no_github : V2.Env :=
  {| V2.SENTRY_SHARED_TOKEN := None;
     V2.CLICKUP_SHARED_TOKEN := None;
     V2.ADMIN_TOKEN := None;
     V2.GITHUB_TOKEN := None;
     V2.GITHUB_REPO := None;
     V2.GITHUB_LABELS := None;
     V2.GITHUB_AGENT_LABEL := None;
     V2.GITHUB_ASSIGNEE := None;
     V2.CLICKUP_TOKEN := Some (lit "pk_token");
     V2.CLICKUP_LIST_ID := Some (lit "901");
     V2.CLICKUP_FIX_TAG := None;
     V2.GITHUB_MODEL_API_KEY := None;
     V2.GITHUB_MODEL_API_URL := None;
     V2.OPENAI_API_KEY := None;
     V2.OPENAI_BASE_URL := None;
     V2.OPENAI_MODEL := None;
     V2.CREATE_GITHUB_ON_SENTRY := None;
     V2.UPDATE_CLICKUP_ON_REPEAT := None;
     V2.LEVEL_LABELS_JSON := None |}.

Definition answer (st : Z) (v : jsval) : option response := Some (mkResponse st [] (Some v)).

(** The task description that the later worker renders for [ev0]. *)
Definition description0 : jsstring :=
  match V2.task_description gk0 ev0 VNull with
  | Normal d => d
  | Thrown _ => []
  end.

(** Every service answers with success; ClickUp names the task [t1] and
    returns [description0] for it, GitHub numbers the issue 7 and returns
    [body0] as its body. *)
Definition healthy (now : jsstring) : world :=
  {| http := fun rq =>
       match rq_endpoint rq with
       | CuCreateTask => answer 200 (VObj [(lit "id", VStr (lit "t1"))])
       | CuGetTask =>
           answer 200 (VObj [(lit "name", VStr (lit "[Sentry][prod] NullPointer"));
                             (lit "description", VStr description0)])
       | GhCreateIssue => answer 201 (VObj [(lit "number", VNum 7)])
       | GhGetIssue => answer 200 (VObj [(lit "body", VStr body0)])
       | _ => answer 200 (VObj [])
       end;
     clock := fun _ => now |}.

Definition world0 : world := healthy T0.
Definition world1 : world := healthy T1.

Definition refusal : option response := Some (mkResponse 500 (lit "boom") None).

(** [world0], but ClickUp refuses to create the task. *)
Definition create_refused : world :=
  {| http := fun rq =>
       match rq_endpoint rq with
       | CuCreateTask => refusal
       | _ => http world0 rq
       end;
     clock := clock world0 |}.

(** [world1], but ClickUp refuses every comment. *)
Definition comments_refused : world :=
  {| http := fun rq =>
       if is_comment (rq_endpoint rq) then refusal else http world1 rq;
     clock := clock world1 |}.

(** [world0], but the task has been edited and its token is gone. *)
Definition token_gone : world :=
  {| http := fun rq =>
       match rq_endpoint rq with
       | CuGetTask =>
           answer 200 (VObj [(lit "name", VStr (lit "[Sentry][prod] NullPointer"));
                             (lit "description", VStr (lit "rewritten by hand"))])
       | _ => http world0 rq
       end;
     clock := clock world0 |}.

(** An empty test ping. *)
Definition ping : inbound :=
  mkInbound (lit "POST") (lit "/webhooks/sentry") None (Some (VObj [])).

(** [{task: {id: "99", tags: ["ai-to-fix"]}}] *)
Definition tagged : inbound :=
  mkInbound (lit "POST") (lit "/webhooks/clickup") None
    (Some (VObj [(lit "task", VObj [(lit "id", VStr (lit "99"));
                                    (lit "tags", VArr [VStr (lit "ai-to-fix")])])])).

(** The same task without the trigger tag. *)
Definition untagged : inbound :=
  mkInbound (lit "POST") (lit "/webhooks/clickup") None
    (Some (VObj [(lit "task", VObj [(lit "id", VStr (lit "99"));
                                    (lit "tags", VArr [VStr (lit "backlog")])])])).

(** A record of one earlier occurrence. *)
Definition seen_once : StateRecord :=
  {| clickup_task_id := VStr (lit "t1");
     issue_number := VNum 7;
     count := 1;
     first_seen := T0 |}.

Definition store_seen_once : store := mkStore {[ gk0 := seen_once ]} None.

(** A summary that happens to quote a grouping-key token. *)
Definition forged_summary : jsval := VStr (lit "GroupKey: `x`").

(** Two events whose components differ and whose keys coincide. *)
Definition ev_a : parsed_event :=
  {| projectSlug := VStr (lit "a:b");
     environment := VStr (lit "c");
     sentryIssueId := VStr (lit "1");
     title := VStr (lit "NullPointer");
     permalink := VStr [];
     level := VUndef;
     culprit := VUndef;
     message := VStr [];
     frames := [] |}.

Definition ev_b : parsed_event :=
  {| projectSlug := VStr (lit "a");
     environment := VStr (lit "b:c");
     sentryIssueId := VStr (lit "1");
     title := VStr (lit "NullPointer");
     permalink := VStr [];
     level := VUndef;
     culprit := VUndef;
     message := VStr [];
     frames := [] |}.

(** The event of the scenario with the issue id given as the number 42. *)
Definition ev_numeric : parsed_event :=
  {| projectSlug := VStr (lit "api");
     environment := VStr (lit "prod");
     sentryIssueId := VNum 42;
     title := VStr (lit "NullPointer");
     permalink := VStr [];
     level := VUndef;
     culprit := VUndef;
     message := VStr [];
     frames := [] |}.

(** The same issue of the same project in another environment. *)
Definition ev_staging : parsed_event :=
  {| projectSlug := VStr (lit "api");
     environment := VStr (lit "staging");
     sentryIssueId := VStr (lit "42");
     title := VStr (lit "NullPointer");
     permalink := VStr [];
     level := VUndef;
     culprit := VUndef;
     message := VStr [];
     frames := [] |}.

(** The scenario delivered twice to the later worker, and to the first
    worker, starting from an empty store. *)
Definition run1 : completion reply * run_state :=
  V2.handleSentry world0 env2 req0 (start empty_store).
Definition run2 : completion reply * run_state :=
  V2.handleSentry world1 env2 req0 (start (st_store (snd run1))).

Definition first_run1 : completion reply * run_state :=
  V1.fetch_handler world0 env1 req0 (start empty_store).
Definition first_run2 : completion reply * run_state :=
  V1.fetch_handler world1 env1 req0 (start (st_store (snd first_run1))).

(** The update that the first worker sends to GitHub for the second
    occurrence. *)
Definition patch0 : request :=
  mkRequest GhPatchIssue (lit "PATCH") (lit "https://api.github.com/repos/acme/api/issues/7")
    (VObj [(lit "body", VStr body0_updated)]).

Definition created_reply : reply := ok (lit "ClickUp task t1 created (occurrence 1).") 201.
Definition updated_reply : reply := ok (lit "ClickUp task t1 updated (occurrence 2).") 200.

End Scenario.

(* ===================================================================== *)
(** ** Vocabulary of the further properties *)
(* ===================================================================== *)

(** The key under which the standards text lives in the namespace
    ([STANDARDS_KEY]). *)
Definition STANDARDS_KEY : jsstring := lit "STANDARDS:TEXT".

(** An environment name that a task name gives back: no closing bracket and
    no line terminator. *)
Definition plain_env (e : jsstring) : bool :=
  forallb (fun c => negb (N.eqb c V2.rbracket) && negb (is_line_terminator c)) e.

Definition no_space (s : jsstring) : bool := forallb (fun c => negb (is_space c)) s.

Definition no_slash (s : jsstring) : bool := forallb (fun c => negb (N.eqb c 47)) s.

(** The text holds no bar-chart emoji (its low surrogate), so the status
    heading does not start inside it. *)
Definition no_chart (s : jsstring) : bool := forallb (fun c => negb (N.eqb c 56522)) s.

(** The text stays on one line. *)
Definition one_line (s : jsstring) : bool :=
  forallb (fun c => negb (is_line_terminator c)) s.

(** A frame that [buildFramesMarkdown] can render: it is neither [null] nor
    [undefined], and what it holds under [module], [filename], [lineno] and
    [function] can be converted to a string. *)
Definition frame_renders (f : jsval) : bool :=
  negb (nullish f)
  && forallb printable
       [prop f "module"; prop f "filename"; prop f "lineno"; prop f "function"].

(** The request carries the administration token, which is set. *)
Definition admin_token_given (env : V2.Env) (req : inbound) : Prop :=
  exists tok, V2.ADMIN_TOKEN env = Some tok /\ tok <> [] /\ in_token req = Some tok.

(** Every step of the request so far satisfies [P]. *)
Definition Only (P : event -> bool) (st : run_state) : Prop :=
  forallb P (st_trace st) = true.

(** A record is written to expire after ninety days. *)
Definition expires_in_90_days (e : event) : bool :=
  match e with
  | EvPut _ _ ttl => Z.eqb ttl 7776000
  | _ => true
  end.

(** The step leaves what the namespace holds under the key of the
    standards text as it is, and takes nothing found there for a record: it
    does not replace the text, and it neither reads nor writes a record
    under that key.  (Reading the text itself, as [getStandards] does, is
    such a step.) *)
Definition spares_standards (e : event) : bool :=
  match e with
  | EvGet k | EvPut k _ _ => negb (jsstring_eqb k STANDARDS_KEY)
  | EvPutStandards _ => false
  | _ => true
  end.

(** The step does not touch the key of the standards text at all: it does
    not read the text either. *)
Definition avoids_standards (e : event) : bool :=
  match e with
  | EvGetStandards => false
  | _ => spares_standards e
  end.

(** The step is no outbound call, or a call at one of the sites [ok]. *)
Definition calls (ok : endpoint -> bool) (e : event) : bool :=
  match e with
  | EvFetch rq => ok (rq_endpoint rq)
  | _ => true
  end.

Definition is_clickup (e : endpoint) : bool :=
  match e with CuCreateTask | CuComment | CuAddComment | CuGetTask => true | _ => false end.

Definition is_github (e : endpoint) : bool :=
  match e with GhCreateIssue | GhPatchIssue | GhGetIssue => true | _ => false end.

(** The call sites that the configuration opens to the summarisation, to
    the task create-or-update, to the cross-reference comment, to the issue
    create-or-update, to a whole delivery and to a whole escalation. *)
Definition ai_sites (env : V2.Env) (ep : endpoint) : bool :=
  match ep with
  | AiGithubModels => configured (V2.GITHUB_MODEL_API_KEY env)
  | AiOpenAI => configured (V2.OPENAI_API_KEY env)
  | _ => false
  end.

Definition cu_sites (env : V2.Env) (ep : endpoint) : bool :=
  match ep with
  | CuCreateTask => configured (V2.CLICKUP_TOKEN env) && configured (V2.CLICKUP_LIST_ID env)
  | CuComment =>
      configured (V2.CLICKUP_TOKEN env) && configured (V2.CLICKUP_LIST_ID env)
      && env_bool (V2.UPDATE_CLICKUP_ON_REPEAT env) true
  | _ => false
  end.

Definition comment_sites (env : V2.Env) (ep : endpoint) : bool :=
  match ep with
  | CuAddComment => configured (V2.CLICKUP_TOKEN env)
  | _ => false
  end.

Definition issue_sites (ep : endpoint) : bool :=
  match ep with GhCreateIssue | GhPatchIssue => true | _ => false end.

Definition sentry_sites (env : V2.Env) (ep : endpoint) : bool :=
  ai_sites env ep || cu_sites env ep
  || (env_bool (V2.CREATE_GITHUB_ON_SENTRY env) false
      && (issue_sites ep || comment_sites env ep)).

Definition escalation_sites (env : V2.Env) (ep : endpoint) : bool :=
  match ep with
  | CuGetTask => configured (V2.CLICKUP_TOKEN env)
  | _ => issue_sites ep || comment_sites env ep
  end.

Definition is_patch (ep : endpoint) : bool := endpoint_eqb ep GhPatchIssue.
Definition is_repeat_comment (ep : endpoint) : bool := endpoint_eqb ep CuComment.
Definition no_issue_create (ep : endpoint) : bool := negb (endpoint_eqb ep GhCreateIssue).
Definition no_task_create (ep : endpoint) : bool := negb (endpoint_eqb ep CuCreateTask).

(** Every record written so far satisfies [R]. *)
Definition Written (R : jsstring -> StateRecord -> Prop) (st : run_state) : Prop :=
  forall key rec ttl, In (EvPut key rec ttl) (st_trace st) -> R key rec.

(** The record of a first occurrence: one occurrence, first seen when the
    request read the clock for the first time. *)
Definition first_of (w : world) (s : store) (key : jsstring) (rec : StateRecord) : Prop :=
  states s !! key = None -> count rec = 1 /\ first_seen rec = clock w 0.

(** The record that an escalation writes back: the occurrence count and the
    first-seen time of the record it read, and its issue number if it had
    one. *)
Definition escalated (s : store) (key : jsstring) (rec : StateRecord) : Prop :=
  forall prior, states s !! key = Some prior ->
    count rec = count prior /\ first_seen rec = first_seen prior
    /\ (truthy (issue_number prior) = true -> issue_number rec = issue_number prior).

(** The request has read the store under [gk] only, and has created no
    issue if [A] holds and no task if [B] holds. *)
Definition Tracked (gk : jsstring) (A B : Prop) (st : run_state) : Prop :=
  (forall key, In (EvGet key) (st_trace st) -> key = gk)
  /\ (A -> fetches GhCreateIssue (st_trace st) = 0%nat)
  /\ (B -> fetches CuCreateTask (st_trace st) = 0%nat).

(** The stores that requests lead to, one after the other, from the empty
    namespace: a request to the later worker's router or to the first
    worker, in any world, or the expiry of a record. *)
Inductive reachable : store -> Prop :=
  | reach_empty : reachable empty_store
  | reach_later w env req s :
      reachable s -> reachable (st_store (snd (V2.fetch_handler w env req (start s))))
  | reach_first w env req s :
      reachable s -> reachable (st_store (snd (V1.fetch_handler w env req (start s))))
  | reach_expiry key s :
      reachable s -> reachable (mkStore (delete key (states s)) (standards s)).

(* ===================================================================== *)
(** ** Further scenarios *)
(* ===================================================================== *)

Module Cases.

(** A configuration of the later worker with the GitHub target set, and
    the rest as given. *)
Definition env_with (admin clickup_token clickup_list models_key openai_key
                     create_github update_on_repeat : option jsstring) : V2.Env :=
  {| V2.SENTRY_SHARED_TOKEN := None;
     V2.CLICKUP_SHARED_TOKEN := None;
     V2.ADMIN_TOKEN := admin;
     V2.GITHUB_TOKEN := Some (lit "ghp_token");
     V2.GITHUB_REPO := Some (lit "acme/api");
     V2.GITHUB_LABELS := None;
     V2.GITHUB_AGENT_LABEL := None;
     V2.GITHUB_ASSIGNEE := None;
     V2.CLICKUP_TOKEN := clickup_token;
     V2.CLICKUP_LIST_ID := clickup_list;
     V2.CLICKUP_FIX_TAG := None;
     V2.GITHUB_MODEL_API_KEY := models_key;
     V2.GITHUB_MODEL_API_URL := None;
     V2.OPENAI_API_KEY := openai_key;
     V2.OPENAI_BASE_URL := None;
     V2.OPENAI_MODEL := None;
     V2.CREATE_GITHUB_ON_SENTRY := create_github;
     V2.UPDATE_CLICKUP_ON_REPEAT := update_on_repeat;
     V2.LEVEL_LABELS_JSON := None |}.

(** GitHub alone. *)
Definition github_only : V2.Env := env_with None None None None None None None.

(** GitHub and ClickUp, the issue left to the escalation. *)
Definition tasks_only : V2.Env :=
  env_with None (Some (lit "pk_token")) (Some (lit "901")) None None None None.

(** [Scenario.env2] without the repeat-occurrence comment. *)
Definition quiet : V2.Env :=
  env_with None (Some (lit "pk_token")) (Some (lit "901")) None None
    (Some (lit "true")) (Some (lit "false")).

(** Both summarisation services. *)
Definition both_summaries : V2.Env :=
  env_with None (Some (lit "pk_token")) (Some (lit "901")) (Some (lit "ghm_key"))
    (Some (lit "sk_key")) None None.

(** The administration token set. *)
Definition administered : V2.Env :=
  env_with (Some (lit "s3cret")) None None None None None None.

(** [Scenario.world0] with GitHub Models out of service. *)
Definition models_down : world :=
  {| http := fun rq =>
       match rq_endpoint rq with
       | AiGithubModels => Some (mkResponse 503 (lit "unavailable") None)
       | _ => http Scenario.world0 rq
       end;
     clock := clock Scenario.world0 |}.

(** The event of the scenario with a link to Sentry. *)
Definition ev_linked : parsed_event :=
  {| projectSlug := VStr (lit "api");
     environment := VStr (lit "prod");
     sentryIssueId := VStr (lit "42");
     title := VStr (lit "NullPointer");
     permalink := VStr (lit "https://sentry.io/issues/42");
     level := VUndef;
     culprit := VUndef;
     message := VStr [];
     frames := [] |}.

(** [Scenario.body0] in front of the status heading and behind it. *)
Definition lead0 : jsstring :=
  join nl
    [lit "## " ++ [55357; 56541]%N ++ lit " Summary";
     lit "New or repeated Sentry alert detected.";
     lit "## " ++ [55357; 56599]%N ++ lit " Links";
     lit "- **Sentry Issue:** (no Sentry link)";
     lit "## " ++ [55357; 56589]%N ++ lit " Key Details";
     lit "**Project:** api";
     []].

Definition rest0 : jsstring :=
  join nl
    [[];
     V1.occurrences_line 1;
     V1.first_seen_line Scenario.T0;
     V1.last_seen_line Scenario.T0;
     lit "> Raw payload omitted. Inspect in Sentry for full context."].

(** [{project: "api", environment: "prod", title: "NullPointer"}]: an alert
    that names no issue. *)
Definition no_issue_id : inbound :=
  mkInbound (lit "POST") (lit "/webhooks/sentry") None
    (Some (VObj [(lit "project", VStr (lit "api"));
                 (lit "environment", VStr (lit "prod"));
                 (lit "title", VStr (lit "NullPointer"))])).

(** What [parseSentry] makes of it. *)
Definition ev_no_issue_id : parsed_event :=
  {| projectSlug := VStr (lit "api");
     environment := VStr (lit "prod");
     sentryIssueId := VNull;
     title := VStr (lit "NullPointer");
     permalink := VStr [];
     level := VUndef;
     culprit := VUndef;
     message := VStr [];
     frames := [] |}.

(** [Scenario.payload0] with a stack trace whose only frame is [null]. *)
Definition null_frame : inbound :=
  mkInbound (lit "POST") (lit "/webhooks/sentry") None
    (Some (VObj [(lit "project", VStr (lit "api"));
                 (lit "environment", VStr (lit "prod"));
                 (lit "issue", VObj [(lit "id", VStr (lit "42"));
                                     (lit "title", VStr (lit "NullPointer"))]);
                 (lit "exception",
                  VObj [(lit "values",
                         VArr [VObj [(lit "stacktrace",
                                      VObj [(lit "frames", VArr [VNull])])]])])])).

Definition ev_null_frame : parsed_event :=
  {| projectSlug := VStr (lit "api");
     environment := VStr (lit "prod");
     sentryIssueId := VStr (lit "42");
     title := VStr (lit "NullPointer");
     permalink := VStr [];
     level := VUndef;
     culprit := VUndef;
     message := VStr [];
     frames := [VNull] |}.

(** [PUT /admin/standards?token=s3cret] with [{text: "Use early returns."}],
    and the [GET] that reads it back. *)
Definition put_standards : inbound :=
  mkInbound (lit "PUT") (lit "/admin/standards") (Some (lit "s3cret"))
    (Some (VObj [(lit "text", VStr (lit "Use early returns."))])).

Definition get_standards : inbound :=
  mkInbound (lit "GET") (lit "/admin/standards") (Some (lit "s3cret")) None.

End Cases.

(* ===================================================================== *)
(** * Properties *)
(* ===================================================================== *)

(** String literals stay folded in the proofs below; where a literal has to
    be read, [vm_compute] reads it. *)
Opaque lit.

Lemma Normal_inj {A} (a b : A) : Normal a = Normal b -> a = b.
Proof. intros H. injection H as H. exact H. Qed.

(* --------------------------------------------------------------------- *)
(** ** The grouping key *)
(* --------------------------------------------------------------------- *)

Lemma colon_unfold : colon = [58%N].
Proof. vm_compute. reflexivity. Qed.

Lemma no_colon_cons c s : no_colon (c :: s) = true -> c <> 58%N /\ no_colon s = true.
Proof.
  unfold no_colon; simpl. intros H. apply andb_prop in H as [H1 H2].
  split; [|exact H2]. apply negb_true_iff, N.eqb_neq in H1. exact H1.
Qed.

(** A head free of the separator is determined by the whole. *)
Lemma split_at_first_colon (a a' r r' : jsstring) :
  no_colon a = true -> no_colon a' = true ->
  a ++ 58%N :: r = a' ++ 58%N :: r' -> a = a' /\ r = r'.
Proof.
  revert a'. induction a as [|x a IH]; intros [|y a'] Ha Ha' E; simpl in E.
  - injection E as ->. auto.
  - apply no_colon_cons in Ha' as [Hy _]. injection E as E _. congruence.
  - apply no_colon_cons in Ha as [Hx _]. injection E as E _. congruence.
  - apply no_colon_cons in Ha as [_ Ha]. apply no_colon_cons in Ha' as [_ Ha'].
    injection E as -> E. destruct (IH a' Ha Ha' E) as [-> ->]. auto.
Qed.

Lemma no_colon_rev s : no_colon s = true -> no_colon (rev s) = true.
Proof.
  unfold no_colon. rewrite !forallb_forall. intros H x Hx. apply H. apply in_rev. exact Hx.
Qed.

(** So is a tail free of the separator. *)
Lemma split_at_last_colon (a a' r r' : jsstring) :
  no_colon r = true -> no_colon r' = true ->
  a ++ 58%N :: r = a' ++ 58%N :: r' -> a = a' /\ r = r'.
Proof.
  intros Hr Hr' E. apply (f_equal (@rev jschar)) in E.
  rewrite !rev_app_distr in E. simpl in E. rewrite <- !app_assoc in E. simpl in E.
  apply split_at_first_colon in E; auto using no_colon_rev.
  destruct E as [E1 E2]. apply (f_equal (@rev jschar)) in E1, E2.
  rewrite !rev_involutive in E1, E2. auto.
Qed.

(** The key is the three texts joined by colons: it separates two triples
    that differ in one text only, and any two triples whose first and last
    texts hold no colon. *)
Lemma rendered_keys_separate (P1 E1 I1 P2 E2 I2 : jsstring) :
  ((P1 <> P2 /\ E1 = E2 /\ I1 = I2) \/ (P1 = P2 /\ E1 <> E2 /\ I1 = I2)
   \/ (P1 = P2 /\ E1 = E2 /\ I1 <> I2) ->
   P1 ++ colon ++ E1 ++ colon ++ I1 <> P2 ++ colon ++ E2 ++ colon ++ I2)
  /\ (no_colon P1 = true -> no_colon P2 = true -> no_colon I1 = true -> no_colon I2 = true ->
      (P1, E1, I1) <> (P2, E2, I2) ->
      P1 ++ colon ++ E1 ++ colon ++ I1 <> P2 ++ colon ++ E2 ++ colon ++ I2).
Proof.
  rewrite colon_unfold. simpl. split.
  - intros [(Hp & <- & <-) | [(<- & He & <-) | (<- & <- & Hi)]] K.
    + apply Hp. apply (app_inv_tail (58%N :: E1 ++ 58%N :: I1)). exact K.
    + apply app_inv_head in K. injection K as K.
      apply He. apply (app_inv_tail (58%N :: I1)). exact K.
    + apply app_inv_head in K. injection K as K. apply app_inv_head in K.
      injection K as K. auto.
  - intros Hp1 Hp2 Hi1 Hi2 Hne K. apply Hne.
    apply split_at_first_colon in K as [-> K]; auto.
    apply split_at_last_colon in K as [-> ->]; auto.
Qed.

(** C2 (as amended).  Two normalised events with equal project, environment
    and issue id have the same grouping key.  For two events whose project,
    environment and issue id are strings, the keys differ when the events
    differ in exactly one of the three components, and also whenever they
    differ in any component and neither project nor issue id contains the
    separator [:]. *)
Theorem groupKey_separates (ev1 ev2 : parsed_event) (P1 E1 I1 P2 E2 I2 : jsstring) :
  (projectSlug ev1 = projectSlug ev2 -> environment ev1 = environment ev2 ->
   sentryIssueId ev1 = sentryIssueId ev2 -> groupKeyFrom ev1 = groupKeyFrom ev2)
  /\ (projectSlug ev1 = VStr P1 -> environment ev1 = VStr E1 -> sentryIssueId ev1 = VStr I1 ->
      projectSlug ev2 = VStr P2 -> environment ev2 = VStr E2 -> sentryIssueId ev2 = VStr I2 ->
      ((projectSlug ev1 <> projectSlug ev2 /\ environment ev1 = environment ev2
        /\ sentryIssueId ev1 = sentryIssueId ev2)
       \/ (projectSlug ev1 = projectSlug ev2 /\ environment ev1 <> environment ev2
           /\ sentryIssueId ev1 = sentryIssueId ev2)
       \/ (projectSlug ev1 = projectSlug ev2 /\ environment ev1 = environment ev2
           /\ sentryIssueId ev1 <> sentryIssueId ev2) ->
       groupKeyFrom ev1 <> groupKeyFrom ev2)
      /\ (no_colon P1 = true -> no_colon P2 = true ->
          no_colon I1 = true -> no_colon I2 = true ->
          (projectSlug ev1, environment ev1, sentryIssueId ev1)
          <> (projectSlug ev2, environment ev2, sentryIssueId ev2) ->
          groupKeyFrom ev1 <> groupKeyFrom ev2)).
Proof.
  split.
  - unfold groupKeyFrom. intros -> -> ->. reflexivity.
  - intros Hp1 He1 Hi1 Hp2 He2 Hi2. unfold groupKeyFrom, groupKey.
    rewrite Hp1, He1, Hi1, Hp2, He2, Hi2. cbn [js_to_string].
    destruct (rendered_keys_separate P1 E1 I1 P2 E2 I2) as [Hone Hany]. split.
    + intros H. apply Hone.
      destruct H as [(Hp & He & Hi) | [(Hp & He & Hi) | (Hp & He & Hi)]].
      * left. split; [congruence | split; congruence].
      * right; left. split; [congruence | split; congruence].
      * right; right. split; [congruence | split; congruence].
    + intros C1 C2 C3 C4 Hne. apply Hany; auto. congruence.
Qed.

(** The keys of the same issue in [prod] and in [staging] differ. *)
Lemma groupKey_separates_witness :
  environment Scenario.ev0 <> environment Scenario.ev_staging
  /\ groupKeyFrom Scenario.ev0 <> groupKeyFrom Scenario.ev_staging.
Proof.
  assert (H : environment Scenario.ev0 <> environment Scenario.ev_staging)
    by (vm_compute; discriminate).
  split; [exact H|].
  apply (proj1 (proj2 (groupKey_separates Scenario.ev0 Scenario.ev_staging
                         (lit "api") (lit "prod") (lit "42")
                         (lit "api") (lit "staging") (lit "42"))
                  eq_refl eq_refl eq_refl eq_refl eq_refl eq_refl)).
  right; left. split; [reflexivity | split; [exact H | reflexivity]].
Defined.

(** C2, as first stated, fails: a colon inside a component moves the
    boundary, so ["a:b", "c", "1"] and ["a", "b:c", "1"] share a key; and a
    component that is no string enters the key as its text, so the issue
    ids [42] and ["42"] share a key as well. *)
Lemma groupKey_collision :
  ~ (forall ev1 ev2 : parsed_event,
       (projectSlug ev1 <> projectSlug ev2 \/ environment ev1 <> environment ev2
        \/ sentryIssueId ev1 <> sentryIssueId ev2) ->
       groupKeyFrom ev1 <> groupKeyFrom ev2)
  /\ (sentryIssueId Scenario.ev0 <> sentryIssueId Scenario.ev_numeric
      /\ groupKeyFrom Scenario.ev0 = groupKeyFrom Scenario.ev_numeric).
Proof.
  split.
  - intros H. apply (H Scenario.ev_a Scenario.ev_b).
    + left. vm_compute. discriminate.
    + vm_compute. reflexivity.
  - split; [vm_compute; discriminate | vm_compute; reflexivity].
Qed.

(* --------------------------------------------------------------------- *)
(** ** The status block of the first worker *)
(* --------------------------------------------------------------------- *)

(** Under the [m] flag the [$] of the last alternative already holds in
    front of the newline that ends the heading, so the lazy run takes
    nothing: when a line of the block follows the heading, the pattern
    matches the heading alone. *)
Lemma statusRegex_heading_only rest :
  V1.statusRegex_at (V1.status_head ++ nl ++ lit "**" ++ rest) = Some V1.status_head.
Proof. vm_compute. reflexivity. Qed.

(** Without a match the body is rebuilt from the template (the values
    rendered being convertible). *)
Lemma updatedBody_fallback f b n fs now :
  printable b = true -> printable (V1.f_permalink f) = true ->
  printable (V1.f_project f) = true ->
  V1.regex_test V1.statusRegex_at (js_to_string b) = false ->
  V1.updatedBody f b n fs now = Normal (V1.buildBody f n fs now).
Proof. unfold V1.updatedBody. intros -> -> -> ->. reflexivity. Qed.

(** C4.  The body rendered for a first occurrence holds a status block
    with occurrences=1 and the pattern matches it; the update for the second
    occurrence puts the new block in front of the three lines of the old
    one, which stay in the body, and this is the body that the second
    delivery sends to GitHub. *)
Theorem status_block_left_in_place :
  V1.regex_test V1.statusRegex_at Scenario.body0 = true
  /\ V1.updatedBody Scenario.fields0 (VStr Scenario.body0) 2 Scenario.T0 Scenario.T1
     = Normal Scenario.body0_updated
  /\ includes (V1.occurrences_line 1) Scenario.body0_updated = true
  /\ (length Scenario.body0 < length Scenario.body0_updated)%nat
  /\ nth_error (st_trace (snd Scenario.first_run2)) 2 = Some (EvFetch Scenario.patch0).
Proof.
  repeat split; try (vm_compute; reflexivity).
  apply Nat.ltb_lt. vm_compute. reflexivity.
Qed.

(* --------------------------------------------------------------------- *)
(** ** The grouping-key token of a task description *)
(* --------------------------------------------------------------------- *)

Lemma search_step {A} (f : jsstring -> option A) c s :
  search f (c :: s) = match f (c :: s) with Some a => Some a | None => search f s end.
Proof. reflexivity. Qed.

Lemma starts_with_ci_straddle pat l r0 rest :
  starts_with_ci pat l = false ->
  (forall x, In x pat -> lower_char x <> lower_char r0) ->
  starts_with_ci pat (l ++ r0 :: rest) = false.
Proof.
  revert l. induction pat as [|x pat IH]; intros l H Hno; simpl in *.
  - discriminate.
  - destruct l as [|y l]; simpl.
    + assert (Hx : lower_char x <> lower_char r0) by (apply Hno; auto).
      apply N.eqb_neq in Hx. rewrite Hx. reflexivity.
    + simpl in H. destruct (N.eqb (lower_char x) (lower_char y)); simpl in *; auto.
Qed.

Lemma group_key_at_none s :
  starts_with_ci (lit "GroupKey:") s = false -> V2.group_key_at s = None.
Proof. unfold V2.group_key_at. intros ->. reflexivity. Qed.

(** The search passes over a text that holds no [GroupKey:]. *)
Lemma search_group_key_skip lead r0 rest :
  includes_ci (lit "GroupKey:") lead = false ->
  (forall x, In x (lit "GroupKey:") -> lower_char x <> lower_char r0) ->
  search V2.group_key_at (lead ++ r0 :: rest) = search V2.group_key_at (r0 :: rest).
Proof.
  intros H Hno. induction lead as [|c lead IH].
  - reflexivity.
  - change (includes_ci (lit "GroupKey:") (c :: lead))
      with (starts_with_ci (lit "GroupKey:") (c :: lead) || includes_ci (lit "GroupKey:") lead) in H.
    apply orb_false_elim in H as [H1 H2].
    change ((c :: lead) ++ r0 :: rest) with (c :: (lead ++ r0 :: rest)).
    rewrite search_step, (group_key_at_none (c :: lead ++ r0 :: rest)).
    + apply IH. exact H2.
    + apply (starts_with_ci_straddle _ (c :: lead)); assumption.
Qed.

Lemma take_while_no_backtick gk rest :
  no_backtick gk = true ->
  take_while V2.not_backtick (gk ++ V2.backtick :: rest) = gk.
Proof.
  unfold no_backtick. induction gk as [|c gk IH]; simpl; intros H.
  - reflexivity.
  - apply andb_prop in H as [H1 H2]. rewrite H1. f_equal. apply IH. exact H2.
Qed.

(** The token line alone gives its key back. *)
Lemma group_key_line_search gk :
  gk <> [] -> no_backtick gk = true ->
  search V2.group_key_at (V2.group_key_line gk) = Some gk.
Proof.
  intros Hne Hnb. unfold V2.group_key_line.
  assert (E : lit "> GroupKey: `" ++ gk ++ lit "`"
              = 62%N :: 32%N :: (lit "GroupKey:" ++ 32%N :: V2.backtick :: gk ++ [V2.backtick]))
    by (vm_compute; reflexivity).
  rewrite E; clear E.
  rewrite (search_step V2.group_key_at 62%N), group_key_at_none by (vm_compute; reflexivity).
  rewrite (search_step V2.group_key_at 32%N), group_key_at_none by (vm_compute; reflexivity).
  assert (G : V2.group_key_at (lit "GroupKey:" ++ 32%N :: V2.backtick :: gk ++ [V2.backtick])
              = Some gk).
  { unfold V2.group_key_at.
    replace (starts_with_ci (lit "GroupKey:")
               (lit "GroupKey:" ++ 32%N :: V2.backtick :: gk ++ [V2.backtick]))
      with true by (vm_compute; reflexivity).
    replace (skipn 9 (lit "GroupKey:" ++ 32%N :: V2.backtick :: gk ++ [V2.backtick]))
      with (32%N :: V2.backtick :: gk ++ [V2.backtick]) by (vm_compute; reflexivity).
    replace (drop_while is_space (32%N :: V2.backtick :: gk ++ [V2.backtick]))
      with (V2.backtick :: gk ++ [V2.backtick]) by (vm_compute; reflexivity).
    replace (N.eqb V2.backtick V2.backtick) with true by (vm_compute; reflexivity).
    cbv zeta. rewrite take_while_no_backtick by exact Hnb.
    destruct gk as [|c g]; [congruence|].
    rewrite skipn_app, skipn_all, Nat.sub_diag. reflexivity. }
  destruct (lit "GroupKey:" ++ 32%N :: V2.backtick :: gk ++ [V2.backtick]) eqn:El.
  - discriminate G.
  - rewrite search_step, G. reflexivity.
Qed.

Lemma join_last sep (xs : list jsstring) x :
  xs <> [] -> join sep (xs ++ [x]) = (join sep xs ++ sep) ++ x.
Proof.
  induction xs as [|y xs IH]; [congruence|]. intros _.
  destruct xs as [|z xs].
  - simpl. rewrite <- app_assoc. reflexivity.
  - change (join sep ((y :: z :: xs) ++ [x])) with (y ++ sep ++ join sep ((z :: xs) ++ [x])).
    rewrite IH by discriminate.
    change (join sep (y :: z :: xs)) with (y ++ sep ++ join sep (z :: xs)).
    rewrite <- !app_assoc. reflexivity.
Qed.

(** A task description ends with the token line. *)
Lemma task_description_shape gk p aiMd d :
  V2.task_description gk p aiMd = Normal d ->
  exists lead, d = lead ++ V2.group_key_line gk.
Proof.
  unfold V2.task_description.
  destruct (negb (forallb printable _)); [discriminate|].
  destruct (V2.buildFramesMarkdown (frames p)) as [fm|e]; [|discriminate].
  intros H. apply Normal_inj in H. subst d.
  lazymatch goal with
  | |- exists lead, join nl [?a; ?b; ?c; ?d; ?e; ?f; ?g; ?h; ?i; ?j; ?k; ?l; ?m; ?z] = _ =>
      exists (join nl [a; b; c; d; e; f; g; h; i; j; k; l; m] ++ nl);
      apply (join_last nl [a; b; c; d; e; f; g; h; i; j; k; l; m] z); discriminate
  end.
Qed.

(** C5 (as amended).  A non-empty grouping key without a backtick is read
    back from the task description rendered with it, provided the text in
    front of the token line holds no [GroupKey:] in any letter case. *)
Theorem group_key_round_trip gk p aiMd d :
  gk <> [] -> no_backtick gk = true ->
  V2.task_description gk p aiMd = Normal d ->
  includes_ci (lit "GroupKey:") (before_token gk d) = false ->
  V2.extract_group_key d = Some gk.
Proof.
  intros Hne Hnb Hd Hlead. destruct (task_description_shape _ _ _ _ Hd) as [lead ->].
  unfold before_token in Hlead.
  rewrite length_app, Nat.add_sub, firstn_app, firstn_all, Nat.sub_diag, firstn_O, app_nil_r
    in Hlead.
  unfold V2.extract_group_key.
  pose proof (group_key_line_search gk Hne Hnb) as Hs.
  unfold V2.group_key_line in *.
  replace (lit "> GroupKey: `" ++ gk ++ lit "`")
    with (62%N :: (lit " GroupKey: `" ++ gk ++ lit "`")) in * by (vm_compute; reflexivity).
  rewrite search_group_key_skip; auto.
  intros x Hx. vm_compute in Hx. vm_compute.
  repeat (destruct Hx as [<- | Hx]; [discriminate|]). destruct Hx.
Qed.

(** The key [api:prod:42] is read back from the description of the
    scenario. *)
Lemma group_key_round_trip_witness :
  V2.task_description Scenario.gk0 Scenario.ev0 VNull = Normal Scenario.description0
  /\ V2.extract_group_key Scenario.description0 = Some Scenario.gk0.
Proof.
  split; [vm_compute; reflexivity|].
  apply (group_key_round_trip Scenario.gk0 Scenario.ev0 VNull Scenario.description0).
  - vm_compute. discriminate.
  - vm_compute. reflexivity.
  - vm_compute. reflexivity.
  - vm_compute. reflexivity.
Defined.

(** C5, as first stated, fails: the pattern takes the first token of the
    description, and a summary that quotes one comes before the real one. *)
Lemma group_key_shadowed :
  ~ (forall gk p aiMd d, no_backtick gk = true ->
       V2.task_description gk p aiMd = Normal d -> V2.extract_group_key d = Some gk).
Proof.
  intros H.
  specialize (H Scenario.gk0 Scenario.ev0 Scenario.forged_summary _ eq_refl eq_refl).
  vm_compute in H. discriminate H.
Qed.

(* --------------------------------------------------------------------- *)
(** ** The summary read back from a task description *)
(* --------------------------------------------------------------------- *)

Lemma split_go_none sep s cur :
  includes sep s = false -> split_go sep s 0 cur = [cur ++ s].
Proof.
  revert cur. induction s as [|c s IH]; intros cur H.
  - simpl. rewrite app_nil_r. reflexivity.
  - change (includes sep (c :: s)) with (starts_with sep (c :: s) || includes sep s) in H.
    apply orb_false_elim in H as [H1 H2].
    cbn [split_go]. rewrite H1. rewrite IH by exact H2.
    rewrite <- app_assoc. reflexivity.
Qed.

(** Without the separator, [split] leaves the text in one piece. *)
Lemma split_pop_none sep s : includes sep s = false -> split_pop sep s = s.
Proof. intros H. unfold split_pop, split. rewrite split_go_none by exact H. reflexivity. Qed.

Lemma drop_while_snoc f l c : f c = false -> drop_while f (l ++ [c]) <> [].
Proof.
  intros Hc. induction l as [|x l IH]; simpl.
  - rewrite Hc. discriminate.
  - destruct (f x); [exact IH | discriminate].
Qed.

(** Only white space trims to nothing. *)
Lemma trim_nil_all_space d : trim d = [] -> forallb is_space d = true.
Proof.
  unfold trim, trim_end, trim_start. intros H.
  assert (E : drop_while is_space d = []
              \/ exists c r, drop_while is_space d = c :: r /\ is_space c = false).
  { clear H. induction d as [|x d IH]; simpl; [auto|].
    destruct (is_space x) eqn:Ex; [exact IH | right; eauto]. }
  destruct E as [E | (c & r & E & Hc)].
  - clear H. induction d as [|x d IH]; simpl in *; [reflexivity|].
    destruct (is_space x); [auto | discriminate].
  - rewrite E in H. exfalso.
    apply (f_equal (@rev jschar)) in H. rewrite rev_involutive in H.
    change (rev (c :: r)) with (rev r ++ [c]) in H.
    exact (drop_while_snoc _ _ _ Hc H).
Qed.

(** A description with a grouping-key token is not all white space. *)
Lemma search_group_key_nonspace d k :
  search V2.group_key_at d = Some k -> forallb is_space d = false.
Proof.
  induction d as [|c d IH]; intros H.
  - vm_compute in H. discriminate.
  - rewrite search_step in H. destruct (V2.group_key_at (c :: d)) eqn:E.
    + assert (S : starts_with_ci (lit "GroupKey:") (c :: d) = true).
      { destruct (starts_with_ci (lit "GroupKey:") (c :: d)) eqn:S; [reflexivity|].
        rewrite (group_key_at_none _ S) in E. discriminate. }
      cbn [forallb].
      assert (Hc : lower_char c = 103%N).
      { replace (lit "GroupKey:") with (71%N :: lit "roupKey:") in S
          by (vm_compute; reflexivity).
        cbn [starts_with_ci] in S. apply andb_prop in S as [S _].
        apply N.eqb_eq in S. rewrite <- S. reflexivity. }
      assert (Hs : is_space c = false).
      { unfold lower_char in Hc. unfold is_space.
        destruct (N.leb_spec 65 c), (N.leb_spec c 90); simpl in Hc;
        repeat match goal with
               | |- context [N.eqb c ?k] => destruct (N.eqb_spec c k); [lia|]
               end;
        repeat match goal with
               | |- context [N.leb ?a ?b] => destruct (N.leb_spec a b); try lia
               end;
        reflexivity. }
      rewrite Hs. reflexivity.
    + cbn [forallb]. rewrite (IH H). apply andb_false_r.
Qed.

(** C10.  For a description without the heading [### AI Summary], the
    recovered summary is [null] exactly when the description is empty and is
    otherwise the whole trimmed description; on the escalation path, where
    the handler has found a grouping-key token in the description, that
    text is not empty. *)
Theorem summary_without_heading d :
  includes summary_heading d = false ->
  (V2.recover_summary d = VNull <-> d = [])
  /\ (d <> [] -> V2.recover_summary d = VStr (trim d))
  /\ (V2.extract_group_key d <> None ->
      V2.recover_summary d = VStr (trim d) /\ trim d <> []).
Proof.
  intros H. unfold V2.recover_summary. fold summary_heading.
  rewrite split_pop_none by exact H.
  split; [|split].
  - destruct d; split; intros; congruence.
  - destruct d; congruence.
  - intros Hk. unfold V2.extract_group_key in Hk.
    destruct (search V2.group_key_at d) eqn:E; [|congruence].
    apply search_group_key_nonspace in E. split.
    + destruct d; [discriminate E | reflexivity].
    + intros Ht. apply trim_nil_all_space in Ht. congruence.
Qed.

(** A task edited down to two lines, the token among them. *)
Lemma summary_without_heading_witness :
  V2.recover_summary (lit " see logs" ++ nl ++ lit "> GroupKey: `api:prod:42`")
  = VStr (lit "see logs" ++ nl ++ lit "> GroupKey: `api:prod:42`").
Proof.
  replace (lit "see logs" ++ nl ++ lit "> GroupKey: `api:prod:42`")
    with (trim (lit " see logs" ++ nl ++ lit "> GroupKey: `api:prod:42`"))
    by (vm_compute; reflexivity).
  apply (summary_without_heading (lit " see logs" ++ nl ++ lit "> GroupKey: `api:prod:42`")).
  - vm_compute. reflexivity.
  - vm_compute. discriminate.
Defined.

(* --------------------------------------------------------------------- *)
(** ** Reasoning about the handlers: weakest preconditions *)
(* --------------------------------------------------------------------- *)

Section WP.
Context {A : Type} (Qn : A -> run_state -> Prop) (Qe : jsstring -> run_state -> Prop).

Lemma wp_ret (a : A) st : Qn a st -> wp (ret a) Qn Qe st.
Proof. exact id. Qed.

Lemma wp_throw e st : Qe e st -> wp (@throw A e) Qn Qe st.
Proof. exact id. Qed.

Lemma wp_lift (c : completion A) st :
  match c with Normal a => Qn a st | Thrown e => Qe e st end -> wp (lift c) Qn Qe st.
Proof. unfold wp, lift. destruct c; exact id. Qed.

Lemma wp_bind {B} (m : M B) (k : B -> M A) st :
  wp m (fun b st' => wp (k b) Qn Qe st') Qe st -> wp (bind m k) Qn Qe st.
Proof. unfold wp, bind. destruct (m st) as [[b|e] st']; exact id. Qed.

(** What a weakest precondition says of a run. *)
Lemma wp_inv (m : M A) st r st' :
  m st = (r, st') -> wp m Qn Qe st ->
  match r with Normal a => Qn a st' | Thrown e => Qe e st' end.
Proof. unfold wp. intros ->. destruct r; exact id. Qed.
End WP.

Lemma wp_mono {A} (m : M A) (Qn Qn' : A -> run_state -> Prop)
    (Qe Qe' : jsstring -> run_state -> Prop) st :
  wp m Qn Qe st -> (forall a s, Qn a s -> Qn' a s) -> (forall e s, Qe e s -> Qe' e s) ->
  wp m Qn' Qe' st.
Proof. unfold wp. destruct (m st) as [[a|e] s]; auto. Qed.

Section Primitives.
Context (Qe : jsstring -> run_state -> Prop).

Lemma wp_fetch w rq (Qn : response -> run_state -> Prop) st :
  (forall res, http w rq = Some res -> Qn res (push st (EvFetch rq))) ->
  (http w rq = None -> Qe type_error (push st (EvFetch rq))) ->
  wp (fetch w rq) Qn Qe st.
Proof.
  unfold wp, fetch, push. destruct (http w rq); intros H1 H2; [apply H1 | apply H2]; reflexivity.
Qed.

Lemma wp_res_json res (Qn : jsval -> run_state -> Prop) st :
  (forall v, rs_json res = Some v -> Qn v st) ->
  (rs_json res = None -> Qe syntax_error st) ->
  wp (res_json res) Qn Qe st.
Proof.
  unfold wp, res_json. destruct (rs_json res); intros H1 H2; [apply H1 | apply H2]; reflexivity.
Qed.

Lemma wp_console parts (Qn : unit -> run_state -> Prop) st :
  Qn tt (logged st (join (lit " ") parts)) -> wp (console parts) Qn Qe st.
Proof. exact id. Qed.

Lemma wp_nowIso w (Qn : jsstring -> run_state -> Prop) st :
  Qn (clock w (st_ticks st)) (ticked st) -> wp (nowIso w) Qn Qe st.
Proof. exact id. Qed.

Lemma wp_state_get key (Qn : option StateRecord -> run_state -> Prop) st :
  Qn (states (st_store st) !! key) (push st (EvGet key)) -> wp (state_get key) Qn Qe st.
Proof. exact id. Qed.

Lemma wp_state_put key rec ttl (Qn : unit -> run_state -> Prop) st :
  Qn tt (stored st key rec ttl) -> wp (state_put key rec ttl) Qn Qe st.
Proof. exact id. Qed.

Lemma wp_standards_get (Qn : option StandardsRecord -> run_state -> Prop) st :
  Qn (standards (st_store st)) (push st EvGetStandards) -> wp standards_get Qn Qe st.
Proof. exact id. Qed.
End Primitives.

(** One backward step through a computation. *)
Ltac wp_step :=
  lazymatch goal with
  | |- wp (bind _ _) _ _ _ => apply wp_bind
  | |- wp (ret _) _ _ _ => apply wp_ret
  | |- wp (throw _) _ _ _ => apply wp_throw
  | |- wp (lift ?c) _ _ _ => apply wp_lift; destruct c eqn:?
  | |- wp (fetch _ _) _ _ _ => apply wp_fetch; [intros ? ? | intros ?]
  | |- wp (res_json _) _ _ _ => apply wp_res_json; [intros ? ? | intros ?]
  | |- wp (console _) _ _ _ => apply wp_console
  | |- wp (nowIso _) _ _ _ => apply wp_nowIso
  | |- wp (state_get _) _ _ _ => apply wp_state_get
  | |- wp (state_put _ _ _) _ _ _ => apply wp_state_put
  | |- wp standards_get _ _ _ => apply wp_standards_get
  | |- wp V2.getStandards _ _ _ => apply wp_standards_get
  | |- wp (if ?c then _ else _) _ _ _ => destruct c eqn:?
  | |- wp (match ?c with _ => _ end) _ _ _ => destruct c eqn:?
  end.

(* --------------------------------------------------------------------- *)
(** ** What the helpers add to a request *)
(* --------------------------------------------------------------------- *)

Lemma frame_refl ok st : frame ok st st.
Proof. split; [reflexivity|]. exists []. rewrite app_nil_r. auto. Qed.

Lemma frame_push ok st st' rq :
  frame ok st st' -> ok (rq_endpoint rq) = true -> frame ok st (push st' (EvFetch rq)).
Proof.
  intros [Hs (evs & Ht & Hf)] Hok. split; [exact Hs|].
  exists (evs ++ [EvFetch rq]). simpl. rewrite Ht, <- app_assoc. split; [reflexivity|].
  apply Forall_app. split; [exact Hf|]. constructor; [|constructor]. exists rq. auto.
Qed.

Ltac frame_tac :=
  repeat first
    [ apply frame_refl
    | apply frame_push; [| reflexivity]
    | progress change (frame ?ok ?st (logged ?st' _)) with (frame ok st st')
    | progress change (frame ?ok ?st (ticked ?st')) with (frame ok st st') ].

(** The summarisation only talks to the summarisation services. *)
Lemma aiSummarize_frame w env p st :
  wp (V2.aiSummarize w env p)
     (fun _ st' => frame is_ai st st') (fun _ st' => frame is_ai st st') st.
Proof. unfold V2.aiSummarize. repeat (wp_step; try solve [frame_tac]). Qed.

Lemma cu_frame w env gk p ai prior st :
  wp (V2.clickupCreateOrUpdate w env gk p ai prior)
     (fun _ st' => frame any_endpoint st st') (fun _ st' => frame any_endpoint st st') st.
Proof. unfold V2.clickupCreateOrUpdate. repeat (wp_step; try solve [frame_tac]). Qed.

Lemma gh_frame w env gk p ai std ex st :
  wp (V2.githubCreateOrUpdateIssue w env gk p ai std ex)
     (fun _ st' => frame any_endpoint st st') (fun _ st' => frame any_endpoint st st') st.
Proof. unfold V2.githubCreateOrUpdateIssue. repeat (wp_step; try solve [frame_tac]). Qed.

(** The cross-reference comment is one comment call at most. *)
Lemma comment_frame w env id c st :
  wp (V2.clickupAddComment w env id c)
     (fun _ st' => frame is_comment st st') (fun _ st' => frame is_comment st st') st.
Proof. unfold V2.clickupAddComment. repeat (wp_step; try solve [frame_tac]). Qed.

(* --------------------------------------------------------------------- *)
(** ** Refused mandatory calls *)
(* --------------------------------------------------------------------- *)

Section CleanLemmas.
Context (w : world).

Lemma clean_push st e : Clean w st -> clean w e = true -> Clean w (push st e).
Proof.
  unfold Clean, push. simpl. intros H He. rewrite forallb_app, H. simpl. rewrite He. reflexivity.
Qed.

Lemma clean_stored st k r t : Clean w st -> Clean w (stored st k r t).
Proof. unfold Clean, stored. simpl. intros H. rewrite forallb_app, H. reflexivity. Qed.

Lemma clean_fetch_ok rq res :
  http w rq = Some res -> negb (rs_ok res) = false -> clean w (EvFetch rq) = true.
Proof.
  intros H Hok. unfold clean, refused. rewrite H, Hok. apply negb_true_iff, andb_false_r.
Qed.

Lemma clean_fetch_none rq : http w rq = None -> clean w (EvFetch rq) = true.
Proof. intros H. unfold clean, refused. rewrite H. apply negb_true_iff, andb_false_r. Qed.

Lemma aborted_intro st rq res msg :
  Clean w st -> mandatory (rq_endpoint rq) = true -> http w rq = Some res ->
  negb (rs_ok res) = true -> embeds msg res ->
  Aborted w (push st (EvFetch rq)) msg (rq_endpoint rq).
Proof.
  intros Hc Hm Hh Hok He. exists (st_trace st), rq, res.
  apply negb_true_iff in Hok. repeat split; auto.
Qed.

Lemma embeds_intro prefix res :
  embeds (prefix ++ num_to_string (rs_status res) ++ lit " " ++ rs_text res) res.
Proof. exists prefix. reflexivity. Qed.

(** A refused mandatory call leaves a trace that is not clean. *)
Lemma refusal_not_clean tr rq res :
  In (EvFetch rq) tr -> mandatory (rq_endpoint rq) = true ->
  http w rq = Some res -> rs_ok res = false -> forallb (clean w) tr = true -> False.
Proof.
  intros Hin Hm Hh Hok Hc. rewrite forallb_forall in Hc. specialize (Hc _ Hin).
  unfold clean, refused in Hc. rewrite Hm, Hh, Hok in Hc. discriminate.
Qed.

(** In an aborted request the refused call is the one that aborted it. *)
Lemma refusal_is_last st msg ep rq res :
  Aborted w st msg ep ->
  In (EvFetch rq) (st_trace st) -> mandatory (rq_endpoint rq) = true ->
  http w rq = Some res -> rs_ok res = false ->
  (exists pre, st_trace st = pre ++ [EvFetch rq]) /\ rq_endpoint rq = ep /\ embeds msg res.
Proof.
  intros (pre & rqX & resX & Ht & Hpre & Hep & Hm & HhX & HokX & Hemb) Hin Hmand Hh Hok.
  rewrite Ht in Hin. apply in_app_or in Hin as [Hin | [Heq | []]].
  - exfalso. eapply refusal_not_clean; eauto.
  - injection Heq as <-. rewrite Hh in HhX. injection HhX as <-.
    split; [eauto | auto].
Qed.
End CleanLemmas.

Ltac clean_tac :=
  repeat first
    [ assumption
    | apply clean_stored
    | apply clean_push;
      [| first [ reflexivity
               | eapply clean_fetch_ok; eassumption
               | eapply clean_fetch_none; eassumption ] ]
    | progress change (Clean ?w (logged ?st _)) with (Clean w st)
    | progress change (Clean ?w (ticked ?st)) with (Clean w st) ].

Ltac abort_intro_tac :=
  eapply aborted_intro;
  [ solve [clean_tac] | reflexivity | eassumption | eassumption | apply embeds_intro ].

Ltac abort_tac :=
  first
    [ left; solve [clean_tac]
    | right; eexists; split; [ abort_intro_tac | reflexivity ] ].

Lemma ai_clean w env p st :
  Clean w st ->
  wp (V2.aiSummarize w env p) (fun _ st' => Clean w st') (fun _ st' => Clean w st') st.
Proof.
  intros Hc. unfold V2.aiSummarize. repeat (wp_step; try solve [clean_tac]).
Qed.

(** A refused create makes [clickupCreateOrUpdate] throw; a refused
    comment does not. *)
Lemma cu_clean w env gk p ai prior st :
  Clean w st ->
  wp (V2.clickupCreateOrUpdate w env gk p ai prior) (fun _ st' => Clean w st') (QeAbort w) st.
Proof.
  intros Hc. unfold V2.clickupCreateOrUpdate, QeAbort.
  repeat (wp_step; try solve [clean_tac | abort_tac]).
Qed.

Lemma comment_clean w env id c st :
  Clean w st ->
  wp (V2.clickupAddComment w env id c) (fun _ st' => Clean w st') (fun _ st' => Clean w st') st.
Proof.
  intros Hc. unfold V2.clickupAddComment. repeat (wp_step; try solve [clean_tac]).
Qed.

Lemma gh_clean w env gk p ai std ex st :
  Clean w st ->
  wp (V2.githubCreateOrUpdateIssue w env gk p ai std ex)
     (fun _ st' => Clean w st') (QeAbort w) st.
Proof.
  intros Hc. unfold V2.githubCreateOrUpdateIssue, QeAbort.
  repeat (wp_step; try solve [clean_tac | abort_tac]).
Qed.

Ltac clean_step :=
  lazymatch goal with
  | |- wp (bind (V2.aiSummarize _ _ _) _) _ _ _ =>
      apply wp_bind; eapply wp_mono;
      [apply ai_clean; clean_tac | intros ? ? ? | intros ? ? ?; left; assumption]
  | |- wp (bind (V2.clickupCreateOrUpdate _ _ _ _ _ _) _) _ _ _ =>
      apply wp_bind; eapply wp_mono;
      [apply cu_clean; clean_tac | intros ? ? ? | intros ? ? ?; assumption]
  | |- wp (bind (V2.githubCreateOrUpdateIssue _ _ _ _ _ _ _) _) _ _ _ =>
      apply wp_bind; eapply wp_mono;
      [apply gh_clean; clean_tac | intros ? ? ? | intros ? ? ?; assumption]
  | |- wp (V2.clickupAddComment _ _ _ _) _ _ _ =>
      eapply wp_mono;
      [apply comment_clean; clean_tac | intros ? ? ? | intros ? ? ?; left; assumption]
  | |- wp (bind (V2.clickupAddComment _ _ _ _) _) _ _ _ =>
      apply wp_bind; eapply wp_mono;
      [apply comment_clean; clean_tac | intros ? ? ? | intros ? ? ?; left; assumption]
  | _ => wp_step
  end.

(** [handleSentry] answers only when no mandatory call was refused, and
    throws when one was. *)
Lemma handleSentry_clean w env req s :
  wp (V2.handleSentry w env req) (fun _ st' => Clean w st') (QeAbort w) (start s).
Proof.
  assert (Hc : Clean w (start s)) by reflexivity.
  revert Hc. generalize (start s) as st. intros st Hc.
  unfold V2.handleSentry.
  repeat first [ solve [clean_tac] | solve [left; clean_tac] | clean_step ].
Qed.

(** [handleClickUp] answers 502 when the task fetch is refused and throws
    when GitHub refuses. *)
Lemma handleClickUp_clean w env req s :
  wp (V2.handleClickUp w env req) (QnClickUp w) (QeAbort w) (start s).
Proof.
  assert (Hc : Clean w (start s)) by reflexivity.
  revert Hc. generalize (start s) as st. intros st Hc.
  unfold V2.handleClickUp, V2.get_task_request, QnClickUp.
  repeat first
    [ solve [clean_tac] | solve [left; clean_tac]
    | lazymatch goal with
      | |- wp (ret (err _ 502)) _ _ _ =>
          apply wp_ret; right; eexists; split; [|reflexivity]; abort_intro_tac
      | _ => clean_step
      end ].
Qed.

(** The first worker answers 502 to every refusal, before any write. *)
Lemma V1_clean w env req s :
  wp (V1.fetch_handler w env req) (QnV1 w s) (fun _ st' => Clean w st') (start s).
Proof.
  assert (Hc : Clean w (start s) /\ st_store (start s) = s) by (split; reflexivity).
  revert Hc. generalize (start s) as st. intros st [Hc Hs].
  unfold V1.fetch_handler, QnV1.
  repeat first
    [ solve [clean_tac] | solve [left; clean_tac]
    | lazymatch goal with
      | |- wp (ret (V1.text_reply _ 502)) _ _ _ =>
          apply wp_ret; right; do 2 eexists; split; [|split; [reflexivity|exact Hs]];
          abort_intro_tac
      | _ => wp_step
      end ].
Qed.

(** C7 (as amended).  Whenever a mandatory call (ticket create, update, or
    the ticket fetch before them) is answered with a non-success status,
    that call is the last thing the request does, so no correlation-store
    write follows it.  The first worker then answers 502 with the status and
    body of the refusal in the text, and has written nothing.  In the later
    worker the escalation endpoint answers 502 in the same way when the task
    fetch is refused; a refused task create or issue create or update makes
    the handler throw an [Error] whose message holds the status and body. *)
Theorem refusal_aborts (w : world) (s : store) :
  (forall env req r st',
     V1.fetch_handler w env req (start s) = (r, st') ->
     forall rq res, In (EvFetch rq) (st_trace st') -> mandatory (rq_endpoint rq) = true ->
       http w rq = Some res -> rs_ok res = false ->
       (exists pre, st_trace st' = pre ++ [EvFetch rq])
       /\ (exists msg, embeds msg res /\ r = Normal (V1.text_reply msg 502))
       /\ st_store st' = s)
  /\ (forall env req r st',
     V2.handleClickUp w env req (start s) = (r, st') ->
     forall rq res, In (EvFetch rq) (st_trace st') -> mandatory (rq_endpoint rq) = true ->
       http w rq = Some res -> rs_ok res = false ->
       (exists pre, st_trace st' = pre ++ [EvFetch rq])
       /\ exists msg, embeds msg res
          /\ r = if endpoint_eqb (rq_endpoint rq) CuGetTask
                 then Normal (err msg 502) else Thrown msg)
  /\ (forall env req r st',
     V2.handleSentry w env req (start s) = (r, st') ->
     forall rq res, In (EvFetch rq) (st_trace st') -> mandatory (rq_endpoint rq) = true ->
       http w rq = Some res -> rs_ok res = false ->
       (exists pre, st_trace st' = pre ++ [EvFetch rq])
       /\ exists msg, embeds msg res /\ r = Thrown msg).
Proof.
  split; [|split]; intros env req r st' Hrun rq res Hin Hm Hh Hok.
  - pose proof (wp_inv _ _ _ _ _ _ Hrun (V1_clean w env req s)) as H.
    destruct r as [rep|e].
    + destruct H as [H | (msg & ep & H & -> & Hs)];
        [exfalso; eapply refusal_not_clean; eauto|].
      destruct (refusal_is_last _ _ _ _ _ _ H Hin Hm Hh Hok) as (Hl & _ & He). eauto.
    + exfalso; eapply refusal_not_clean; eauto.
  - pose proof (wp_inv _ _ _ _ _ _ Hrun (handleClickUp_clean w env req s)) as H.
    destruct r as [rep|e].
    + destruct H as [H | (msg & H & ->)]; [exfalso; eapply refusal_not_clean; eauto|].
      destruct (refusal_is_last _ _ _ _ _ _ H Hin Hm Hh Hok) as (Hl & -> & He). eauto.
    + destruct H as [H | (ep & H & Hep)]; [exfalso; eapply refusal_not_clean; eauto|].
      destruct (refusal_is_last _ _ _ _ _ _ H Hin Hm Hh Hok) as (Hl & -> & He).
      rewrite Hep. eauto.
  - pose proof (wp_inv _ _ _ _ _ _ Hrun (handleSentry_clean w env req s)) as H.
    destruct r as [rep|e].
    + exfalso. eapply refusal_not_clean; eauto.
    + destruct H as [H | (ep & H & Hep)]; [exfalso; eapply refusal_not_clean; eauto|].
      destruct (refusal_is_last _ _ _ _ _ _ H Hin Hm Hh Hok) as (Hl & _ & He). eauto.
Qed.

Lemma run_pair {A} (m : M A) st : m st = (fst (m st), snd (m st)).
Proof. destruct (m st). reflexivity. Defined.

(** ClickUp answers 500 to the task create of the scenario: the handler
    throws, with the refusal in the message. *)
Lemma refusal_aborts_witness :
  exists msg,
    fst (V2.handleSentry Scenario.create_refused Scenario.env2 Scenario.req0 (start empty_store))
    = Thrown msg
    /\ embeds msg (mkResponse 500 (lit "boom") None).
Proof.
  assert (Ht : exists rq,
             In (EvFetch rq)
                (st_trace (snd (V2.handleSentry Scenario.create_refused Scenario.env2
                                  Scenario.req0 (start empty_store))))
             /\ rq_endpoint rq = CuCreateTask).
  { vm_compute. eexists. split; [right; left; reflexivity | reflexivity]. }
  destruct Ht as (rq & Hin & Hep).
  assert (Hh : http Scenario.create_refused rq = Some (mkResponse 500 (lit "boom") None)).
  { unfold Scenario.create_refused. simpl. rewrite Hep. reflexivity. }
  destruct (proj2 (proj2 (refusal_aborts Scenario.create_refused empty_store))
              Scenario.env2 Scenario.req0 _ _ (run_pair _ _) rq
              (mkResponse 500 (lit "boom") None) Hin)
    as (_ & msg & He & Hr).
  - rewrite Hep. reflexivity.
  - exact Hh.
  - reflexivity.
  - exists msg. auto.
Defined.

(** C7, as first stated, fails in the later worker: no 502 answers the
    refused task create, the handler throws. *)
Lemma refused_create_is_thrown :
  ~ (forall w env req s r st' rq res,
       V2.handleSentry w env req (start s) = (r, st') ->
       In (EvFetch rq) (st_trace st') -> mandatory (rq_endpoint rq) = true ->
       http w rq = Some res -> rs_ok res = false ->
       exists msg, r = Normal (err msg 502)).
Proof.
  intros H.
  assert (Ht : exists rq,
             In (EvFetch rq)
                (st_trace (snd (V2.handleSentry Scenario.create_refused Scenario.env2
                                  Scenario.req0 (start empty_store))))
             /\ rq_endpoint rq = CuCreateTask).
  { vm_compute. eexists. split; [right; left; reflexivity | reflexivity]. }
  destruct Ht as (rq & Hin & Hep).
  destruct (H Scenario.create_refused Scenario.env2 Scenario.req0 empty_store _ _ rq
              (mkResponse 500 (lit "boom") None) (run_pair _ _) Hin) as [msg Hr].
  - rewrite Hep. reflexivity.
  - unfold Scenario.create_refused. simpl. rewrite Hep. reflexivity.
  - reflexivity.
  - vm_compute in Hr. discriminate Hr.
Qed.

(* --------------------------------------------------------------------- *)
(** ** The record written back *)
(* --------------------------------------------------------------------- *)

Lemma puts_push s st e :
  Puts s st -> (forall k r t, e <> EvPut k r t) -> Puts s (push st e).
Proof.
  intros H He k r t Hin. unfold push in Hin. simpl in Hin.
  apply in_app_or in Hin as [Hin | [Heq | []]]; [eauto|]. exfalso. eapply He; eauto.
Qed.

Lemma puts_stored s st k r t : Puts s st -> carried s k r -> Puts s (stored st k r t).
Proof.
  intros H He k' r' t' Hin. unfold stored in Hin. simpl in Hin.
  apply in_app_or in Hin as [Hin | [Heq | []]]; [eauto|]. injection Heq as <- <- <-. exact He.
Qed.

Lemma puts_frame ok s st st' : frame ok st st' -> Puts s st -> Puts s st'.
Proof.
  intros [_ (evs & Ht & Hf)] H k r t Hin. rewrite Ht in Hin.
  apply in_app_or in Hin as [Hin | Hin]; [eauto|].
  rewrite List.Forall_forall in Hf. destruct (Hf _ Hin) as (rq & Heq & _). discriminate.
Qed.

Ltac puts_tac :=
  repeat first
    [ assumption
    | eapply puts_frame; [eassumption|]
    | apply puts_push; [| intros; discriminate]
    | apply puts_stored;
      [| intros ? ?; simplify_eq; try (simpl; split; [reflexivity | lia]) ]
    | progress change (Puts ?s (logged ?st _)) with (Puts s st)
    | progress change (Puts ?s (ticked ?st)) with (Puts s st) ].

Ltac framed lem := eapply wp_mono; [apply lem | intros ? ? ? | intros ? ? ?]; cbv beta in *.

Ltac frame_step :=
  lazymatch goal with
  | |- wp (bind (V2.aiSummarize _ _ _) _) _ _ _ => apply wp_bind; framed aiSummarize_frame
  | |- wp (bind (V2.clickupCreateOrUpdate _ _ _ _ _ _) _) _ _ _ => apply wp_bind; framed cu_frame
  | |- wp (bind (V2.githubCreateOrUpdateIssue _ _ _ _ _ _ _) _) _ _ _ =>
      apply wp_bind; framed gh_frame
  | |- wp (bind (V2.clickupAddComment _ _ _ _) _) _ _ _ => apply wp_bind; framed comment_frame
  | |- wp (V2.clickupAddComment _ _ _ _) _ _ _ => framed comment_frame
  | |- wp (bind (state_get _) _) _ _ (start ?s) =>
      apply wp_bind, wp_state_get;
      let prior := fresh "prior" in
      let E := fresh "Eprior" in
      destruct (states (st_store (start s)) !! _) as [prior|] eqn:E; simpl in E
  | _ => wp_step
  end.

(** Every record that [handleSentry] writes carries the first-seen time of
    the record it read, and one occurrence more. *)
Lemma handleSentry_puts w env req s :
  wp (V2.handleSentry w env req) (fun _ st' => Puts s st') (fun _ st' => Puts s st') (start s).
Proof.
  assert (Hc : Puts s (start s)) by (intros ? ? ? []).
  unfold V2.handleSentry.
  repeat first [ solve [puts_tac] | frame_step ].
Qed.

Lemma puts1_push s st e :
  Puts1 s st -> (forall k r t, e <> EvPut k r t) -> Puts1 s (push st e).
Proof.
  intros H He k r t Hin. unfold push in Hin. simpl in Hin.
  apply in_app_or in Hin as [Hin | [Heq | []]]; [eauto|]. exfalso. eapply He; eauto.
Qed.

Lemma puts1_stored s st k r t : Puts1 s st -> carried1 s k r -> Puts1 s (stored st k r t).
Proof.
  intros H He k' r' t' Hin. unfold stored in Hin. simpl in Hin.
  apply in_app_or in Hin as [Hin | [Heq | []]]; [eauto|]. injection Heq as <- <- <-. exact He.
Qed.

Ltac puts1_tac :=
  repeat first
    [ assumption
    | apply puts1_push; [| intros; discriminate]
    | apply puts1_stored;
      [| let Hz := fresh "Hz" in
         intros ? ? Hz; simplify_eq;
         try (simpl; split; [reflexivity|];
              match goal with
              | |- context [Z.eqb ?c 0] => destruct (Z.eqb_spec c 0); [congruence | reflexivity]
              end) ]
    | progress change (Puts1 ?s (logged ?st _)) with (Puts1 s st)
    | progress change (Puts1 ?s (ticked ?st)) with (Puts1 s st) ].

(** The same for the first worker, for records that count an occurrence. *)
Lemma V1_puts w env req s :
  wp (V1.fetch_handler w env req)
     (fun _ st' => Puts1 s st') (fun _ st' => Puts1 s st') (start s).
Proof.
  assert (Hc : Puts1 s (start s)) by (intros ? ? ? []).
  unfold V1.fetch_handler.
  repeat first [ solve [puts1_tac] | frame_step ].
Qed.

Lemma pos_stored st k r t : Pos st -> 0 < count r -> Pos (stored st k r t).
Proof.
  intros H Hr key rec. unfold stored. simpl. rewrite lookup_insert.
  destruct (decide (k = key)); [intros [= <-]; exact Hr | apply H].
Qed.

Lemma pos_frame ok st st' : frame ok st st' -> Pos st -> Pos st'.
Proof. intros [Hs _] H. unfold Pos. rewrite Hs. exact H. Qed.

Ltac pos_tac :=
  repeat first
    [ assumption
    | eapply pos_frame; [eassumption|]
    | apply pos_stored;
      [| simpl;
         try match goal with
             | |- context [Z.eqb ?c 0] => destruct (Z.eqb_spec c 0)
             end; lia ]
    | progress change (Pos (logged ?st _)) with (Pos st)
    | progress change (Pos (ticked ?st)) with (Pos st)
    | progress change (Pos (push ?st _)) with (Pos st) ].

Ltac pos_step :=
  lazymatch goal with
  | |- wp (bind (state_get ?k) _) _ _ ?st =>
      apply wp_bind, wp_state_get;
      let prior := fresh "prior" in
      let E := fresh "Eprior" in
      destruct (states (st_store st) !! k) as [prior|] eqn:E;
      [ match goal with H : Pos _ |- _ => pose proof (H _ _ E) end | ]
  | _ => frame_step
  end.

(** Counts start at one and only grow: every handler keeps the counts of
    the store positive. *)
Lemma counts_stay_positive w s :
  positive s ->
  (forall env req,
     wp (V2.handleSentry w env req) (fun _ st' => Pos st') (fun _ st' => Pos st') (start s))
  /\ (forall env req,
     wp (V2.handleClickUp w env req) (fun _ st' => Pos st') (fun _ st' => Pos st') (start s))
  /\ (forall env req,
     wp (V1.fetch_handler w env req) (fun _ st' => Pos st') (fun _ st' => Pos st') (start s)).
Proof.
  intros Hp. assert (Hc : Pos (start s)) by exact Hp.
  split; [|split]; intros env req.
  - unfold V2.handleSentry. repeat first [ solve [pos_tac] | pos_step ].
  - unfold V2.handleClickUp. repeat first [ solve [pos_tac] | pos_step ].
  - unfold V1.fetch_handler. repeat first [ solve [pos_tac] | pos_step ].
Qed.

Lemma empty_store_positive : positive empty_store.
Proof. intros key rec H. unfold empty_store in H. simpl in H. rewrite lookup_empty in H. discriminate. Qed.

Lemma recorded_stored key prior st r :
  first_seen r = first_seen prior -> count r = count prior + 1 ->
  Recorded key prior (stored st key r ttl90).
Proof.
  intros Hf Hc. exists r. unfold stored. cbn [st_trace st_store states].
  split; [apply in_or_app; right; left; reflexivity|].
  split; [apply lookup_insert_eq | auto].
Qed.

Lemma recorded_frame ok key prior st st' :
  frame ok st st' -> Recorded key prior st -> Recorded key prior st'.
Proof.
  intros [Hs (evs & Ht & _)] (rec & Hin & Hl & H). exists rec. rewrite Hs, Ht.
  split; [apply in_or_app; left; exact Hin | auto].
Qed.

Ltac recorded_tac :=
  repeat first
    [ assumption
    | eapply recorded_frame; [eassumption|]
    | apply recorded_stored;
      [ reflexivity
      | cbn [count];
        try match goal with
            | H : ?c <> 0 |- context [Z.eqb ?c 0] =>
                destruct (Z.eqb_spec c 0); [contradiction|]
            end;
        reflexivity ]
    | progress change (Recorded ?k ?p (logged ?st _)) with (Recorded k p st)
    | progress change (Recorded ?k ?p (ticked ?st)) with (Recorded k p st) ].

(** Past the conversion of the key, where nothing is claimed of a request
    that throws. *)
Ltac key_guard :=
  lazymatch goal with
  | |- wp (if negb (printable_key ?a ?b ?c) then _ else _) _ _ _ =>
      destruct (printable_key a b c); cbn [negb]; [|exact I]
  end.

(** A correlated delivery for a key that holds a record: once the handler
    answers, the record has been written back with one occurrence more. *)
Lemma sentry_recorded w env req p s r0 :
  correlated env req p -> states s !! groupKeyFrom p = Some r0 ->
  wp (V2.handleSentry w env req)
     (fun _ st' => Recorded (groupKeyFrom p) r0 st') (fun _ _ => True) (start s).
Proof.
  intros (G1 & G2 & G3 & G4 & G5 & G6 & G7 & G8) Hsome.
  unfold V2.handleSentry. rewrite G1, G2, G3, G4, G5, G6, G7. cbn [negb orb].
  apply wp_bind, wp_lift. rewrite G8. cbn [negb]. key_guard.
  apply wp_bind, wp_state_get. cbn [st_store start]. rewrite Hsome.
  apply wp_bind, wp_ret.
  repeat first [ exact I | solve [recorded_tac] | frame_step ].
Qed.

Ltac v1_enter G :=
  destruct G as (G1 & G2 & G3 & G4 & G5 & G6 & G7 & G8 & G9 & G10);
  unfold V1.fetch_handler; rewrite G1, G2, G3, G4, G5, G6, G7; cbn [negb orb];
  destruct (V1.owner_repo _) as [[owner repo]|]; [|congruence];
  rewrite G9; apply wp_bind, wp_lift; rewrite G10; cbn [negb]; key_guard;
  apply wp_bind, wp_state_get; cbn [st_store start].

(** The same for the first worker, whose answer is a success only after
    the issue was updated and the record written back. *)
Lemma v1_recorded w env req f s r0 :
  correlated1 env req f -> states s !! key1 f = Some r0 -> count r0 <> 0 ->
  wp (V1.fetch_handler w env req)
     (fun rep st' => success rep = true -> Recorded (key1 f) r0 st')
     (fun _ _ => True) (start s).
Proof.
  intros G Hsome Hz. v1_enter G. fold (key1 f). rewrite Hsome.
  repeat (wp_step; try exact I); intros Hs; try discriminate Hs.
  recorded_tac.
Qed.

(** C6.  Every record that a delivery writes under a key that held a
    record has the first-seen time of that record and its occurrence count
    plus one (in the first worker, which reads a zero count as one, for a
    record that counts at least one occurrence, as all written records
    do).  And the record is written: when a correlated delivery for that
    key is answered (by the first worker: answered with success), it has
    written such a record under the key and the store holds it. *)
Theorem record_written_back (w : world) (s : store) (key : jsstring) (prior : StateRecord) :
  states s !! key = Some prior ->
  (forall env req rec ttl,
     In (EvPut key rec ttl) (st_trace (snd (V2.handleSentry w env req (start s)))) ->
     first_seen rec = first_seen prior /\ count rec = count prior + 1)
  /\ (forall env req rec ttl,
     In (EvPut key rec ttl) (st_trace (snd (V1.fetch_handler w env req (start s)))) ->
     count prior <> 0 ->
     first_seen rec = first_seen prior /\ count rec = count prior + 1)
  /\ (forall env req p rep,
     correlated env req p -> groupKeyFrom p = key ->
     fst (V2.handleSentry w env req (start s)) = Normal rep ->
     exists rec,
       In (EvPut key rec ttl90) (st_trace (snd (V2.handleSentry w env req (start s))))
       /\ states (st_store (snd (V2.handleSentry w env req (start s)))) !! key = Some rec
       /\ first_seen rec = first_seen prior /\ count rec = count prior + 1)
  /\ (forall env req f rep,
     correlated1 env req f -> key1 f = key -> count prior <> 0 ->
     fst (V1.fetch_handler w env req (start s)) = Normal rep -> success rep = true ->
     exists rec,
       In (EvPut key rec ttl90) (st_trace (snd (V1.fetch_handler w env req (start s))))
       /\ states (st_store (snd (V1.fetch_handler w env req (start s)))) !! key = Some rec
       /\ first_seen rec = first_seen prior /\ count rec = count prior + 1).
Proof.
  intros Hprior. split; [|split; [|split]].
  - intros env req rec ttl Hin.
    pose proof (wp_inv _ _ _ _ _ _ (run_pair _ _) (handleSentry_puts w env req s)) as H.
    destruct (fst (V2.handleSentry w env req (start s))); exact (H _ _ _ Hin _ Hprior).
  - intros env req rec ttl Hin.
    pose proof (wp_inv _ _ _ _ _ _ (run_pair _ _) (V1_puts w env req s)) as H.
    destruct (fst (V1.fetch_handler w env req (start s))); exact (H _ _ _ Hin _ Hprior).
  - intros env req p rep Hc <- Hrep.
    pose proof (wp_inv _ _ _ _ _ _ (run_pair _ _) (sentry_recorded w env req p s prior Hc Hprior))
      as H.
    rewrite Hrep in H. exact H.
  - intros env req f rep Hc <- Hz Hrep Hs.
    pose proof (wp_inv _ _ _ _ _ _ (run_pair _ _)
                  (v1_recorded w env req f s prior Hc Hprior Hz)) as H.
    rewrite Hrep in H. exact (H Hs).
Qed.

(** The second occurrence of the scenario is written back as occurrence 2,
    first seen when the first one was, by the later worker and by the
    first. *)
Lemma record_written_back_witness :
  (exists rec,
     states (st_store (snd (V2.handleSentry Scenario.world1 Scenario.env2 Scenario.req0
                              (start Scenario.store_seen_once)))) !! Scenario.gk0 = Some rec
     /\ first_seen rec = Scenario.T0 /\ count rec = 2)
  /\ (exists rec,
     states (st_store (snd (V1.fetch_handler Scenario.world1 Scenario.env1 Scenario.req0
                              (start Scenario.store_seen_once)))) !! Scenario.gk0 = Some rec
     /\ first_seen rec = Scenario.T0 /\ count rec = 2).
Proof.
  pose proof (record_written_back Scenario.world1 Scenario.store_seen_once Scenario.gk0
                Scenario.seen_once (lookup_singleton_eq _ _)) as (_ & _ & H2 & H1).
  split.
  - destruct (H2 Scenario.env2 Scenario.req0 Scenario.ev0 Scenario.updated_reply)
      as (rec & _ & Hl & Hf & Hc).
    + repeat split; vm_compute; reflexivity.
    + vm_compute; reflexivity.
    + vm_compute; reflexivity.
    + exists rec. auto.
  - destruct (H1 Scenario.env1 Scenario.req0 Scenario.fields0
                (V1.text_reply (lit "Updated issue #7 (occurrences=2)") 200))
      as (rec & _ & Hl & Hf & Hc).
    + repeat split; try (vm_compute; reflexivity). vm_compute. discriminate.
    + vm_compute; reflexivity.
    + vm_compute. discriminate.
    + vm_compute; reflexivity.
    + vm_compute; reflexivity.
    + exists rec. auto.
Defined.

(* --------------------------------------------------------------------- *)
(** ** Create once, then update *)
(* --------------------------------------------------------------------- *)

Lemma fetches_app ep a b : fetches ep (a ++ b) = (fetches ep a + fetches ep b)%nat.
Proof.
  induction a as [|e a IH]; [reflexivity|]. destruct e; simpl; rewrite ?IH; lia.
Qed.

Lemma fetches_frame ok ep evs :
  Forall (fetch_of ok) evs -> ok ep = false -> fetches ep evs = 0%nat.
Proof.
  intros H Hok. induction H as [|e evs (rq & -> & Hrq) _ IH]; [reflexivity|].
  simpl. rewrite IH. destruct (endpoint_eqb (rq_endpoint rq) ep) eqn:E; [|reflexivity].
  destruct (rq_endpoint rq), ep; simpl in *; congruence.
Qed.

Lemma frame_adds ok st st' :
  frame ok st st' -> ok CuCreateTask = false -> ok GhCreateIssue = false -> adds st st' 0 0.
Proof.
  intros [Hs (evs & Ht & Hf)] H1 H2. unfold adds. rewrite Ht, !fetches_app.
  rewrite (fetches_frame ok _ evs Hf H1), (fetches_frame ok _ evs Hf H2). auto.
Qed.

Ltac adds_tac :=
  unfold adds; cbn [st_store st_trace push stored logged ticked];
  rewrite ?fetches_app; cbn [fetches rq_endpoint endpoint_eqb];
  repeat split; try reflexivity; try lia.

(** The create path of [clickupCreateOrUpdate]: one create call. *)
Lemma cu_create w env gk p ai prior st :
  configured (V2.CLICKUP_TOKEN env) = true -> configured (V2.CLICKUP_LIST_ID env) = true ->
  truthy (V2.prior_task_id prior) = false ->
  wp (V2.clickupCreateOrUpdate w env gk p ai prior)
     (fun cu st' => adds st st' 1 0 /\ V2.created cu = true
                    /\ (ids_returned w -> truthy (V2.task_id cu) = true))
     (fun _ _ => True) st.
Proof.
  intros H1 H2 H3. unfold V2.clickupCreateOrUpdate. rewrite H1, H2, H3. cbn [negb orb].
  repeat (wp_step; try exact I).
  split; [adds_tac | split; [reflexivity|]].
  intros Hids. cbn [V2.task_id]. eapply Hids; eauto.
Qed.

(** The update path: no create call, and the task id is the stored one. *)
Lemma cu_update w env gk p ai prior st :
  truthy (V2.prior_task_id prior) = true ->
  wp (V2.clickupCreateOrUpdate w env gk p ai prior)
     (fun cu st' => adds st st' 0 0 /\ V2.created cu = false
                    /\ js_nullish_or (V2.task_id cu) (V2.prior_task_id prior)
                       = V2.prior_task_id prior)
     (fun _ _ => True) st.
Proof.
  intros H3. unfold V2.clickupCreateOrUpdate. rewrite H3. cbn [negb].
  repeat (wp_step; try exact I);
    (split; [adds_tac | split; [reflexivity|]]); cbn [V2.task_id]; try reflexivity.
  all: unfold js_nullish_or; destruct (V2.prior_task_id prior); simpl in *; congruence.
Qed.

Lemma gh_create w env gk p ai std ex st :
  truthy ex = false ->
  wp (V2.githubCreateOrUpdateIssue w env gk p ai std ex)
     (fun num st' => adds st st' 0 1 /\ (ids_returned w -> truthy num = true))
     (fun _ _ => True) st.
Proof.
  intros H. unfold V2.githubCreateOrUpdateIssue.
  repeat (wp_step; try exact I); try (rewrite H in *; discriminate).
  split; [adds_tac|]. intros Hids. eapply Hids; eauto.
Qed.

Lemma gh_patch w env gk p ai std ex st :
  truthy ex = true ->
  wp (V2.githubCreateOrUpdateIssue w env gk p ai std ex)
     (fun num st' => adds st st' 0 0 /\ num = ex)
     (fun _ _ => True) st.
Proof.
  intros H. unfold V2.githubCreateOrUpdateIssue.
  repeat (wp_step; try exact I); try (rewrite H in *; discriminate).
  split; [adds_tac | reflexivity].
Qed.

Ltac use_adds :=
  repeat match goal with
         | H : _ /\ _ |- _ => destruct H
         | H : adds _ _ _ _ |- _ => destruct H as (? & ? & ?)
         | H : frame is_ai _ _ |- _ => apply frame_adds in H; [| reflexivity | reflexivity]
         | H : frame is_comment _ _ |- _ => apply frame_adds in H; [| reflexivity | reflexivity]
         end;
  cbn [st_store st_trace push stored logged ticked start] in *.

Ltac tally := use_adds; rewrite ?fetches_app in *; cbn [fetches] in *; lia.

Ltac lookup_gk :=
  use_adds;
  repeat match goal with
         | H : st_store ?x = _ |- context [st_store ?x] => rewrite H
         end;
  cbn [states]; rewrite ?lookup_insert_eq.

Ltac sentry_step :=
  lazymatch goal with
  | |- wp (bind (V2.aiSummarize _ _ _) _) _ _ _ =>
      apply wp_bind; eapply wp_mono;
      [apply aiSummarize_frame | intros ? ? ? | intros; exact I]; cbv beta in *
  | |- wp (V2.clickupAddComment _ _ _ _) _ _ _ =>
      eapply wp_mono; [apply comment_frame | intros ? ? ? | intros; exact I]; cbv beta in *
  | _ => wp_step
  end.

(** A correlated delivery for a key without a record, with ClickUp
    configured: if it is answered, the answer is 201, one task was created,
    and the record counts one occurrence. *)
Lemma sentry_created w env req p s :
  correlated env req p ->
  configured (V2.CLICKUP_TOKEN env) = true -> configured (V2.CLICKUP_LIST_ID env) = true ->
  states s !! groupKeyFrom p = None ->
  wp (V2.handleSentry w env req)
     (fun rep st' =>
        status rep = 201
        /\ fetches CuCreateTask (st_trace st') = 1%nat
        /\ (fetches GhCreateIssue (st_trace st') <= 1)%nat
        /\ exists r1, states (st_store st') !! groupKeyFrom p = Some r1
             /\ count r1 = 1
             /\ (ids_returned w ->
                 truthy (clickup_task_id r1) = true
                 /\ (env_bool (V2.CREATE_GITHUB_ON_SENTRY env) false = true ->
                     truthy (issue_number r1) = true)))
     (fun _ _ => True) (start s).
Proof.
  intros (G1 & G2 & G3 & G4 & G5 & G6 & G7 & G8) Htok Hlist Hnone.
  unfold V2.handleSentry. rewrite G1, G2, G3, G4, G5, G6, G7. cbn [negb orb].
  apply wp_bind, wp_lift. rewrite G8. cbn [negb]. key_guard.
  apply wp_bind, wp_state_get. cbn [st_store start]. rewrite Hnone.
  apply wp_bind, wp_nowIso.
  sentry_step.
  apply wp_bind. eapply wp_mono; [apply (cu_create w env _ _ _ None); auto | | intros; exact I].
  intros cu st2 (Hadd & Hcr & Hid). cbv beta.
  rewrite Hcr.
  repeat first
    [ exact I
    | lazymatch goal with
      | |- wp (bind (V2.githubCreateOrUpdateIssue _ _ _ _ _ _ _) _) _ _ _ =>
          apply wp_bind; eapply wp_mono;
          [apply gh_create; reflexivity | intros ? ? ? | intros; exact I]; cbv beta in *
      | _ => sentry_step
      end ].
  all: split; [reflexivity|].
  all: split; [tally|].
  all: split; [tally|].
  all: eexists; split; [lookup_gk; reflexivity|].
  all: split; [reflexivity|].
  all: cbn [clickup_task_id issue_number]; intros Hids; split; intros; try congruence;
    repeat match goal with H : _ /\ _ |- _ => destruct H end; subst; auto.
  all: try (unfold js_nullish_or; destruct (nullish (V2.task_id cu)) eqn:En; [|auto];
            specialize (Hid Hids); destruct (V2.task_id cu); simpl in *; congruence).
Qed.

(** A correlated delivery for a key whose record names a task (and an
    issue, when issues are opened with the alert): if it is answered, the
    answer is 200, nothing was created, and the record counts one
    occurrence more for the same task. *)
Lemma sentry_updated w env req p s r0 :
  correlated env req p ->
  states s !! groupKeyFrom p = Some r0 ->
  truthy (clickup_task_id r0) = true ->
  (env_bool (V2.CREATE_GITHUB_ON_SENTRY env) false = true -> truthy (issue_number r0) = true) ->
  wp (V2.handleSentry w env req)
     (fun rep st' =>
        status rep = 200
        /\ fetches CuCreateTask (st_trace st') = 0%nat
        /\ fetches GhCreateIssue (st_trace st') = 0%nat
        /\ exists r2, states (st_store st') !! groupKeyFrom p = Some r2
             /\ count r2 = count r0 + 1
             /\ clickup_task_id r2 = clickup_task_id r0
             /\ first_seen r2 = first_seen r0)
     (fun _ _ => True) (start s).
Proof.
  intros (G1 & G2 & G3 & G4 & G5 & G6 & G7 & G8) Hsome Hid Hnum.
  unfold V2.handleSentry. rewrite G1, G2, G3, G4, G5, G6, G7. cbn [negb orb].
  apply wp_bind, wp_lift. rewrite G8. cbn [negb]. key_guard.
  apply wp_bind, wp_state_get. cbn [st_store start]. rewrite Hsome.
  apply wp_bind, wp_ret.
  sentry_step.
  apply wp_bind.
  eapply wp_mono; [apply (cu_update w env _ _ _ (Some r0)); exact Hid | | intros; exact I].
  intros cu st2 (Hadd & Hcr & Hsame). cbv beta.
  rewrite Hcr. cbn [V2.prior_task_id] in Hsame.
  repeat first
    [ exact I
    | lazymatch goal with
      | |- wp (bind (V2.githubCreateOrUpdateIssue _ _ _ _ _ _ _) _) _ _ _ =>
          apply wp_bind; eapply wp_mono;
          [apply gh_patch; apply Hnum; first [assumption | reflexivity]
          | intros ? ? ? | intros; exact I];
          cbv beta in *
      | _ => sentry_step
      end ].
  all: split; [reflexivity|].
  all: split; [tally|].
  all: split; [tally|].
  all: eexists; split; [lookup_gk; reflexivity|].
  all: cbn [clickup_task_id count first_seen V2.prior_task_id]; auto.
Qed.

(** The first worker, for a key without a record: a success answer is a
    201 after one issue create, with a record of one occurrence. *)
Lemma v1_created w env req f s :
  correlated1 env req f -> states s !! key1 f = None ->
  wp (V1.fetch_handler w env req)
     (fun rep st' =>
        success rep = true ->
        status rep = 201
        /\ fetches GhCreateIssue (st_trace st') = 1%nat
        /\ exists r1, states (st_store st') !! key1 f = Some r1 /\ count r1 = 1)
     (fun _ _ => True) (start s).
Proof.
  intros G Hnone. v1_enter G. fold (key1 f). rewrite Hnone.
  repeat (wp_step; try exact I); intros Hs; try discriminate Hs.
  split; [reflexivity|]. split; [reflexivity|].
  eexists. split; [apply lookup_insert_eq | reflexivity].
Qed.

(** The first worker, for a key with a record: a success answer is a 200
    after one issue update and no create. *)
Lemma v1_updated w env req f s r0 :
  correlated1 env req f -> states s !! key1 f = Some r0 ->
  wp (V1.fetch_handler w env req)
     (fun rep st' =>
        success rep = true ->
        status rep = 200
        /\ fetches GhCreateIssue (st_trace st') = 0%nat
        /\ fetches GhPatchIssue (st_trace st') = 1%nat
        /\ exists r2, states (st_store st') !! key1 f = Some r2
             /\ count r2 = (if Z.eqb (count r0) 0 then 1 else count r0) + 1
             /\ issue_number r2 = issue_number r0
             /\ first_seen r2 = first_seen r0)
     (fun _ _ => True) (start s).
Proof.
  intros G Hsome. v1_enter G. fold (key1 f). rewrite Hsome.
  repeat (wp_step; try exact I); intros Hs; try discriminate Hs.
  split; [reflexivity|]. split; [reflexivity|]. split; [reflexivity|].
  eexists. split; [apply lookup_insert_eq | auto].
Qed.

(** C1 (as amended).  A correlated delivery is made twice in sequence to a
    store that holds no record for its grouping key, and both deliveries are
    answered with success; the ticket stores name what they create.  Then the first
    delivery is answered 201 after exactly one ticket create call, and the
    second is answered 200 without any create call: it reuses the stored
    ticket identifier, and the stored occurrence count is 2 after it.  This
    holds for the later worker (with ClickUp configured; at most one GitHub
    issue is created besides the task) and for the first worker. *)
Theorem replay_creates_once (w1 w2 : world) (s : store) :
  (forall env req p rep1 st1 rep2 st2,
     correlated env req p ->
     configured (V2.CLICKUP_TOKEN env) = true -> configured (V2.CLICKUP_LIST_ID env) = true ->
     states s !! groupKeyFrom p = None ->
     ids_returned w1 ->
     V2.handleSentry w1 env req (start s) = (Normal rep1, st1) ->
     V2.handleSentry w2 env req (start (st_store st1)) = (Normal rep2, st2) ->
     status rep1 = 201
     /\ fetches CuCreateTask (st_trace st1) = 1%nat
     /\ (fetches GhCreateIssue (st_trace st1) <= 1)%nat
     /\ status rep2 = 200
     /\ fetches CuCreateTask (st_trace st2) = 0%nat
     /\ fetches GhCreateIssue (st_trace st2) = 0%nat
     /\ exists r1 r2,
          states (st_store st1) !! groupKeyFrom p = Some r1
          /\ states (st_store st2) !! groupKeyFrom p = Some r2
          /\ clickup_task_id r2 = clickup_task_id r1
          /\ count r2 = 2)
  /\ (forall env req f rep1 st1 rep2 st2,
     correlated1 env req f ->
     states s !! key1 f = None ->
     V1.fetch_handler w1 env req (start s) = (Normal rep1, st1) -> success rep1 = true ->
     V1.fetch_handler w2 env req (start (st_store st1)) = (Normal rep2, st2) ->
     success rep2 = true ->
     status rep1 = 201
     /\ fetches GhCreateIssue (st_trace st1) = 1%nat
     /\ status rep2 = 200
     /\ fetches GhCreateIssue (st_trace st2) = 0%nat
     /\ fetches GhPatchIssue (st_trace st2) = 1%nat
     /\ exists r1 r2,
          states (st_store st1) !! key1 f = Some r1
          /\ states (st_store st2) !! key1 f = Some r2
          /\ issue_number r2 = issue_number r1
          /\ count r2 = 2).
Proof.
  split.
  - intros env req p rep1 st1 rep2 st2 Hc Htok Hlist Hnone Hids Hrun1 Hrun2.
    pose proof (wp_inv _ _ _ _ _ _ Hrun1 (sentry_created w1 env req p s Hc Htok Hlist Hnone))
      as (S1 & C1 & G1 & r1 & L1 & N1 & I1).
    destruct (I1 Hids) as [Hid Hnum].
    pose proof (wp_inv _ _ _ _ _ _ Hrun2
                  (sentry_updated w2 env req p (st_store st1) r1 Hc L1 Hid Hnum))
      as (S2 & C2 & G2 & r2 & L2 & N2 & T2 & F2).
    repeat split; auto. exists r1, r2. repeat split; auto. lia.
  - intros env req f rep1 st1 rep2 st2 Hc Hnone Hrun1 Hs1 Hrun2 Hs2.
    destruct (wp_inv _ _ _ _ _ _ Hrun1 (v1_created w1 env req f s Hc Hnone) Hs1)
      as (S1 & C1 & r1 & L1 & N1).
    destruct (wp_inv _ _ _ _ _ _ Hrun2 (v1_updated w2 env req f (st_store st1) r1 Hc L1) Hs2)
      as (S2 & C2 & P2 & r2 & L2 & N2 & I2 & F2).
    repeat split; auto. exists r1, r2. repeat split; auto.
    rewrite N2, N1. reflexivity.
Qed.

Lemma healthy_ids now : ids_returned (Scenario.healthy now).
Proof.
  intros rq res v Hh Hj. unfold Scenario.healthy in Hh. simpl in Hh.
  split; intros Hep; rewrite Hep in Hh; injection Hh as <-; injection Hj as <-;
    vm_compute; reflexivity.
Defined.

Lemma run_is {A} (m : M A) st r : fst (m st) = r -> m st = (r, snd (m st)).
Proof. intros <-. apply run_pair. Defined.

(** The event of the scenario, delivered at [T0] and again at [T1], to the
    later worker and to the first one. *)
Lemma replay_creates_once_witness :
  (fst Scenario.run1 = Normal Scenario.created_reply
   /\ fst Scenario.run2 = Normal Scenario.updated_reply
   /\ fetches CuCreateTask (st_trace (snd Scenario.run1)) = 1%nat
   /\ fetches CuCreateTask (st_trace (snd Scenario.run2)) = 0%nat
   /\ exists r2, states (st_store (snd Scenario.run2)) !! groupKeyFrom Scenario.ev0 = Some r2
        /\ count r2 = 2)
  /\ (fetches GhCreateIssue (st_trace (snd Scenario.first_run1)) = 1%nat
      /\ fetches GhCreateIssue (st_trace (snd Scenario.first_run2)) = 0%nat
      /\ exists r2, states (st_store (snd Scenario.first_run2)) !! key1 Scenario.fields0
                    = Some r2
           /\ count r2 = 2).
Proof.
  assert (H1 : fst Scenario.run1 = Normal Scenario.created_reply) by (vm_compute; reflexivity).
  assert (H2 : fst Scenario.run2 = Normal Scenario.updated_reply) by (vm_compute; reflexivity).
  assert (F1 : fst Scenario.first_run1
               = Normal (V1.text_reply (lit "Created issue #7") 201))
    by (vm_compute; reflexivity).
  assert (F2 : fst Scenario.first_run2
               = Normal (V1.text_reply (lit "Updated issue #7 (occurrences=2)") 200))
    by (vm_compute; reflexivity).
  split.
  - split; [exact H1|]. split; [exact H2|].
    destruct (proj1 (replay_creates_once Scenario.world0 Scenario.world1 empty_store)
                Scenario.env2 Scenario.req0 Scenario.ev0
                Scenario.created_reply (snd Scenario.run1)
                Scenario.updated_reply (snd Scenario.run2))
      as (_ & C1 & _ & _ & C2 & _ & r1 & r2 & _ & L2 & _ & N2).
    + repeat split; vm_compute; reflexivity.
    + vm_compute; reflexivity.
    + vm_compute; reflexivity.
    + apply lookup_empty.
    + apply healthy_ids.
    + apply (run_is _ _ _ H1).
    + apply (run_is _ _ _ H2).
    + split; [exact C1|]. split; [exact C2|]. exists r2. auto.
  - destruct (proj2 (replay_creates_once Scenario.world0 Scenario.world1 empty_store)
                Scenario.env1 Scenario.req0 Scenario.fields0
                (V1.text_reply (lit "Created issue #7") 201) (snd Scenario.first_run1)
                (V1.text_reply (lit "Updated issue #7 (occurrences=2)") 200)
                (snd Scenario.first_run2))
      as (_ & C1 & _ & C2 & _ & r1 & r2 & _ & L2 & _ & N2).
    + repeat split; try (vm_compute; reflexivity). vm_compute. discriminate.
    + apply lookup_empty.
    + apply (run_is _ _ _ F1).
    + vm_compute; reflexivity.
    + apply (run_is _ _ _ F2).
    + vm_compute; reflexivity.
    + split; [exact C1|]. split; [exact C2|]. exists r2. auto.
Defined.

(** C1, as first stated, fails in the later worker: with no ClickUp
    target configured (and issues not opened with the alert) a correlated
    delivery creates no ticket at all.  Both deliveries of the scenario are
    answered 200, and the first has made no create call. *)
Lemma replay_without_ticket_store :
  ~ (forall (w1 w2 : world) env req p rep1 st1 rep2 st2,
       correlated env req p ->
       states empty_store !! groupKeyFrom p = None ->
       V2.handleSentry w1 env req (start empty_store) = (Normal rep1, st1) ->
       V2.handleSentry w2 env req (start (st_store st1)) = (Normal rep2, st2) ->
       (fetches CuCreateTask (st_trace st1) + fetches GhCreateIssue (st_trace st1) = 1)%nat)
  /\ (fst (V2.handleSentry Scenario.world0 Cases.github_only Scenario.req0 (start empty_store))
      = Normal (ok (lit "ClickUp task (none) updated (occurrence 1).") 200)
      /\ fetches CuCreateTask
           (st_trace (snd (V2.handleSentry Scenario.world0 Cases.github_only Scenario.req0
                             (start empty_store)))) = 0%nat
      /\ fetches GhCreateIssue
           (st_trace (snd (V2.handleSentry Scenario.world0 Cases.github_only Scenario.req0
                             (start empty_store)))) = 0%nat).
Proof.
  assert (E1 : fst (V2.handleSentry Scenario.world0 Cases.github_only Scenario.req0
                      (start empty_store))
               = Normal (ok (lit "ClickUp task (none) updated (occurrence 1).") 200))
    by (vm_compute; reflexivity).
  split; [|split; [exact E1 | split; vm_compute; reflexivity]].
  intros H.
  assert (E2 : fst (V2.handleSentry Scenario.world1 Cases.github_only Scenario.req0
                      (start (st_store (snd (V2.handleSentry Scenario.world0 Cases.github_only
                                               Scenario.req0 (start empty_store))))))
               = Normal (ok (lit "ClickUp task (none) updated (occurrence 2).") 200))
    by (vm_compute; reflexivity).
  assert (Hc : correlated Cases.github_only Scenario.req0 Scenario.ev0)
    by (repeat split; vm_compute; reflexivity).
  pose proof (H Scenario.world0 Scenario.world1 Cases.github_only Scenario.req0 Scenario.ev0
                _ _ _ _ Hc (lookup_empty _) (run_is _ _ _ E1) (run_is _ _ _ E2)) as K.
  vm_compute in K. discriminate K.
Qed.

(* --------------------------------------------------------------------- *)
(** ** Best-effort comments *)
(* --------------------------------------------------------------------- *)

Section Rel.
Context (w w' : world) (Hagree : agree w w').

Lemma rel_ret {A} (a : A) : rel (ret a) (ret a).
Proof. intros st st' H. auto. Qed.

Lemma rel_throw {A} e : rel (@throw A e) (throw e).
Proof. intros st st' H. auto. Qed.

Lemma rel_lift {A} (c : completion A) : rel (lift c) (lift c).
Proof. intros st st' H. auto. Qed.

Lemma rel_bind {A B} (m m' : M A) (k k' : A -> M B) :
  rel m m' -> (forall a, rel (k a) (k' a)) -> rel (bind m k) (bind m' k').
Proof.
  intros Hm Hk st st' H. destruct (Hm st st' H) as [E S]. unfold bind.
  destruct (m st) as [[a|e] s1], (m' st') as [[a'|e'] s1']; simpl in *; try discriminate.
  - injection E as <-. apply Hk, S.
  - injection E as <-. auto.
Qed.

(** Logging keeps two states related, on either side. *)
Lemma rel_console a b : rel (console a) (console b).
Proof. intros st st' H. split; [reflexivity | exact H]. Qed.

Lemma rel_console_l a : rel (console a) (ret tt).
Proof. intros st st' H. split; [reflexivity | exact H]. Qed.

Lemma rel_console_r a : rel (ret tt) (console a).
Proof. intros st st' H. split; [reflexivity | exact H]. Qed.

Lemma rel_nowIso : rel (nowIso w) (nowIso w').
Proof.
  intros st st' (H1 & H2 & H3). unfold nowIso, sim. simpl.
  rewrite H3, (proj1 Hagree). auto.
Qed.

Lemma rel_state_get k : rel (state_get k) (state_get k).
Proof. intros st st' (H1 & H2 & H3). unfold state_get, sim. simpl. rewrite H1, H2. auto. Qed.

Lemma rel_state_put k r t : rel (state_put k r t) (state_put k r t).
Proof. intros st st' (H1 & H2 & H3). unfold state_put, sim. simpl. rewrite H1, H2. auto. Qed.

Lemma rel_standards_get : rel standards_get standards_get.
Proof.
  intros st st' (H1 & H2 & H3). unfold standards_get, sim. simpl. rewrite H1, H2. auto.
Qed.

Lemma rel_res_json r : rel (res_json r) (res_json r).
Proof. unfold res_json. destruct (rs_json r); [apply rel_ret | apply rel_throw]. Qed.

(** Any other call is answered alike in both worlds. *)
Lemma rel_fetch rq : is_comment (rq_endpoint rq) = false -> rel (fetch w rq) (fetch w' rq).
Proof.
  intros Hc st st' (H1 & H2 & H3). pose proof (proj2 Hagree rq) as E. rewrite Hc in E.
  unfold fetch, sim. rewrite <- E, H1, H2, H3. destruct (http w rq); simpl; auto.
Qed.

(** A comment call, whose answer only decides whether a warning is
    logged. *)
Lemma rel_fetch_comment {A} rq (k k' : response -> M A) :
  is_comment (rq_endpoint rq) = true ->
  (forall r r', rel (k r) (k' r')) ->
  rel (bind (fetch w rq) k) (bind (fetch w' rq) k').
Proof.
  intros Hc Hk st st' (H1 & H2 & H3). pose proof (proj2 Hagree rq) as E. rewrite Hc in E.
  destruct E as [E1 E2]. unfold bind, fetch.
  destruct (http w rq) as [r|]; [|congruence]. destruct (http w' rq) as [r'|]; [|congruence].
  apply Hk. unfold sim. simpl. rewrite H1, H2, H3. auto.
Qed.
End Rel.

Ltac rel_step Hagree :=
  lazymatch goal with
  | |- rel (bind (fetch _ ?rq) _) (bind (fetch _ ?rq) _) =>
      first [ apply (rel_fetch_comment _ _ Hagree); [reflexivity | intros ? ?]
            | apply rel_bind; [apply (rel_fetch _ _ Hagree); reflexivity | intros ?] ]
  | |- rel (bind _ _) (bind _ _) => apply rel_bind; [| intros ?]
  | |- rel (ret _) (ret _) => apply rel_ret
  | |- rel (throw _) (throw _) => apply rel_throw
  | |- rel (lift _) (lift _) => apply rel_lift
  | |- rel (console _) (console _) => apply rel_console
  | |- rel (console _) (ret tt) => apply rel_console_l
  | |- rel (ret tt) (console _) => apply rel_console_r
  | |- rel (nowIso _) (nowIso _) => apply (rel_nowIso _ _ Hagree)
  | |- rel (state_get _) (state_get _) => apply rel_state_get
  | |- rel (state_put _ _ _) (state_put _ _ _) => apply rel_state_put
  | |- rel standards_get standards_get => apply rel_standards_get
  | |- rel V2.getStandards V2.getStandards => apply rel_standards_get
  | |- rel (res_json _) (res_json _) => apply rel_res_json
  | |- rel (if ?c then _ else _) (if ?c then _ else _) => destruct c
  | |- rel (if ?c then _ else _) (if ?c' then _ else _) => destruct c, c'
  | |- rel (match ?c with _ => _ end) (match ?c with _ => _ end) => destruct c
  end.

Section Handlers.
Context (w w' : world) (Hagree : agree w w').

Lemma rel_ai env p : rel (V2.aiSummarize w env p) (V2.aiSummarize w' env p).
Proof. unfold V2.aiSummarize. repeat rel_step Hagree. Qed.

Lemma rel_cu env gk p ai prior :
  rel (V2.clickupCreateOrUpdate w env gk p ai prior)
      (V2.clickupCreateOrUpdate w' env gk p ai prior).
Proof. unfold V2.clickupCreateOrUpdate. repeat rel_step Hagree. Qed.

Lemma rel_gh env gk p ai std ex :
  rel (V2.githubCreateOrUpdateIssue w env gk p ai std ex)
      (V2.githubCreateOrUpdateIssue w' env gk p ai std ex).
Proof. unfold V2.githubCreateOrUpdateIssue. repeat rel_step Hagree. Qed.

Lemma rel_comment env id c :
  rel (V2.clickupAddComment w env id c) (V2.clickupAddComment w' env id c).
Proof. unfold V2.clickupAddComment. repeat rel_step Hagree. Qed.

Ltac handler_step :=
  lazymatch goal with
  | |- rel (bind (V2.aiSummarize _ _ _) _) _ => apply rel_bind; [apply rel_ai | intros ?]
  | |- rel (bind (V2.clickupCreateOrUpdate _ _ _ _ _ _) _) _ =>
      apply rel_bind; [apply rel_cu | intros ?]
  | |- rel (bind (V2.githubCreateOrUpdateIssue _ _ _ _ _ _ _) _) _ =>
      apply rel_bind; [apply rel_gh | intros ?]
  | |- rel (bind (V2.clickupAddComment _ _ _ _) _) _ =>
      apply rel_bind; [apply rel_comment | intros ?]
  | |- rel (V2.clickupAddComment _ _ _ _) _ => apply rel_comment
  | _ => rel_step Hagree
  end.

Lemma rel_handleSentry env req : rel (V2.handleSentry w env req) (V2.handleSentry w' env req).
Proof. unfold V2.handleSentry. repeat handler_step. Qed.

Lemma rel_handleClickUp env req :
  rel (V2.handleClickUp w env req) (V2.handleClickUp w' env req).
Proof. unfold V2.handleClickUp, V2.get_task_request. repeat handler_step. Qed.
End Handlers.

Lemma sim_start s : sim (start s) (start s).
Proof. repeat split. Qed.

(** A refused cross-reference comment is logged, and [clickupAddComment]
    returns. *)
Lemma add_comment_refused w env id c st :
  configured (V2.CLICKUP_TOKEN env) = true ->
  exists rq, rq_endpoint rq = CuAddComment /\
    forall res, http w rq = Some res -> rs_ok res = false ->
      V2.clickupAddComment w env id c st
      = (Normal tt,
         logged (push st (EvFetch rq))
           (lit "ClickUp add comment failed:" ++ lit " " ++ num_to_string (rs_status res)
              ++ lit " " ++ rs_text res)).
Proof.
  intros Hcfg. unfold V2.clickupAddComment. rewrite Hcfg. cbn [negb].
  eexists. split; cycle 1.
  - intros res Hh Hok. unfold bind, fetch. rewrite Hh, Hok. reflexivity.
  - reflexivity.
Qed.

(** A refused repeat-occurrence comment is logged, and
    [clickupCreateOrUpdate] returns the stored task as updated. *)
Lemma repeat_comment_refused w env gk p ai prior d st :
  configured (V2.CLICKUP_TOKEN env) = true -> configured (V2.CLICKUP_LIST_ID env) = true ->
  V2.task_description gk p ai = Normal d ->
  truthy (V2.prior_task_id prior) = true ->
  env_bool (V2.UPDATE_CLICKUP_ON_REPEAT env) true = true ->
  exists rq, rq_endpoint rq = CuComment /\
    forall res, http w rq = Some res -> rs_ok res = false ->
      V2.clickupCreateOrUpdate w env gk p ai prior st
      = (Normal (V2.mkCu false (V2.prior_task_id prior)),
         logged (push (ticked st) (EvFetch rq))
           (lit "ClickUp comment failed:" ++ lit " " ++ num_to_string (rs_status res)
              ++ lit " " ++ rs_text res)).
Proof.
  intros Htok Hlist Hd Hid Hflag. unfold V2.clickupCreateOrUpdate.
  rewrite Htok, Hlist, Hd, Hid, Hflag. cbn [negb orb].
  eexists. split; cycle 1.
  - intros res Hh Hok.
    unfold bind, lift, nowIso, fetch. cbn [st_store st_trace st_log st_ticks].
    rewrite Hh, Hok. reflexivity.
  - reflexivity.
Qed.


Lemma comments_refused_agree : agree Scenario.comments_refused Scenario.world1.
Proof.
  split; [reflexivity|]. intros rq. unfold Scenario.comments_refused. simpl.
  destruct (is_comment (rq_endpoint rq)) eqn:E; [|reflexivity].
  split; [discriminate|]. destruct (rq_endpoint rq); discriminate.
Defined.


(* --------------------------------------------------------------------- *)
(** ** Test pings *)
(* --------------------------------------------------------------------- *)

Lemma has_key_assoc k fields : has_key k fields = false -> assoc (lit k) fields = VUndef.
Proof.
  unfold has_key. induction fields as [|[k' v] fields IH]; simpl; intros H; [reflexivity|].
  apply orb_false_elim in H as [H1 H2]. rewrite H1. auto.
Qed.

(** The guard classifies such an object as a ping. *)
Lemma small_object_is_ping fields :
  (length fields <= 2)%nat ->
  has_key "issue" fields = false -> has_key "event" fields = false ->
  has_key "data" fields = false ->
  is_ping (VObj fields) = Some true.
Proof.
  intros Hl H1 H2 H3. unfold is_ping, object_keys_length, prop.
  rewrite (has_key_assoc _ _ H1), (has_key_assoc _ _ H2), (has_key_assoc _ _ H3).
  apply Nat.leb_le in Hl. rewrite Hl. reflexivity.
Qed.

(** C8 (as amended).  A POST to the event endpoint that passes the token
    check and carries an object with two or fewer top-level fields, none of
    them named issue, event or data, is answered 200 "ok" without any
    correlation-store access and without any outbound call: by the first
    worker always, and by the later worker when its GitHub target is
    configured (it checks that before it looks at the payload). *)
Theorem ping_acknowledged (w : world) (s : store) (req : inbound)
    (fields : list (jsstring * jsval)) :
  in_json req = Some (VObj fields) ->
  (length fields <= 2)%nat ->
  has_key "issue" fields = false -> has_key "event" fields = false ->
  has_key "data" fields = false ->
  jsstring_eqb (in_method req) (lit "POST") = true ->
  jsstring_eqb (in_path req) (lit "/webhooks/sentry") = true ->
  (forall env,
     token_mismatch (V1.SENTRY_SHARED_TOKEN env) (in_token req) = false ->
     exists st',
       V1.fetch_handler w env req (start s) = (Normal (V1.text_reply (lit "ok") 200), st')
       /\ st_trace st' = [] /\ st_store st' = s)
  /\ (forall env,
     token_mismatch (V2.SENTRY_SHARED_TOKEN env) (in_token req) = false ->
     configured (V2.GITHUB_REPO env) = true -> configured (V2.GITHUB_TOKEN env) = true ->
     exists st',
       V2.handleSentry w env req (start s) = (Normal (ok (lit "ok") 200), st')
       /\ st_trace st' = [] /\ st_store st' = s).
Proof.
  intros Hj Hl H1 H2 H3 Hm Hp.
  assert (Hping : is_ping (json_or_empty req) = Some true).
  { unfold json_or_empty. rewrite Hj. apply small_object_is_ping; assumption. }
  split; intros env Htok.
  - unfold V1.fetch_handler. rewrite Htok, Hm, Hp, Hping. cbn [negb orb].
    eexists. split; [reflexivity|]. split; reflexivity.
  - intros Hrepo Hgh. unfold V2.handleSentry.
    rewrite Htok, Hm, Hp, Hrepo, Hgh, Hping. cbn [negb orb].
    eexists. split; [reflexivity|]. split; reflexivity.
Qed.

(** The empty object, sent to the later worker of the scenario. *)
Lemma ping_acknowledged_witness :
  fst (V2.handleSentry Scenario.world0 Scenario.env2 Scenario.ping (start empty_store))
  = Normal (ok (lit "ok") 200).
Proof.
  destruct (proj2 (ping_acknowledged Scenario.world0 empty_store Scenario.ping []
                     eq_refl (Nat.le_0_l 2) eq_refl eq_refl eq_refl eq_refl eq_refl)
              Scenario.env2 eq_refl eq_refl eq_refl)
    as (st' & H & _).
  rewrite H. reflexivity.
Defined.

(** C8, as first stated, fails in the later worker: without a GitHub
    target the ping is answered 500. *)
Lemma ping_of_unconfigured_worker :
  ~ (forall w env req s fields,
       in_json req = Some (VObj fields) ->
       (length fields <= 2)%nat ->
       has_key "issue" fields = false -> has_key "event" fields = false ->
       has_key "data" fields = false ->
       jsstring_eqb (in_method req) (lit "POST") = true ->
       jsstring_eqb (in_path req) (lit "/webhooks/sentry") = true ->
       token_mismatch (V2.SENTRY_SHARED_TOKEN env) (in_token req) = false ->
       fst (V2.handleSentry w env req (start s)) = Normal (ok (lit "ok") 200)).
Proof.
  intros H.
  specialize (H Scenario.world0 Scenario.env2_no_github Scenario.ping empty_store []
                eq_refl (Nat.le_0_l 2) eq_refl eq_refl eq_refl eq_refl eq_refl eq_refl).
  vm_compute in H. discriminate H.
Qed.

(* --------------------------------------------------------------------- *)
(** ** Notifications that do not escalate *)
(* --------------------------------------------------------------------- *)




(* ===================================================================== *)
(** * Further properties *)
(* ===================================================================== *)

(* --------------------------------------------------------------------- *)
(** ** Strings *)
(* --------------------------------------------------------------------- *)

Lemma jsstring_eqb_eq a b : jsstring_eqb a b = true <-> a = b.
Proof.
  revert b. induction a as [|x a IH]; intros [|y b]; simpl; split; intros H;
    try reflexivity; try discriminate.
  - apply andb_prop in H as [H1 H2]. apply N.eqb_eq in H1. apply IH in H2. congruence.
  - injection H as -> ->. rewrite N.eqb_refl. apply IH. reflexivity.
Qed.

Lemma jsstring_eqb_refl a : jsstring_eqb a a = true.
Proof. apply jsstring_eqb_eq. reflexivity. Qed.

Lemma jsstring_eqb_neq a b : a <> b -> jsstring_eqb a b = false.
Proof.
  intros H. destruct (jsstring_eqb a b) eqn:E; [|reflexivity].
  apply jsstring_eqb_eq in E. contradiction.
Qed.

Lemma starts_with_app p s : starts_with p (p ++ s) = true.
Proof. induction p as [|x p IH]; simpl; [reflexivity|]. rewrite N.eqb_refl. exact IH. Qed.

Lemma skipn_length_app {A} (p s : list A) : skipn (length p) (p ++ s) = s.
Proof. induction p; simpl; auto. Qed.

Lemma take_while_until (f : jschar -> bool) e c rest :
  forallb f e = true -> f c = false -> take_while f (e ++ c :: rest) = e.
Proof.
  intros He Hc. induction e as [|x e IH]; simpl in *.
  - rewrite Hc. reflexivity.
  - apply andb_prop in He as [Hx He]. rewrite Hx. f_equal. apply IH. exact He.
Qed.

Lemma drop_while_head f s :
  match drop_while f s with [] => True | c :: _ => f c = false end.
Proof.
  induction s as [|c s IH]; simpl; [exact I|].
  destruct (f c) eqn:E; [exact IH | exact E].
Qed.

Lemma drop_while_suffix f s : exists pre, s = pre ++ drop_while f s.
Proof.
  induction s as [|c s [pre IH]]; simpl; [exists []; reflexivity|].
  destruct (f c); [exists (c :: pre); simpl; congruence | exists []; reflexivity].
Qed.

Lemma drop_while_fixed f s :
  match s with [] => True | c :: _ => f c = false end -> drop_while f s = s.
Proof. destruct s as [|c s]; simpl; [reflexivity|]. intros ->. reflexivity. Qed.

(** [trim] leaves a trimmed text as it is. *)
Lemma trim_trim s : trim (trim s) = trim s.
Proof.
  unfold trim, trim_end, trim_start.
  set (a := drop_while is_space s). set (b := drop_while is_space (rev a)).
  assert (Hb : drop_while is_space b = b).
  { apply drop_while_fixed. apply drop_while_head. }
  assert (Hr : drop_while is_space (rev b) = rev b).
  { apply drop_while_fixed. destruct (rev b) as [|c t] eqn:E; [exact I|].
    destruct (drop_while_suffix is_space (rev a)) as [pre Hpre]. fold b in Hpre.
    apply (f_equal (@rev jschar)) in Hpre. rewrite rev_involutive, rev_app_distr, E in Hpre.
    pose proof (drop_while_head is_space s) as Ha. fold a in Ha. rewrite Hpre in Ha.
    exact Ha. }
  rewrite Hr, rev_involutive, Hb. reflexivity.
Qed.

Lemma search_head {A} (f : jsstring -> option A) s a : f s = Some a -> search f s = Some a.
Proof. intros H. destruct s; simpl; rewrite H; reflexivity. Qed.

(** The search passes over code units at which the pattern cannot start. *)
Lemma search_skip_if {A} (f : jsstring -> option A) (skip : jschar -> bool) lead s :
  (forall c r, skip c = true -> f (c :: r) = None) -> forallb skip lead = true ->
  search f (lead ++ s) = search f s.
Proof.
  intros Hf. induction lead as [|c lead IH]; intros Hl; [reflexivity|].
  cbn [forallb] in Hl. apply andb_prop in Hl as [Hc Hl].
  cbn [app]. rewrite search_step, Hf by exact Hc. apply IH. exact Hl.
Qed.

Lemma search_found {A} (f : jsstring -> option A) pre s :
  f s <> None -> search f (pre ++ s) <> None.
Proof.
  intros H. induction pre as [|c pre IH]; cbn [app].
  - destruct s; simpl; destruct (f _); congruence.
  - rewrite search_step. destruct (f (c :: pre ++ s)); [discriminate | exact IH].
Qed.

(** [split] at a separator of one code unit. *)
Lemma split_go_piece x o s cur :
  forallb (fun c => negb (N.eqb c x)) o = true ->
  split_go [x] (o ++ x :: s) 0 cur = (cur ++ o) :: split_go [x] s 0 [].
Proof.
  revert cur. induction o as [|c o IH]; intros cur Ho.
  - cbn [app split_go starts_with]. rewrite N.eqb_refl, app_nil_r. reflexivity.
  - cbn [forallb] in Ho. apply andb_prop in Ho as [Hc Ho].
    apply negb_true_iff in Hc. cbn [app split_go starts_with].
    rewrite N.eqb_sym, Hc. cbn [andb]. rewrite IH by exact Ho.
    rewrite <- app_assoc. reflexivity.
Qed.

Lemma split_go_whole x o cur :
  forallb (fun c => negb (N.eqb c x)) o = true -> split_go [x] o 0 cur = [cur ++ o].
Proof.
  revert cur. induction o as [|c o IH]; intros cur Ho.
  - cbn [split_go]. rewrite app_nil_r. reflexivity.
  - cbn [forallb] in Ho. apply andb_prop in Ho as [Hc Ho].
    apply negb_true_iff in Hc. cbn [split_go starts_with].
    rewrite N.eqb_sym, Hc. cbn [andb]. rewrite IH by exact Ho.
    rewrite <- app_assoc. reflexivity.
Qed.

Lemma split_go_nonempty sep s k cur : split_go sep s k cur <> [].
Proof.
  revert k cur. induction s as [|c s IH]; intros k cur; cbn [split_go]; [discriminate|].
  destruct k; [|apply IH]. destruct (starts_with sep (c :: s)); [discriminate | apply IH].
Qed.

Lemma split_go_last x a b cur :
  forallb (fun c => negb (N.eqb c x)) b = true ->
  List.last (split_go [x] (a ++ x :: b) 0 cur) [] = b.
Proof.
  intros Hb. revert cur. induction a as [|c a IH]; intros cur.
  - cbn [app split_go starts_with]. rewrite N.eqb_refl. cbn [length Nat.sub].
    rewrite split_go_whole by exact Hb. reflexivity.
  - cbn [app split_go starts_with]. destruct (N.eqb x c).
    + cbn [length Nat.sub]. specialize (IH []).
      pose proof (split_go_nonempty [x] (a ++ x :: b) 0 []) as Hn.
      destruct (split_go [x] (a ++ x :: b) 0 []) eqn:E; [congruence | exact IH].
    + apply IH.
Qed.

(** The last piece is what follows the last separator. *)
Lemma split_pop_last_piece x a b :
  forallb (fun c => negb (N.eqb c x)) b = true -> split_pop [x] (a ++ x :: b) = b.
Proof. intros Hb. unfold split_pop, split. apply split_go_last. exact Hb. Qed.

Lemma join_cons sep x xs : exists post, join sep (x :: xs) = x ++ post.
Proof.
  destruct xs as [|y xs]; [exists []; simpl; rewrite app_nil_r; reflexivity|].
  exists (sep ++ join sep (y :: xs)). reflexivity.
Qed.

(** A joined text holds each of its pieces. *)
Lemma join_holds sep h xs : In h xs -> exists pre post, join sep xs = pre ++ h ++ post.
Proof.
  induction xs as [|x xs IH]; intros Hin; [destruct Hin|].
  destruct Hin as [-> | Hin].
  - destruct (join_cons sep h xs) as [post E]. exists [], post. exact E.
  - destruct (IH Hin) as (pre & post & E). destruct xs as [|y xs]; [destruct Hin|].
    exists (x ++ sep ++ pre), post.
    change (join sep (x :: y :: xs)) with (x ++ sep ++ join sep (y :: xs)).
    rewrite E, <- !app_assoc. reflexivity.
Qed.

(** What a weakest precondition says of the state a run ends in. *)
Lemma wp_snd {A} (m : M A) (R : run_state -> Prop) st :
  wp m (fun _ st' => R st') (fun _ st' => R st') st -> R (snd (m st)).
Proof. unfold wp. destruct (m st) as [[a|e] st']; exact id. Qed.

Lemma wp_standards_put rec (Qn : unit -> run_state -> Prop)
    (Qe : jsstring -> run_state -> Prop) st :
  Qn tt (mkRun (mkStore (states (st_store st)) (Some rec))
               (st_trace st ++ [EvPutStandards rec]) (st_log st) (st_ticks st)) ->
  wp (standards_put rec) Qn Qe st.
Proof. exact id. Qed.

(* --------------------------------------------------------------------- *)
(** ** The normalised event *)
(* --------------------------------------------------------------------- *)

Lemma or_chain_truthy xs z : truthy z = true -> truthy (or_chain xs z) = true.
Proof.
  intros Hz. induction xs as [|x xs IH]; simpl; [exact Hz|].
  unfold js_or. destruct (truthy x) eqn:E; [exact E | exact IH].
Qed.

Lemma or_chain_falsy xs z : truthy (or_chain xs z) = false -> or_chain xs z = z.
Proof.
  induction xs as [|x xs IH]; simpl; [reflexivity|].
  unfold js_or. destruct (truthy x) eqn:E; [congruence | exact IH].
Qed.

Lemma top_frames_length k payload fs :
  top_frames k payload = Normal fs -> (length fs <= k)%nat.
Proof.
  unfold top_frames. destruct (framesList payload); try discriminate.
  intros H. apply Normal_inj in H. subst fs.
  rewrite length_rev. unfold slice_last. rewrite length_skipn. lia.
Qed.

(** X1.  Whatever the payload, the event that either worker normalises it
    to has a truthy project, environment and title (the defaults fill in),
    an issue id that is truthy or [null], and, in the later worker, a
    link that is truthy or empty and at most eight frames; in the first
    worker the link is truthy. *)
Theorem normalised_defaults payload :
  (forall p, V2.parseSentry payload = Normal p ->
     truthy (projectSlug p) = true /\ truthy (environment p) = true
     /\ truthy (title p) = true
     /\ (truthy (sentryIssueId p) = false -> sentryIssueId p = VNull)
     /\ (truthy (permalink p) = false -> permalink p = VStr [])
     /\ (length (frames p) <= 8)%nat)
  /\ (forall f, V1.normalize payload = Normal f ->
     truthy (V1.f_project f) = true /\ truthy (V1.f_environment f) = true
     /\ truthy (V1.f_title f) = true /\ truthy (V1.f_permalink f) = true
     /\ (truthy (V1.f_issue_id f) = false -> V1.f_issue_id f = VNull)).
Proof.
  split.
  - intros p. unfold V2.parseSentry.
    destruct (top_frames 8 payload) as [fs|e] eqn:E; [|discriminate].
    intros H. apply Normal_inj in H. subst p. cbn [projectSlug environment title
      sentryIssueId permalink frames].
    refine (conj _ (conj _ (conj _ (conj _ (conj _ _))))).
    + apply or_chain_truthy. vm_compute. reflexivity.
    + apply or_chain_truthy. vm_compute. reflexivity.
    + apply or_chain_truthy. vm_compute. reflexivity.
    + apply or_chain_falsy.
    + apply or_chain_falsy.
    + eapply top_frames_length; eauto.
  - intros f. unfold V1.normalize. destruct (V1.framesBlock payload); [|discriminate].
    destruct (negb _); [discriminate|].
    intros H. apply Normal_inj in H. subst f.
    cbn [V1.f_project V1.f_environment V1.f_title V1.f_permalink V1.f_issue_id].
    refine (conj _ (conj _ (conj _ (conj _ _)))).
    + apply or_chain_truthy. vm_compute. reflexivity.
    + apply or_chain_truthy. vm_compute. reflexivity.
    + apply or_chain_truthy. vm_compute. reflexivity.
    + apply or_chain_truthy. vm_compute. reflexivity.
    + apply or_chain_falsy.
Qed.

(** The payload of the scenario names no link: the later worker leaves it
    empty. *)
Lemma normalised_defaults_witness :
  V2.parseSentry Scenario.payload0 = Normal Scenario.ev0
  /\ truthy (projectSlug Scenario.ev0) = true
  /\ permalink Scenario.ev0 = VStr [].
Proof.
  assert (H : V2.parseSentry Scenario.payload0 = Normal Scenario.ev0)
    by (vm_compute; reflexivity).
  destruct (proj1 (normalised_defaults Scenario.payload0) Scenario.ev0 H)
    as (Hp & _ & _ & _ & Hl & _).
  split; [exact H|]. split; [exact Hp|]. apply Hl. reflexivity.
Defined.

(* --------------------------------------------------------------------- *)
(** ** The frames block *)
(* --------------------------------------------------------------------- *)

Lemma frame_lines_spec fs :
  match frame_lines fs with
  | Normal ls => forallb frame_renders fs = true /\ length ls = length fs
  | Thrown e => forallb frame_renders fs = false /\ e = type_error
  end.
Proof.
  induction fs as [|f fs IH]; [simpl; auto|].
  cbn [frame_lines forallb]. unfold frame_line at 1, frame_renders at 1 3.
  destruct (nullish f) eqn:Ef; cbn [negb andb]; [auto|].
  destruct (forallb printable _) eqn:Ep; cbn [negb andb]; [|auto].
  destruct (frame_lines fs) as [ls|e]; destruct IH as [IH1 IH2]; simpl; auto.
Qed.

Lemma frame_lines_fail fs :
  forallb frame_renders fs = false -> frame_lines fs = Thrown type_error.
Proof.
  intros H. pose proof (frame_lines_spec fs) as S.
  destruct (frame_lines fs) as [ls|e]; destruct S as [S1 S2]; congruence.
Qed.

Lemma buildFramesMarkdown_fail fs :
  forallb frame_renders fs = false -> V2.buildFramesMarkdown fs = Thrown type_error.
Proof.
  intros H. unfold V2.buildFramesMarkdown. rewrite (frame_lines_fail fs H).
  destruct fs; [discriminate H | reflexivity].
Qed.

(** X2.  [buildFramesMarkdown] throws a [TypeError] exactly when one of the
    frames cannot be rendered: it is [null] or [undefined], or it holds
    under [module], [filename], [lineno] or [function] a value that cannot
    be converted to a string.  Otherwise it gives the empty string for no
    frames, and for some frames the details block with one line for each
    frame. *)
Theorem frames_block_rendering fs :
  match V2.buildFramesMarkdown fs with
  | Thrown e => forallb frame_renders fs = false /\ e = type_error
  | Normal md =>
      forallb frame_renders fs = true
      /\ (fs = [] -> md = [])
      /\ (fs <> [] -> exists lines,
            length lines = length fs
            /\ md = frames_open ++ join nl lines ++ frames_close)
  end.
Proof.
  unfold V2.buildFramesMarkdown. destruct fs as [|f fs].
  - simpl. refine (conj eq_refl (conj (fun _ => eq_refl) _)). congruence.
  - pose proof (frame_lines_spec (f :: fs)) as H.
    destruct (frame_lines (f :: fs)) as [ls|e]; [|exact H].
    destruct H as [H1 H2]. refine (conj H1 (conj _ _)); [discriminate|].
    intros _. exists ls. auto.
Qed.

(** The prompt of an event with such a frame is not rendered. *)
Lemma ai_prompt_fail p :
  forallb frame_renders (frames p) = false -> V2.ai_prompt p = Thrown type_error.
Proof.
  intros H. unfold V2.ai_prompt. rewrite (buildFramesMarkdown_fail _ H).
  destruct (negb _); reflexivity.
Qed.

(** X3.  A frame that cannot be rendered (a [null] frame, say) aborts the
    delivery with a [TypeError].  The later worker, when the project, the
    environment and the issue id can be converted to the grouping key, has
    then read the record of the key and nothing else: no call was made and
    nothing was written; when they cannot, it has not even read the
    record.  The first worker, which renders its four top frames before it
    looks at the store, has done nothing at all. *)
Theorem null_frame_aborts w s req :
  (forall env p,
     correlated env req p -> forallb frame_renders (frames p) = false ->
     fst (V2.handleSentry w env req (start s)) = Thrown type_error
     /\ st_store (snd (V2.handleSentry w env req (start s))) = s
     /\ st_trace (snd (V2.handleSentry w env req (start s)))
        = if printable_key (projectSlug p) (environment p) (sentryIssueId p)
          then [EvGet (groupKeyFrom p)] else [])
  /\ (forall env fs,
     token_mismatch (V1.SENTRY_SHARED_TOKEN env) (in_token req) = false ->
     in_method req = lit "POST" -> in_path req = lit "/webhooks/sentry" ->
     is_ping (json_or_empty req) = Some false ->
     configured (V1.GITHUB_REPO env) = true -> configured (V1.GITHUB_TOKEN env) = true ->
     V1.STATE env = true -> V1.owner_repo (env_or (V1.GITHUB_REPO env) []) <> None ->
     top_frames 4 (json_or_empty req) = Normal fs -> forallb frame_renders fs = false ->
     V1.fetch_handler w env req (start s) = (Thrown type_error, start s)).
Proof.
  split.
  - intros env p (G1 & G2 & G3 & G4 & G5 & G6 & G7 & G8) Hbad.
    assert (H : wp (V2.handleSentry w env req) (fun _ _ => False)
                  (fun e st' =>
                     e = type_error /\ st_store st' = s
                     /\ st_trace st'
                        = if printable_key (projectSlug p) (environment p) (sentryIssueId p)
                          then [EvGet (groupKeyFrom p)] else []) (start s)).
    { unfold V2.handleSentry. rewrite G1, G2, G3, G4, G5, G6, G7. cbn [negb orb].
      apply wp_bind, wp_lift. rewrite G8. cbn [negb].
      destruct (printable_key (projectSlug p) (environment p) (sentryIssueId p));
        cbn [negb]; [|apply wp_throw; auto].
      apply wp_bind, wp_state_get.
      apply wp_bind.
      assert (Hai : forall st, wp (V2.aiSummarize w env p) (fun _ _ => False)
                      (fun e st' => e = type_error /\ st' = st) st).
      { intros st. unfold V2.aiSummarize.
        rewrite (ai_prompt_fail _ Hbad). apply wp_bind, wp_lift. auto. }
      destruct (states (st_store (start s)) !! groupKeyFrom p).
      - apply wp_ret, wp_bind. eapply wp_mono; [apply Hai | intros ? ? [] |].
        intros e st' [-> ->]. repeat split.
      - apply wp_nowIso, wp_bind. eapply wp_mono; [apply Hai | intros ? ? [] |].
        intros e st' [-> ->]. repeat split. }
    unfold wp in H. destruct (V2.handleSentry w env req (start s)) as [[rep|e] st'];
      [destruct H | destruct H as (-> & H1 & H2); auto].
  - intros env fs G1 G2 G3 G4 G5 G6 G7 G8 Hf Hbad.
    unfold V1.fetch_handler. rewrite G1, G2, G3, G4, G5, G6, G7.
    replace (jsstring_eqb (lit "POST") (lit "POST")) with true by (vm_compute; reflexivity).
    replace (jsstring_eqb (lit "/webhooks/sentry") (lit "/webhooks/sentry")) with true
      by (vm_compute; reflexivity).
    cbn [negb orb].
    destruct (V1.owner_repo (env_or (V1.GITHUB_REPO env) [])) as [[owner repo]|]; [|congruence].
    unfold V1.normalize, V1.framesBlock. rewrite Hf, (frame_lines_fail fs Hbad). reflexivity.
Qed.

(** The alert of the scenario with [frames: [null]]. *)
Lemma null_frame_aborts_witness :
  fst (V2.handleSentry Scenario.world0 Scenario.env2 Cases.null_frame (start empty_store))
  = Thrown type_error
  /\ st_trace (snd (V2.handleSentry Scenario.world0 Scenario.env2 Cases.null_frame
                      (start empty_store)))
     = [EvGet Scenario.gk0].
Proof.
  destruct (proj1 (null_frame_aborts Scenario.world0 empty_store Cases.null_frame)
              Scenario.env2 Cases.ev_null_frame) as (H1 & _ & H2).
  - repeat split; vm_compute; reflexivity.
  - reflexivity.
  - split; [exact H1|]. rewrite H2. vm_compute. reflexivity.
Defined.

(** X4.  An alert that is normalised without a throw and names no issue
    (the issue id is falsy) is acknowledged with 200 and [ok (no issue id)]
    and dropped: the later worker does nothing else, the first worker logs
    a line, and neither reads the store, writes to it or calls a service.
    (The first worker renders the frames, the level and the culprit before
    it looks at the issue id, so its normalisation throws when one of them
    cannot be rendered.) *)
Theorem event_without_issue_id_is_dropped w s req :
  (forall env p,
     token_mismatch (V2.SENTRY_SHARED_TOKEN env) (in_token req) = false ->
     in_method req = lit "POST" -> in_path req = lit "/webhooks/sentry" ->
     configured (V2.GITHUB_REPO env) = true -> configured (V2.GITHUB_TOKEN env) = true ->
     is_ping (json_or_empty req) = Some false ->
     V2.parseSentry (json_or_empty req) = Normal p ->
     truthy (sentryIssueId p) = false ->
     V2.handleSentry w env req (start s) = (Normal (ok (lit "ok (no issue id)") 200), start s))
  /\ (forall env f,
     token_mismatch (V1.SENTRY_SHARED_TOKEN env) (in_token req) = false ->
     in_method req = lit "POST" -> in_path req = lit "/webhooks/sentry" ->
     is_ping (json_or_empty req) = Some false ->
     configured (V1.GITHUB_REPO env) = true -> configured (V1.GITHUB_TOKEN env) = true ->
     V1.STATE env = true -> V1.owner_repo (env_or (V1.GITHUB_REPO env) []) <> None ->
     V1.normalize (json_or_empty req) = Normal f ->
     truthy (V1.f_issue_id f) = false ->
     fst (V1.fetch_handler w env req (start s))
     = Normal (V1.text_reply (lit "ok (no issue id)") 200)
     /\ st_store (snd (V1.fetch_handler w env req (start s))) = s
     /\ st_trace (snd (V1.fetch_handler w env req (start s))) = []).
Proof.
  split.
  - intros env p G1 G2 G3 G4 G5 G6 G7 G8.
    unfold V2.handleSentry. rewrite G1, G2, G3, G4, G5, G6.
    replace (jsstring_eqb (lit "POST") (lit "POST")) with true by (vm_compute; reflexivity).
    replace (jsstring_eqb (lit "/webhooks/sentry") (lit "/webhooks/sentry")) with true
      by (vm_compute; reflexivity).
    cbn [negb orb]. unfold bind, lift. rewrite G7, G8. reflexivity.
  - intros env f G1 G2 G3 G4 G5 G6 G7 G8 G9 G10.
    unfold V1.fetch_handler. rewrite G1, G2, G3, G4, G5, G6, G7.
    replace (jsstring_eqb (lit "POST") (lit "POST")) with true by (vm_compute; reflexivity).
    replace (jsstring_eqb (lit "/webhooks/sentry") (lit "/webhooks/sentry")) with true
      by (vm_compute; reflexivity).
    cbn [negb orb].
    destruct (V1.owner_repo (env_or (V1.GITHUB_REPO env) [])) as [[owner repo]|]; [|congruence].
    unfold bind, lift. rewrite G9, G10. cbn. auto.
Qed.

(** An alert with a project, an environment and a title, and no issue. *)
Lemma event_without_issue_id_is_dropped_witness :
  V2.handleSentry Scenario.world0 Scenario.env2 Cases.no_issue_id
    (start Scenario.store_seen_once)
  = (Normal (ok (lit "ok (no issue id)") 200), start Scenario.store_seen_once).
Proof.
  apply (proj1 (event_without_issue_id_is_dropped Scenario.world0 Scenario.store_seen_once
                  Cases.no_issue_id) Scenario.env2 Cases.ev_no_issue_id);
    vm_compute; reflexivity.
Defined.

(* --------------------------------------------------------------------- *)
(** ** What the escalation reads back from a task *)
(* --------------------------------------------------------------------- *)

Lemma env_name_rest_plain e taken t :
  plain_env e = true ->
  V2.env_name_rest (e ++ V2.rbracket :: 32%N :: t) taken = Some (taken ++ e).
Proof.
  revert taken. induction e as [|c e IH]; intros taken H.
  - simpl. rewrite app_nil_r. reflexivity.
  - unfold plain_env in H. simpl in H. apply andb_prop in H as [Hc He].
    apply andb_prop in Hc as [Hc1 Hc2].
    cbn [app V2.env_name_rest]. apply negb_true_iff in Hc1, Hc2. rewrite Hc1, Hc2. simpl.
    rewrite IH by exact He. rewrite <- app_assoc. reflexivity.
Qed.

Lemma title_shape e t :
  lit "[Sentry][" ++ e ++ lit "] " ++ t
  = lit "[Sentry][" ++ (e ++ V2.rbracket :: 32%N :: t).
Proof. replace (lit "] ") with [V2.rbracket; 32%N] by (vm_compute; reflexivity). reflexivity. Qed.

Lemma title_lead_length : length (lit "[Sentry][") = 9%nat.
Proof. vm_compute. reflexivity. Qed.

(** The lazy group of the name pattern stops at the first closing bracket
    that a white space follows. *)
Lemma env_name_of_title e t :
  e <> [] -> plain_env e = true ->
  search V2.env_name_at (lit "[Sentry][" ++ e ++ lit "] " ++ t) = Some e.
Proof.
  intros Hne Hp. rewrite title_shape. apply search_head.
  unfold V2.env_name_at. rewrite starts_with_app, <- title_lead_length, skipn_length_app.
  destruct e as [|c e]; [congruence|].
  unfold plain_env in Hp. simpl in Hp. apply andb_prop in Hp as [Hc He].
  apply andb_prop in Hc as [_ Hc]. apply negb_true_iff in Hc.
  cbn [app]. rewrite Hc. apply (env_name_rest_plain e [c] t). exact He.
Qed.

Lemma plain_env_no_bracket e :
  plain_env e = true -> forallb (fun c => negb (N.eqb c V2.rbracket)) e = true.
Proof.
  unfold plain_env. rewrite !forallb_forall. intros H x Hx.
  specialize (H x Hx). apply andb_prop in H as [H _]. exact H.
Qed.

Lemma title_of_name e t :
  e <> [] -> plain_env e = true -> trim_start t = t ->
  V2.strip_title_prefix (lit "[Sentry][" ++ e ++ lit "] " ++ t) = t.
Proof.
  intros Hne Hp Ht. rewrite title_shape. unfold V2.strip_title_prefix.
  rewrite starts_with_app, <- title_lead_length, skipn_length_app.
  rewrite take_while_until; [|apply plain_env_no_bracket; exact Hp | vm_compute; reflexivity].
  cbv zeta.
  assert (K : skipn (length (lit "[Sentry][") + length e)
                (lit "[Sentry][" ++ e ++ V2.rbracket :: 32%N :: t)
              = V2.rbracket :: 32%N :: t)
    by (rewrite <- length_app, app_assoc, skipn_length_app; reflexivity).
  destruct e as [|c e]; [congruence|]. rewrite K.
  replace (drop_while is_space (32%N :: t)) with (drop_while is_space t)
    by (vm_compute; reflexivity).
  exact Ht.
Qed.

(** X5.  Round trip through the task name.  The handler names a task
    [[Sentry][<environment>] <title>]; from that name the escalation reads
    back the environment and the title, and so gives the GitHub issue the
    title of the task, provided the environment is not empty and holds no
    closing bracket and no line terminator, and the title is not empty and
    does not start with white space. *)
Theorem task_name_round_trip gk d p e t :
  environment p = VStr e -> title p = VStr t ->
  e <> [] -> plain_env e = true -> t <> [] -> trim_start t = t ->
  let lite := V2.parsedLite gk (V2.ticket_title p) d in
  environment lite = VStr e /\ title lite = VStr t
  /\ V2.ticket_title lite = V2.ticket_title p.
Proof.
  intros He Ht Hne Hp Htn Hts lite.
  assert (E1 : environment lite = VStr e).
  { unfold lite, V2.parsedLite, V2.ticket_title. cbn [environment]. rewrite He, Ht.
    cbn [js_to_string]. rewrite env_name_of_title by assumption.
    cbn [or_chain]. unfold js_or. destruct e; [congruence | reflexivity]. }
  assert (E2 : title lite = VStr t).
  { unfold lite, V2.parsedLite, V2.ticket_title. cbn [title]. rewrite He, Ht.
    cbn [js_to_string]. rewrite title_of_name by assumption.
    cbn [or_chain]. unfold js_or. destruct t; [congruence | reflexivity]. }
  split; [exact E1 | split; [exact E2|]].
  unfold V2.ticket_title. rewrite E1, E2, He, Ht. reflexivity.
Qed.

(** The task of the scenario: [[Sentry][prod] NullPointer]. *)
Lemma task_name_round_trip_witness :
  environment (V2.parsedLite Scenario.gk0 (V2.ticket_title Scenario.ev0) Scenario.description0)
  = VStr (lit "prod")
  /\ title (V2.parsedLite Scenario.gk0 (V2.ticket_title Scenario.ev0) Scenario.description0)
     = VStr (lit "NullPointer").
Proof.
  destruct (task_name_round_trip Scenario.gk0 Scenario.description0 Scenario.ev0
              (lit "prod") (lit "NullPointer")) as (H1 & H2 & _);
    try (vm_compute; reflexivity); try (vm_compute; discriminate).
  split; assumption.
Defined.

Lemma sentry_url_at_head c r : negb (N.eqb c 42) = true -> V2.sentry_url_at (c :: r) = None.
Proof.
  intros Hc. apply negb_true_iff in Hc. unfold V2.sentry_url_at.
  replace (lit "**Sentry Issue:**") with (42%N :: lit "*Sentry Issue:**")
    by (vm_compute; reflexivity).
  cbn [starts_with]. rewrite N.eqb_sym, Hc. reflexivity.
Qed.

Lemma sentry_url_found u rest :
  u <> [] -> no_space u = true ->
  V2.sentry_url_at (lit "**Sentry Issue:** " ++ u ++ nl ++ rest) = Some u.
Proof.
  intros Hne Hu. unfold V2.sentry_url_at.
  replace (lit "**Sentry Issue:** ") with (lit "**Sentry Issue:**" ++ [32%N])
    by (vm_compute; reflexivity).
  rewrite <- app_assoc, starts_with_app.
  replace 17%nat with (length (lit "**Sentry Issue:**")) by (vm_compute; reflexivity).
  rewrite skipn_length_app.
  cbn [app]. replace (drop_while is_space (32%N :: u ++ nl ++ rest))
    with (drop_while is_space (u ++ nl ++ rest)) by (vm_compute; reflexivity).
  destruct u as [|c u]; [congruence|].
  unfold no_space in Hu. pose proof Hu as Hu'. cbn [forallb] in Hu'.
  apply andb_prop in Hu' as [Hc _]. apply negb_true_iff in Hc.
  rewrite drop_while_fixed by exact Hc.
  unfold nl. cbn [app].
  change (c :: u ++ 10%N :: rest) with ((c :: u) ++ 10%N :: rest).
  rewrite take_while_until; [reflexivity | exact Hu | vm_compute; reflexivity].
Qed.

(** A description with a link starts with the heading of the links and
    the link line. *)
Lemma description_links gk p aiMd d u :
  V2.task_description gk p aiMd = Normal d -> permalink p = VStr u -> u <> [] ->
  exists rest,
    d = (lit "### Links" ++ nl ++ lit "- ") ++ lit "**Sentry Issue:** " ++ u ++ nl ++ rest.
Proof.
  unfold V2.task_description. destruct (negb (forallb printable _)); [discriminate|].
  destruct (V2.buildFramesMarkdown (frames p)); [|discriminate].
  intros H Hp Hu. apply Normal_inj in H. subst d.
  unfold V2.links_line. rewrite Hp. destruct u as [|c u]; [congruence|].
  cbn [truthy js_to_string].
  lazymatch goal with
  | |- exists rest, join nl (?a :: ?b :: ?l) = _ => exists (join nl l)
  end.
  cbn [join].
  replace (lit "- **Sentry Issue:** ") with (lit "- " ++ lit "**Sentry Issue:** ")
    by (vm_compute; reflexivity).
  rewrite <- !app_assoc. reflexivity.
Qed.

(** X6.  Round trip through the task description and the key.  From the
    description that the handler renders for an event, the escalation reads
    back the link to Sentry, provided the link is not empty and holds no
    white space; and from the grouping key it reads back the issue id,
    provided the id is not empty and holds no colon. *)
Theorem task_description_round_trip p aiMd d name u i :
  V2.task_description (groupKeyFrom p) p aiMd = Normal d ->
  permalink p = VStr u -> u <> [] -> no_space u = true ->
  sentryIssueId p = VStr i -> i <> [] -> no_colon i = true ->
  let lite := V2.parsedLite (groupKeyFrom p) name d in
  permalink lite = VStr u /\ sentryIssueId lite = VStr i.
Proof.
  intros Hd Hp Hu Hs Hi Hin Hc lite. split.
  - destruct (description_links _ _ _ _ _ Hd Hp Hu) as [rest ->].
    unfold lite, V2.parsedLite. cbn [permalink].
    rewrite (search_skip_if V2.sentry_url_at (fun c => negb (N.eqb c 42)))
      by (first [exact sentry_url_at_head | vm_compute; reflexivity]).
    rewrite (search_head _ _ _ (sentry_url_found u rest Hu Hs)).
    cbn [or_chain]. unfold js_or. destruct u; [congruence | reflexivity].
  - unfold lite, V2.parsedLite. cbn [sentryIssueId].
    unfold groupKeyFrom, groupKey. rewrite Hi. cbn [js_to_string].
    rewrite colon_unfold.
    replace (js_to_string (projectSlug p) ++ [58%N] ++ js_to_string (environment p)
               ++ [58%N] ++ i)
      with ((js_to_string (projectSlug p) ++ [58%N] ++ js_to_string (environment p))
              ++ 58%N :: i)
      by (rewrite <- !app_assoc; reflexivity).
    rewrite split_pop_last_piece by exact Hc.
    cbn [or_chain]. unfold js_or. destruct i; [congruence | reflexivity].
Qed.

(** The event of the scenario with its link. *)
Lemma task_description_round_trip_witness :
  exists d,
    V2.task_description (groupKeyFrom Cases.ev_linked) Cases.ev_linked VNull = Normal d
    /\ permalink (V2.parsedLite (groupKeyFrom Cases.ev_linked) [] d)
       = VStr (lit "https://sentry.io/issues/42")
    /\ sentryIssueId (V2.parsedLite (groupKeyFrom Cases.ev_linked) [] d) = VStr (lit "42").
Proof.
  destruct (V2.task_description (groupKeyFrom Cases.ev_linked) Cases.ev_linked VNull)
    as [d|e] eqn:E; [|vm_compute in E; discriminate E].
  exists d. split; [reflexivity|].
  apply (task_description_round_trip Cases.ev_linked VNull d []
           (lit "https://sentry.io/issues/42") (lit "42") E);
    try (vm_compute; reflexivity); vm_compute; discriminate.
Defined.

(* --------------------------------------------------------------------- *)
(** ** The GitHub target and the labels *)
(* --------------------------------------------------------------------- *)

Lemma slash_unfold : lit "/" = [47%N].
Proof. vm_compute. reflexivity. Qed.

Lemma split_slash_two o r :
  no_slash o = true -> no_slash r = true ->
  split (lit "/") (o ++ lit "/" ++ r) = [o; r].
Proof.
  intros Ho Hr. unfold split. rewrite slash_unfold. cbn [app].
  rewrite split_go_piece by exact Ho. rewrite split_go_whole by exact Hr. reflexivity.
Qed.

Lemma split_slash_more o r rest :
  no_slash o = true -> no_slash r = true ->
  exists more, split (lit "/") (o ++ lit "/" ++ r ++ lit "/" ++ rest) = o :: r :: more.
Proof.
  intros Ho Hr. unfold split. rewrite slash_unfold. cbn [app].
  rewrite split_go_piece by exact Ho. rewrite split_go_piece by exact Hr. eauto.
Qed.

(** X8.  How [GITHUB_REPO] is read, in both workers.  For an owner and a
    repository name without a slash: [owner/repo] is accepted and split
    into the two when both are non-empty, and so is [owner/repo/more],
    whose further segments are ignored; a value without a slash, one that
    ends with the slash, one that starts with it, and an unset value are
    refused. *)
Theorem owner_repo_reading o r :
  no_slash o = true -> no_slash r = true ->
  (o <> [] -> r <> [] ->
   V2.owner_repo (Some (o ++ lit "/" ++ r)) = Some (o, r)
   /\ V1.owner_repo (o ++ lit "/" ++ r) = Some (o, r)
   /\ forall rest,
        V2.owner_repo (Some (o ++ lit "/" ++ r ++ lit "/" ++ rest)) = Some (o, r)
        /\ V1.owner_repo (o ++ lit "/" ++ r ++ lit "/" ++ rest) = Some (o, r))
  /\ V2.owner_repo (Some o) = None /\ V1.owner_repo o = None
  /\ V2.owner_repo (Some (o ++ lit "/")) = None
  /\ V2.owner_repo (Some (lit "/" ++ r)) = None
  /\ V2.owner_repo None = None.
Proof.
  intros Ho Hr. refine (conj _ (conj _ (conj _ (conj _ (conj _ _))))).
  - intros Hon Hrn. destruct o as [|c o]; [congruence|]. destruct r as [|d r]; [congruence|].
    unfold V2.owner_repo, V1.owner_repo. cbn [env_or app].
    change (c :: o ++ lit "/" ++ d :: r) with ((c :: o) ++ lit "/" ++ (d :: r)).
    rewrite split_slash_two by assumption.
    refine (conj eq_refl (conj eq_refl (fun rest => conj _ _))).
    + change (c :: o ++ lit "/" ++ d :: r ++ lit "/" ++ rest)
        with ((c :: o) ++ lit "/" ++ (d :: r) ++ lit "/" ++ rest).
      destruct (split_slash_more (c :: o) (d :: r) rest Ho Hr) as [more ->]. reflexivity.
    + change (c :: o ++ lit "/" ++ d :: r ++ lit "/" ++ rest)
        with ((c :: o) ++ lit "/" ++ (d :: r) ++ lit "/" ++ rest).
      destruct (split_slash_more (c :: o) (d :: r) rest Ho Hr) as [more ->]. reflexivity.
  - unfold V2.owner_repo. destruct o as [|c o]; [vm_compute; reflexivity|]. cbn [env_or].
    unfold split. rewrite slash_unfold, split_go_whole by exact Ho. reflexivity.
  - unfold V1.owner_repo. unfold split. rewrite slash_unfold, split_go_whole by exact Ho.
    destruct o; reflexivity.
  - unfold V2.owner_repo.
    replace (env_or (Some (o ++ lit "/")) []) with (o ++ lit "/" ++ [])
      by (rewrite app_nil_r, slash_unfold; destruct o; reflexivity).
    rewrite split_slash_two by (first [assumption | reflexivity]). destruct o; reflexivity.
  - unfold V2.owner_repo.
    replace (env_or (Some (lit "/" ++ r)) []) with ([] ++ lit "/" ++ r)
      by (rewrite slash_unfold; reflexivity).
    rewrite split_slash_two by (first [assumption | reflexivity]). reflexivity.
  - vm_compute. reflexivity.
Qed.

(** [acme/api]. *)
Lemma owner_repo_reading_witness :
  V2.owner_repo (Some (lit "acme" ++ lit "/" ++ lit "api")) = Some (lit "acme", lit "api").
Proof.
  apply (proj1 (owner_repo_reading (lit "acme") (lit "api") eq_refl eq_refl));
    vm_compute; discriminate.
Defined.

(** X9.  The labels of a new issue.  They start with the labels of
    [GITHUB_LABELS], each trimmed and none empty ([sentry] alone when the
    variable is unset or empty), and at most two more follow: what the
    level maps to, and the agent label.  When the event has no level, or
    [LEVEL_LABELS_JSON] is unset or is not JSON, the agent label (if one is
    configured) is all that follows, and no label is falsy. *)
Theorem issue_labels_clean env p :
  exists base extra,
    V2.issue_labels env p = List.map VStr base ++ extra
    /\ Forall (fun b => b <> [] /\ trim b = b) base
    /\ (length extra <= 2)%nat
    /\ (configured (V2.GITHUB_LABELS env) = false -> base = [lit "sentry"])
    /\ (truthy (level p) = false \/ V2.LEVEL_LABELS_JSON env = None
        \/ V2.LEVEL_LABELS_JSON env = Some None ->
        extra = (if configured (V2.GITHUB_AGENT_LABEL env)
                 then [VStr (env_or (V2.GITHUB_AGENT_LABEL env) [])] else [])
        /\ Forall (fun l => truthy l = true) (V2.issue_labels env p)).
Proof.
  unfold V2.issue_labels. cbv zeta.
  set (base := List.filter nonempty
                 (List.map trim (split (lit ",") (env_or (V2.GITHUB_LABELS env) (lit "sentry"))))).
  assert (Hbase : Forall (fun b => b <> [] /\ trim b = b) base).
  { apply List.Forall_forall. intros b Hb. unfold base in Hb.
    apply filter_In in Hb as [Hin Hne]. apply in_map_iff in Hin as (x & <- & _).
    split; [destruct (trim x); discriminate | apply trim_trim]. }
  eexists base, _. split; [reflexivity|]. split; [exact Hbase|]. split; [|split].
  - rewrite length_app.
    destruct (truthy (V2.levelToLabel (level p) env));
      destruct (configured (V2.GITHUB_AGENT_LABEL env)); simpl; lia.
  - intros Hl. unfold base.
    replace (env_or (V2.GITHUB_LABELS env) (lit "sentry")) with (lit "sentry")
      by (destruct (V2.GITHUB_LABELS env) as [[|c l]|];
          [reflexivity | discriminate | reflexivity]).
    vm_compute. reflexivity.
  - intros Hnone.
    assert (Hl : V2.levelToLabel (level p) env = VUndef).
    { unfold V2.levelToLabel.
      destruct Hnone as [-> | [-> | ->]]; [reflexivity | |];
        destruct (truthy (level p)); reflexivity. }
    rewrite Hl. cbn [truthy app]. split; [reflexivity|].
    apply Forall_app. split.
    + apply List.Forall_forall. intros l Hin. apply in_map_iff in Hin as (b & <- & Hb).
      rewrite List.Forall_forall in Hbase. destruct (Hbase b Hb) as [Hne _].
      destruct b; [congruence | reflexivity].
    + destruct (V2.GITHUB_AGENT_LABEL env) as [[|c l]|]; simpl; constructor; auto.
Qed.

(* --------------------------------------------------------------------- *)
(** ** The status block of the first worker, in general *)
(* --------------------------------------------------------------------- *)

Lemma status_end_at_inside c s :
  is_line_terminator c = false -> V1.status_end_at (c :: s) = None.
Proof.
  intros Hc. unfold V1.status_end_at.
  assert (H10 : N.eqb c 10 = false).
  { unfold is_line_terminator in Hc. destruct (N.eqb c 10); [discriminate | reflexivity]. }
  replace (nl ++ lit "## ") with (10%N :: lit "## ") by reflexivity.
  replace (nl ++ lit "> ") with (10%N :: lit "> ") by reflexivity.
  cbn [starts_with V1.at_eol]. rewrite (N.eqb_sym 10 c), H10, Hc. reflexivity.
Qed.

(** At the end of a line the closing group always matches, and what it
    matches is a prefix of the text that matches again on its own. *)
Lemma status_end_at_eol tail :
  V1.at_eol tail = true ->
  exists g r, V1.status_end_at tail = Some g /\ tail = g ++ r /\ V1.status_end_at g = Some g.
Proof.
  intros He. unfold V1.status_end_at at 1.
  destruct (starts_with (nl ++ lit "## ") tail) eqn:E1.
  { exists (nl ++ lit "## "), (skipn 4 tail). split; [reflexivity|]. split.
    - clear He. revert E1. replace (nl ++ lit "## ") with [10; 35; 35; 32]%N
        by (vm_compute; reflexivity).
      destruct tail as [|a [|b [|c [|d t]]]]; cbn [starts_with]; rewrite ?andb_false_r;
        try discriminate.
      intros H. repeat (apply andb_prop in H as [?%N.eqb_eq H]). subst. reflexivity.
    - vm_compute. reflexivity. }
  destruct (starts_with (nl ++ lit "> ") tail) eqn:E2.
  { exists (nl ++ lit "> "), (skipn 3 tail). split; [reflexivity|]. split.
    - clear He E1. revert E2. replace (nl ++ lit "> ") with [10; 62; 32]%N
        by (vm_compute; reflexivity).
      destruct tail as [|a [|b [|c t]]]; cbn [starts_with]; rewrite ?andb_false_r;
        try discriminate.
      intros H. repeat (apply andb_prop in H as [?%N.eqb_eq H]). subst. reflexivity.
    - vm_compute. reflexivity. }
  destruct tail as [|c s'].
  { exists [], []. repeat split. }
  destruct (N.eqb c 10 && V1.at_eol s') eqn:E3.
  { apply andb_prop in E3 as [Hc%N.eqb_eq _]. subst c.
    exists nl, s'. repeat split. }
  rewrite He. exists [], (c :: s'). repeat split.
Qed.

(** The lazy run takes the rest of the heading line and no more. *)
Lemma status_tail_line line tail g :
  one_line line = true -> V1.status_end_at tail = Some g ->
  V1.status_tail (line ++ tail) = (line, g).
Proof.
  intros Hl Hg. induction line as [|c line IH].
  - destruct tail; cbn [app V1.status_tail]; rewrite Hg; reflexivity.
  - unfold one_line in Hl. cbn [forallb] in Hl. apply andb_prop in Hl as [Hc Hl].
    apply negb_true_iff in Hc.
    cbn [app V1.status_tail]. rewrite status_end_at_inside by exact Hc.
    rewrite IH by exact Hl. reflexivity.
Qed.

Lemma status_head_one_line : one_line V1.status_head = true.
Proof. vm_compute. reflexivity. Qed.

Lemma statusRegex_at_line line tail g :
  one_line line = true -> V1.status_end_at tail = Some g ->
  V1.statusRegex_at (V1.status_head ++ line ++ tail) = Some (V1.status_head ++ line ++ g).
Proof.
  intros Hl Hg. unfold V1.statusRegex_at.
  rewrite starts_with_app, skipn_length_app, (status_tail_line _ _ _ Hl Hg). reflexivity.
Qed.

Lemma trailing_of_match line g :
  one_line line = true -> V1.status_end_at g = Some g ->
  V1.trailing_of (V1.status_head ++ line ++ g) = g.
Proof.
  intros Hl Hg. unfold V1.trailing_of.
  rewrite (search_skip_if V1.status_end_at (fun c => negb (is_line_terminator c)))
    by (first [ exact status_head_one_line
              | intros c r Hc; apply status_end_at_inside, negb_true_iff, Hc ]).
  rewrite (search_skip_if V1.status_end_at (fun c => negb (is_line_terminator c)))
    by (first [ exact Hl
              | intros c r Hc; apply status_end_at_inside, negb_true_iff, Hc ]).
  rewrite (search_head _ _ _ Hg). reflexivity.
Qed.

Lemma status_head_unfold :
  V1.status_head = [35; 35; 32; 55357; 56522; 32; 83; 116; 97; 116; 117; 115]%N.
Proof. vm_compute. reflexivity. Qed.

(** The heading does not start inside a text without the emoji. *)
Lemma heading_not_inside c pre rest :
  no_chart (c :: pre) = true ->
  V1.statusRegex_at (c :: pre ++ V1.status_head ++ rest) = None.
Proof.
  intros Hp. unfold V1.statusRegex_at.
  assert (E : starts_with V1.status_head (c :: pre ++ V1.status_head ++ rest) = false).
  { rewrite status_head_unfold. unfold no_chart in Hp.
    destruct pre as [|a [|b [|c2 [|d pre]]]]; cbn [app starts_with].
    - destruct (N.eqb 35 c); [|reflexivity]. reflexivity.
    - destruct (N.eqb 35 c); [|reflexivity]. destruct (N.eqb 35 a); [|reflexivity]. reflexivity.
    - destruct (N.eqb 35 c); [|reflexivity]. destruct (N.eqb 35 a); [|reflexivity].
      destruct (N.eqb 32 b); [|reflexivity]. reflexivity.
    - destruct (N.eqb 35 c); [|reflexivity]. destruct (N.eqb 35 a); [|reflexivity].
      destruct (N.eqb 32 b); [|reflexivity]. destruct (N.eqb 55357 c2); [|reflexivity].
      reflexivity.
    - cbn [forallb] in Hp. repeat (apply andb_prop in Hp as [? Hp]).
      match goal with H : negb (N.eqb d 56522) = true |- _ =>
        apply negb_true_iff in H; rewrite (N.eqb_sym 56522 d), H end.
      rewrite !andb_false_r. reflexivity. }
  rewrite E. reflexivity.
Qed.

Lemma no_chart_tail c pre : no_chart (c :: pre) = true -> no_chart pre = true.
Proof. unfold no_chart. cbn [forallb]. intros H. apply andb_prop in H as [_ H]. exact H. Qed.

Lemma search_past_lead pre rest :
  no_chart pre = true ->
  search V1.statusRegex_at (pre ++ V1.status_head ++ rest)
  = search V1.statusRegex_at (V1.status_head ++ rest).
Proof.
  induction pre as [|c pre IH]; intros Hp; [reflexivity|].
  cbn [app]. rewrite search_step, heading_not_inside by exact Hp.
  apply IH. exact (no_chart_tail _ _ Hp).
Qed.

Lemma replace_past_lead fn pre rest :
  no_chart pre = true ->
  V1.replace_first V1.statusRegex_at fn (pre ++ V1.status_head ++ rest)
  = pre ++ V1.replace_first V1.statusRegex_at fn (V1.status_head ++ rest).
Proof.
  induction pre as [|c pre IH]; intros Hp; [reflexivity|].
  cbn [app V1.replace_first]. rewrite heading_not_inside by exact Hp.
  rewrite IH; [reflexivity | exact (no_chart_tail _ _ Hp)].
Qed.

Lemma replace_at_head (f : jsstring -> option jsstring) fn s m :
  f s = Some m -> V1.replace_first f fn s = fn m ++ skipn (length m) s.
Proof. intros H. destruct s; simpl; rewrite H; reflexivity. Qed.

(** X10.  What the update of an issue body replaces, in general.  Let the
    body hold the status heading after a text without the bar-chart emoji,
    followed by the rest of the heading line and then by the end of the
    body or a line terminator.  Then the updated body is the same text in
    front, the new status block in place of the heading line, and all that
    followed the heading line unchanged behind it: the former lines of the
    block are among what is kept. *)
Theorem status_line_replaced f pre line tail n fs now :
  no_chart pre = true -> one_line line = true -> V1.at_eol tail = true ->
  V1.updatedBody f (VStr (pre ++ V1.status_head ++ line ++ tail)) n fs now
  = Normal (pre ++ V1.newStatusBlock n fs now ++ tail).
Proof.
  intros Hp Hl He.
  destruct (status_end_at_eol tail He) as (g & r & Hg & -> & Hgg).
  pose proof (statusRegex_at_line line (g ++ r) g Hl Hg) as Hm.
  unfold V1.updatedBody, V1.regex_test. cbn [js_to_string].
  rewrite search_past_lead by exact Hp. rewrite (search_head _ _ _ Hm).
  rewrite replace_past_lead by exact Hp. rewrite (replace_at_head _ _ _ _ Hm).
  rewrite trailing_of_match by assumption.
  replace (skipn (length (V1.status_head ++ line ++ g)) (V1.status_head ++ line ++ g ++ r))
    with r.
  - rewrite <- !app_assoc. reflexivity.
  - replace (V1.status_head ++ line ++ g ++ r) with ((V1.status_head ++ line ++ g) ++ r)
      by (rewrite <- !app_assoc; reflexivity).
    rewrite skipn_app, skipn_all, Nat.sub_diag. reflexivity.
Qed.

(** The body of the scenario: what was in front of the heading and behind
    it is kept around the new block. *)
Lemma status_line_replaced_witness :
  Cases.lead0 ++ V1.status_head ++ [] ++ Cases.rest0 = Scenario.body0
  /\ V1.updatedBody Scenario.fields0
       (VStr (Cases.lead0 ++ V1.status_head ++ [] ++ Cases.rest0)) 2 Scenario.T0 Scenario.T1
     = Normal (Cases.lead0 ++ V1.newStatusBlock 2 Scenario.T0 Scenario.T1 ++ Cases.rest0).
Proof.
  split; [vm_compute; reflexivity|].
  apply (status_line_replaced Scenario.fields0 Cases.lead0 [] Cases.rest0 2
           Scenario.T0 Scenario.T1); vm_compute; reflexivity.
Defined.

Lemma statusRegex_at_heading rest : V1.statusRegex_at (V1.status_head ++ rest) <> None.
Proof.
  unfold V1.statusRegex_at. rewrite starts_with_app. destruct (V1.status_tail _). discriminate.
Qed.

(** X11.  The pattern of the status block finds a match in every body
    that [buildBody] renders, whatever the event: an issue body that the
    worker wrote and nobody edited is updated in place, never rebuilt. *)
Theorem rendered_body_matches f n firstSeen lastSeen :
  V1.regex_test V1.statusRegex_at (V1.buildBody f n firstSeen lastSeen) = true.
Proof.
  unfold V1.regex_test, V1.buildBody, join_truthy.
  lazymatch goal with
  | |- context [join nl (List.filter nonempty ?l)] =>
      destruct (join_holds nl V1.status_head (List.filter nonempty l)) as (pre & post & ->)
  end.
  - apply filter_In. split; [|vm_compute; reflexivity].
    do 12 right. left. reflexivity.
  - pose proof (search_found V1.statusRegex_at pre _ (statusRegex_at_heading post)) as H.
    destruct (search V1.statusRegex_at (pre ++ V1.status_head ++ post)); congruence.
Qed.

(* --------------------------------------------------------------------- *)
(** ** The order of the summarisation services *)
(* --------------------------------------------------------------------- *)

(** A call whose answer contradicts what is assumed of the service. *)
Ltac absurd_answer :=
  match goal with
  | Hall : (forall rq, _ -> refused _ rq = _), Hh : http _ ?rq0 = _ |- _ =>
      let R := fresh "R" in
      pose proof (Hall rq0 eq_refl) as R; unfold refused in R; rewrite Hh in R;
      repeat match goal with
             | Hb : rs_ok _ = _ |- _ => rewrite Hb in R
             | Hb : negb (rs_ok _) = _ |- _ =>
                 first [ apply negb_false_iff in Hb | apply negb_true_iff in Hb ]
             end;
      discriminate R
  end.

Ltac ai_leaf :=
  first
    [ absurd_answer
    | cbn [st_trace st_log st_store push logged ticked start app length fetches rq_endpoint
           endpoint_eqb];
      rewrite ?length_app; cbn [length];
      repeat split; try reflexivity; try lia ].

Ltac ai_step :=
  lazymatch goal with
  | |- wp (lift (Normal _)) _ _ _ => apply wp_lift
  | |- wp (lift (V2.chat_content ?d)) _ _ _ =>
      apply wp_lift; unfold V2.chat_content; destruct (nullish d)
  | _ => wp_step
  end.

Section ProviderOrder.
Context (w : world) (env : V2.Env) (p : parsed_event) (s : store) (prompt : jsstring).
Hypothesis Hprompt : V2.ai_prompt p = Normal prompt.

Lemma ai_unconfigured :
  configured (V2.GITHUB_MODEL_API_KEY env) = false ->
  configured (V2.OPENAI_API_KEY env) = false ->
  V2.aiSummarize w env p (start s) = (Normal VNull, start s).
Proof.
  intros H1 H2. unfold V2.aiSummarize. rewrite Hprompt, H1, H2. reflexivity.
Qed.

Lemma ai_prefers_models :
  configured (V2.GITHUB_MODEL_API_KEY env) = true ->
  (forall rq, rq_endpoint rq = AiGithubModels -> refused w rq = false) ->
  wp (V2.aiSummarize w env p)
     (fun _ st' => fetches AiGithubModels (st_trace st') = 1%nat
                   /\ fetches AiOpenAI (st_trace st') = 0%nat)
     (fun _ st' => fetches AiGithubModels (st_trace st') = 1%nat
                   /\ fetches AiOpenAI (st_trace st') = 0%nat) (start s).
Proof.
  intros H1 Hall. unfold V2.aiSummarize. rewrite Hprompt, H1.
  repeat first [ solve [ai_leaf] | ai_step ].
Qed.

Lemma ai_falls_back :
  configured (V2.GITHUB_MODEL_API_KEY env) = true ->
  configured (V2.OPENAI_API_KEY env) = true ->
  (forall rq, rq_endpoint rq = AiGithubModels -> refused w rq = true) ->
  wp (V2.aiSummarize w env p)
     (fun _ st' => fetches AiGithubModels (st_trace st') = 1%nat
                   /\ fetches AiOpenAI (st_trace st') = 1%nat)
     (fun _ st' => fetches AiGithubModels (st_trace st') = 1%nat
                   /\ fetches AiOpenAI (st_trace st') = 1%nat) (start s).
Proof.
  intros H1 H2 Hall. unfold V2.aiSummarize. rewrite Hprompt, H1, H2.
  repeat first [ solve [ai_leaf] | ai_step ].
Qed.

Lemma ai_swallows_refusals :
  (forall rq, is_ai (rq_endpoint rq) = true -> refused w rq = true) ->
  wp (V2.aiSummarize w env p)
     (fun r st' => r = VNull /\ length (st_log st') = length (st_trace st')
                   /\ st_store st' = s)
     (fun _ _ => False) (start s).
Proof.
  intros Hall. unfold V2.aiSummarize. rewrite Hprompt.
  repeat first [ solve [ai_leaf] | ai_step ].
Qed.
End ProviderOrder.

(** X12.  The order of the summarisation services, for an event whose
    prompt renders.  With neither key configured, [aiSummarize] gives
    [null] and does nothing.  With the GitHub Models key, that service is
    called once, and as long as it does not refuse (it answers with
    success, or cannot be reached) OpenAI is not called, content or not.
    When GitHub Models refuses and the OpenAI key is configured, OpenAI is
    called once after it.  When every service refuses, the result is
    [null], with one warning logged for each call and nothing thrown. *)
Theorem summarize_provider_order w env p s prompt :
  V2.ai_prompt p = Normal prompt ->
  (configured (V2.GITHUB_MODEL_API_KEY env) = false ->
   configured (V2.OPENAI_API_KEY env) = false ->
   V2.aiSummarize w env p (start s) = (Normal VNull, start s))
  /\ (configured (V2.GITHUB_MODEL_API_KEY env) = true ->
      (forall rq, rq_endpoint rq = AiGithubModels -> refused w rq = false) ->
      fetches AiGithubModels (st_trace (snd (V2.aiSummarize w env p (start s)))) = 1%nat
      /\ fetches AiOpenAI (st_trace (snd (V2.aiSummarize w env p (start s)))) = 0%nat)
  /\ (configured (V2.GITHUB_MODEL_API_KEY env) = true ->
      configured (V2.OPENAI_API_KEY env) = true ->
      (forall rq, rq_endpoint rq = AiGithubModels -> refused w rq = true) ->
      fetches AiGithubModels (st_trace (snd (V2.aiSummarize w env p (start s)))) = 1%nat
      /\ fetches AiOpenAI (st_trace (snd (V2.aiSummarize w env p (start s)))) = 1%nat)
  /\ ((forall rq, is_ai (rq_endpoint rq) = true -> refused w rq = true) ->
      fst (V2.aiSummarize w env p (start s)) = Normal VNull
      /\ length (st_log (snd (V2.aiSummarize w env p (start s))))
         = length (st_trace (snd (V2.aiSummarize w env p (start s))))
      /\ st_store (snd (V2.aiSummarize w env p (start s))) = s).
Proof.
  intros Hprompt. split; [|split; [|split]].
  - eapply ai_unconfigured. exact Hprompt.
  - intros H1 Hall.
    apply (wp_snd _ (fun st' => fetches AiGithubModels (st_trace st') = 1%nat
                                /\ fetches AiOpenAI (st_trace st') = 0%nat)).
    eapply ai_prefers_models; eauto.
  - intros H1 H2 Hall.
    apply (wp_snd _ (fun st' => fetches AiGithubModels (st_trace st') = 1%nat
                                /\ fetches AiOpenAI (st_trace st') = 1%nat)).
    eapply ai_falls_back; eauto.
  - intros Hall.
    pose proof (ai_swallows_refusals w env p s prompt Hprompt Hall) as H. unfold wp in H.
    destruct (V2.aiSummarize w env p (start s)) as [[r|e] st']; [|destruct H].
    destruct H as (-> & H2 & H3). auto.
Qed.

(** Both services configured and GitHub Models out of service: one call
    to each. *)
Lemma summarize_provider_order_witness :
  fetches AiGithubModels
    (st_trace (snd (V2.aiSummarize Cases.models_down Cases.both_summaries Scenario.ev0
                      (start empty_store)))) = 1%nat
  /\ fetches AiOpenAI
       (st_trace (snd (V2.aiSummarize Cases.models_down Cases.both_summaries Scenario.ev0
                         (start empty_store)))) = 1%nat.
Proof.
  destruct (V2.ai_prompt Scenario.ev0) as [prompt|e] eqn:E; [|vm_compute in E; discriminate E].
  apply (proj1 (proj2 (proj2 (summarize_provider_order Cases.models_down Cases.both_summaries
                                Scenario.ev0 empty_store prompt E)))).
  - reflexivity.
  - reflexivity.
  - intros rq Hep. unfold refused, Cases.models_down. simpl. rewrite Hep. reflexivity.
Defined.

(* --------------------------------------------------------------------- *)
(** ** Who is let in *)
(* --------------------------------------------------------------------- *)

Lemma token_mismatch_spec cfg tok :
  token_mismatch cfg tok = true <-> exists c, cfg = Some c /\ c <> [] /\ tok <> Some c.
Proof.
  unfold token_mismatch. destruct cfg as [[|c s]|].
  - split; [discriminate|]. intros (c & [= <-] & H & _). congruence.
  - destruct tok as [t|].
    + split.
      * intros H. exists (c :: s). repeat split; [discriminate|]. intros [= ->].
        apply negb_true_iff in H. rewrite jsstring_eqb_refl in H. discriminate.
      * intros (c' & [= <-] & _ & H). apply negb_true_iff.
        apply jsstring_eqb_neq. congruence.
    + split; [|reflexivity]. intros _. exists (c :: s). repeat split; discriminate.
  - split; [discriminate|]. intros (c & [= ] & _).
Qed.

Ltac status_tac :=
  first
    [ exact I
    | cbn [status ok err V1.text_reply]; discriminate
    | cbn [status ok err V1.text_reply];
      match goal with |- context [if ?c then _ else _] => destruct c end; discriminate ].

Lemma handleSentry_status w env req s :
  token_mismatch (V2.SENTRY_SHARED_TOKEN env) (in_token req) = false ->
  wp (V2.handleSentry w env req) (fun rep _ => status rep <> 401) (fun _ _ => True) (start s).
Proof.
  intros H. unfold V2.handleSentry. rewrite H.
  repeat first [ solve [status_tac] | frame_step ].
Qed.

Lemma handleClickUp_status w env req s :
  token_mismatch (V2.CLICKUP_SHARED_TOKEN env) (in_token req) = false ->
  wp (V2.handleClickUp w env req) (fun rep _ => status rep <> 401) (fun _ _ => True) (start s).
Proof.
  intros H. unfold V2.handleClickUp. rewrite H.
  repeat first [ solve [status_tac] | frame_step ].
Qed.

Lemma V1_status w env req s :
  token_mismatch (V1.SENTRY_SHARED_TOKEN env) (in_token req) = false ->
  wp (V1.fetch_handler w env req) (fun rep _ => status rep <> 401) (fun _ _ => True) (start s).
Proof.
  intros H. unfold V1.fetch_handler. rewrite H.
  repeat first [ solve [status_tac] | frame_step ].
Qed.

(** X13.  The shared token of the webhooks.  The check fails exactly when
    the token is configured (and not empty) and the request does not carry
    it; an unset token lets every request in.  When the check fails the
    handler answers 401 [unauthorized] and does nothing else: no store
    access, no call, no log line.  When it passes, no answer of the handler
    is a 401.  This holds for [handleSentry], for [handleClickUp] and for
    the first worker. *)
Theorem unauthorized_exactly w s req :
  (forall cfg tok,
     token_mismatch cfg tok = true <-> exists c, cfg = Some c /\ c <> [] /\ tok <> Some c)
  /\ (forall env,
        if token_mismatch (V2.SENTRY_SHARED_TOKEN env) (in_token req)
        then V2.handleSentry w env req (start s)
             = (Normal (err (lit "unauthorized") 401), start s)
        else forall rep, fst (V2.handleSentry w env req (start s)) = Normal rep ->
                         status rep <> 401)
  /\ (forall env,
        if token_mismatch (V2.CLICKUP_SHARED_TOKEN env) (in_token req)
        then V2.handleClickUp w env req (start s)
             = (Normal (err (lit "unauthorized") 401), start s)
        else forall rep, fst (V2.handleClickUp w env req (start s)) = Normal rep ->
                         status rep <> 401)
  /\ (forall env,
        if token_mismatch (V1.SENTRY_SHARED_TOKEN env) (in_token req)
        then V1.fetch_handler w env req (start s)
             = (Normal (V1.text_reply (lit "unauthorized") 401), start s)
        else forall rep, fst (V1.fetch_handler w env req (start s)) = Normal rep ->
                         status rep <> 401).
Proof.
  split; [exact token_mismatch_spec|].
  split; [|split]; intros env.
  - destruct (token_mismatch _ _) eqn:E.
    + unfold V2.handleSentry. rewrite E. reflexivity.
    + intros rep Hrep. pose proof (handleSentry_status w env req s E) as H. unfold wp in H.
      destruct (V2.handleSentry w env req (start s)) as [[r|e] st']; simpl in Hrep; congruence.
  - destruct (token_mismatch _ _) eqn:E.
    + unfold V2.handleClickUp. rewrite E. reflexivity.
    + intros rep Hrep. pose proof (handleClickUp_status w env req s E) as H. unfold wp in H.
      destruct (V2.handleClickUp w env req (start s)) as [[r|e] st']; simpl in Hrep; congruence.
  - destruct (token_mismatch _ _) eqn:E.
    + unfold V1.fetch_handler. rewrite E. reflexivity.
    + intros rep Hrep. pose proof (V1_status w env req s E) as H. unfold wp in H.
      destruct (V1.fetch_handler w env req (start s)) as [[r|e] st']; simpl in Hrep; congruence.
Qed.

(** The guard of [handleStandards] lets through the requests that carry
    the administration token, and no others. *)
Lemma admin_guard env req :
  (negb (configured (V2.ADMIN_TOKEN env))
   || match in_token req with
      | Some t => negb (jsstring_eqb t (env_or (V2.ADMIN_TOKEN env) []))
      | None => true
      end) = false <-> admin_token_given env req.
Proof.
  unfold admin_token_given.
  destruct (V2.ADMIN_TOKEN env) as [[|c a]|]; cbn [configured negb orb env_or].
  - split; [discriminate|]. intros (tok & [= <-] & H & _). congruence.
  - destruct (in_token req) as [t|].
    + split.
      * intros H. apply negb_false_iff, jsstring_eqb_eq in H. subst t.
        exists (c :: a). repeat split. discriminate.
      * intros (tok & [= <-] & _ & [= ->]). apply negb_false_iff, jsstring_eqb_eq. reflexivity.
    + split; [discriminate|]. intros (tok & _ & _ & H). discriminate.
  - split; [discriminate|]. intros (tok & H & _). discriminate.
Qed.

(** X14.  The administration endpoint is closed unless the token is given.
    A request that does not carry the configured administration token (in
    particular every request, when none is configured) is answered 401 and
    nothing is read or written; a request that carries it is never
    answered 401; and the store is changed only by a [PUT] that carries the
    token and a truthy [text]. *)
Theorem standards_guarded w env req s :
  (~ admin_token_given env req ->
   V2.handleStandards w env req (start s) = (Normal (err (lit "unauthorized") 401), start s))
  /\ (admin_token_given env req ->
      forall rep, fst (V2.handleStandards w env req (start s)) = Normal rep -> status rep <> 401)
  /\ (st_store (snd (V2.handleStandards w env req (start s))) <> s ->
      admin_token_given env req /\ in_method req = lit "PUT"
      /\ truthy (prop (json_or_empty req) "text") = true).
Proof.
  pose proof (admin_guard env req) as G. unfold V2.handleStandards.
  destruct (negb (configured (V2.ADMIN_TOKEN env)) || _) eqn:E.
  - assert (Hn : ~ admin_token_given env req) by (intros H; apply G in H; discriminate).
    split; [reflexivity|]. split; [contradiction|]. cbn. congruence.
  - assert (Hy : admin_token_given env req) by (apply G; reflexivity).
    split; [contradiction|].
    destruct (jsstring_eqb (in_method req) (lit "GET")) eqn:Eg.
    { split; [intros _ rep [= <-]; cbn; discriminate|]. cbn. destruct s. congruence. }
    destruct (jsstring_eqb (in_method req) (lit "PUT")) eqn:Ep.
    2:{ split; [intros _ rep [= <-]; cbn; discriminate|]. cbn. congruence. }
    destruct (nullish (json_or_empty req)) eqn:En.
    { split; [intros _ rep [= ]|]. cbn. congruence. }
    destruct (truthy (prop (json_or_empty req) "text")) eqn:Et; cbn [negb].
    2:{ split; [intros _ rep [= <-]; cbn; discriminate|]. cbn. congruence. }
    split; [intros _ rep [= <-]; cbn; discriminate|].
    intros _. apply jsstring_eqb_eq in Ep. auto.
Qed.

(** X15.  Round trip of the standards text.  A [PUT] with the
    administration token and a truthy [text] is answered 201 with the record
    written, the text and the time of the request, and leaves the
    correlation records alone; a [GET] with the token then answers 200 with
    that same record. *)
Theorem standards_round_trip w env put get s body :
  admin_token_given env put -> admin_token_given env get ->
  in_method put = lit "PUT" -> in_method get = lit "GET" ->
  in_json put = Some body -> truthy (prop body "text") = true ->
  let stored := VObj [(lit "text", prop body "text"); (lit "updated_at", VStr (clock w 0))] in
  let after := snd (V2.handleStandards w env put (start s)) in
  fst (V2.handleStandards w env put (start s)) = Normal (mkReply 201 (Json stored))
  /\ states (st_store after) = states s
  /\ fst (V2.handleStandards w env get (start (st_store after)))
     = Normal (mkReply 200 (Json stored)).
Proof.
  intros Hp Hg Mp Mg Hb Ht stored after.
  apply admin_guard in Hp, Hg.
  assert (Enull : nullish body = false).
  { destruct body; try reflexivity; discriminate Ht. }
  assert (R1 : V2.handleStandards w env put (start s)
               = (Normal (mkReply 201 (Json stored)),
                  mkRun (mkStore (states s)
                           (Some (mkStandards (prop body "text") (clock w 0))))
                        [EvPutStandards (mkStandards (prop body "text") (clock w 0))] [] 1)).
  { unfold V2.handleStandards. rewrite Hp, Mp.
    replace (jsstring_eqb (lit "PUT") (lit "GET")) with false by (vm_compute; reflexivity).
    replace (jsstring_eqb (lit "PUT") (lit "PUT")) with true by (vm_compute; reflexivity).
    unfold json_or_empty. rewrite Hb, Enull, Ht. reflexivity. }
  unfold after. rewrite R1. cbn [fst snd st_store states].
  split; [reflexivity|]. split; [reflexivity|].
  unfold V2.handleStandards. rewrite Hg, Mg.
  replace (jsstring_eqb (lit "GET") (lit "GET")) with true by (vm_compute; reflexivity).
  reflexivity.
Qed.

(** The text [Use early returns.] is written at [T0] and read back. *)
Lemma standards_round_trip_witness :
  fst (V2.handleStandards Scenario.world1 Cases.administered Cases.get_standards
         (start (st_store (snd (V2.handleStandards Scenario.world0 Cases.administered
                                  Cases.put_standards (start empty_store))))))
  = Normal (mkReply 200
              (Json (VObj [(lit "text", VStr (lit "Use early returns."));
                           (lit "updated_at", VStr Scenario.T0)]))).
Proof.
  assert (Ha : forall req, in_token req = Some (lit "s3cret") ->
                 admin_token_given Cases.administered req).
  { intros req H. exists (lit "s3cret"). repeat split; [|exact H]. vm_compute. discriminate. }
  destruct (standards_round_trip Scenario.world0 Cases.administered Cases.put_standards
              Cases.get_standards empty_store
              (VObj [(lit "text", VStr (lit "Use early returns."))])
              (Ha Cases.put_standards eq_refl) (Ha Cases.get_standards eq_refl)
              eq_refl eq_refl eq_refl)
    as (_ & _ & H).
  - vm_compute. reflexivity.
  - vm_compute. vm_compute in H. exact H.
Defined.

(* --------------------------------------------------------------------- *)
(** ** What every step of a request keeps to *)
(* --------------------------------------------------------------------- *)

Lemma only_push P st e : Only P st -> P e = true -> Only P (push st e).
Proof.
  unfold Only, push. simpl. intros H He. rewrite forallb_app, H. simpl. rewrite He. reflexivity.
Qed.

Lemma only_stored P st k r t : Only P st -> P (EvPut k r t) = true -> Only P (stored st k r t).
Proof.
  unfold Only, stored. simpl. intros H He. rewrite forallb_app, H. simpl. rewrite He.
  reflexivity.
Qed.

Lemma only_frame P ok st st' :
  frame ok st st' -> (forall rq, ok (rq_endpoint rq) = true -> P (EvFetch rq) = true) ->
  Only P st -> Only P st'.
Proof.
  intros [_ (evs & Ht & Hf)] HP H. unfold Only in *. rewrite Ht, forallb_app, H. simpl.
  apply forallb_forall. intros e He. rewrite List.Forall_forall in Hf.
  destruct (Hf e He) as (rq & -> & Hok). apply HP. exact Hok.
Qed.

Lemma only_weaken (P Q : event -> bool) tr :
  (forall e, P e = true -> Q e = true) -> forallb P tr = true -> forallb Q tr = true.
Proof. rewrite !forallb_forall. auto. Qed.

Ltac only_tac side :=
  repeat first
    [ assumption
    | eapply only_frame; [eassumption | solve [side] |]
    | apply only_stored; [| solve [side]]
    | apply only_push; [| solve [side]]
    | progress change (Only ?P (logged ?st _)) with (Only P st)
    | progress change (Only ?P (ticked ?st)) with (Only P st) ].

Ltac std_step :=
  lazymatch goal with
  | |- wp (bind (V2.setStandards _ _) _) _ _ _ => unfold V2.setStandards at 1; apply wp_bind
  | |- wp (standards_put _) _ _ _ => apply wp_standards_put
  | _ => frame_step
  end.

(** The grouping key has two colons at least. *)
Lemma groupKey_colons a b c :
  (2 <= count_occ N.eq_dec (groupKey a b c) 58%N)%nat.
Proof.
  unfold groupKey. rewrite colon_unfold, !count_occ_app. simpl. lia.
Qed.

Lemma groupKey_not_standards a b c : groupKey a b c <> STANDARDS_KEY.
Proof.
  intros H. pose proof (groupKey_colons a b c) as Hc. rewrite H in Hc.
  replace (count_occ N.eq_dec STANDARDS_KEY 58%N) with 1%nat in Hc by (vm_compute; reflexivity).
  lia.
Qed.

Ltac spare_side :=
  first
    [ reflexivity
    | intros; reflexivity
    | simpl; unfold groupKeyFrom; rewrite jsstring_eqb_neq by apply groupKey_not_standards;
      reflexivity ].

Lemma handleSentry_spares w env req s :
  wp (V2.handleSentry w env req) (fun _ st' => Only spares_standards st')
     (fun _ st' => Only spares_standards st') (start s).
Proof.
  assert (Hc : Only spares_standards (start s)) by reflexivity.
  unfold V2.handleSentry. repeat first [ solve [only_tac spare_side] | frame_step ].
Qed.

Lemma V1_spares w env req s :
  wp (V1.fetch_handler w env req) (fun _ st' => Only spares_standards st')
     (fun _ st' => Only spares_standards st') (start s).
Proof.
  assert (Hc : Only spares_standards (start s)) by reflexivity.
  unfold V1.fetch_handler. repeat first [ solve [only_tac spare_side] | frame_step ].
Qed.

Lemma handleSentry_avoids w env req s :
  env_bool (V2.CREATE_GITHUB_ON_SENTRY env) false = false ->
  wp (V2.handleSentry w env req) (fun _ st' => Only avoids_standards st')
     (fun _ st' => Only avoids_standards st') (start s).
Proof.
  intros Hflag. assert (Hc : Only avoids_standards (start s)) by reflexivity.
  unfold V2.handleSentry.
  repeat first [ solve [only_tac spare_side] | congruence | frame_step ].
Qed.

Lemma V1_avoids w env req s :
  wp (V1.fetch_handler w env req) (fun _ st' => Only avoids_standards st')
     (fun _ st' => Only avoids_standards st') (start s).
Proof.
  assert (Hc : Only avoids_standards (start s)) by reflexivity.
  unfold V1.fetch_handler. repeat first [ solve [only_tac spare_side] | frame_step ].
Qed.

(** X16.  An alert never changes the standards text.  The text lives in
    the same namespace as the records, under [STANDARDS:TEXT]; a grouping
    key is never that key (it has two colons at least), so no step of
    [handleSentry] or of the first worker reads or writes a record under
    it, and neither replaces the text.  The only step of theirs that
    touches the key is the read of the text ([getStandards]), which
    [handleSentry] makes only when [CREATE_GITHUB_ON_SENTRY] is [true]; the
    first worker never makes it. *)
Theorem events_spare_standards w s :
  (forall project env issue, groupKey project env issue <> STANDARDS_KEY)
  /\ (forall env req,
        forallb spares_standards (st_trace (snd (V2.handleSentry w env req (start s)))) = true
        /\ (env_bool (V2.CREATE_GITHUB_ON_SENTRY env) false = false ->
            forallb avoids_standards (st_trace (snd (V2.handleSentry w env req (start s))))
            = true))
  /\ (forall env req,
        forallb avoids_standards (st_trace (snd (V1.fetch_handler w env req (start s)))) = true).
Proof.
  split; [exact groupKey_not_standards|]. split; intros env req.
  - split; [apply (wp_snd _ (Only spares_standards)), handleSentry_spares|].
    intros Hflag. apply (wp_snd _ (Only avoids_standards)), handleSentry_avoids, Hflag.
  - apply (wp_snd _ (Only avoids_standards)), V1_avoids.
Qed.

Ltac ttl_side := first [reflexivity | intros; reflexivity].

Lemma handleSentry_ttl w env req s :
  wp (V2.handleSentry w env req) (fun _ st' => Only expires_in_90_days st')
     (fun _ st' => Only expires_in_90_days st') (start s).
Proof.
  assert (Hc : Only expires_in_90_days (start s)) by reflexivity.
  unfold V2.handleSentry. repeat first [ solve [only_tac ttl_side] | frame_step ].
Qed.

Lemma handleClickUp_ttl w env req s :
  wp (V2.handleClickUp w env req) (fun _ st' => Only expires_in_90_days st')
     (fun _ st' => Only expires_in_90_days st') (start s).
Proof.
  assert (Hc : Only expires_in_90_days (start s)) by reflexivity.
  unfold V2.handleClickUp. repeat first [ solve [only_tac ttl_side] | frame_step ].
Qed.

Lemma V1_ttl w env req s :
  wp (V1.fetch_handler w env req) (fun _ st' => Only expires_in_90_days st')
     (fun _ st' => Only expires_in_90_days st') (start s).
Proof.
  assert (Hc : Only expires_in_90_days (start s)) by reflexivity.
  unfold V1.fetch_handler. repeat first [ solve [only_tac ttl_side] | frame_step ].
Qed.

Lemma handleStandards_ttl w env req s :
  wp (V2.handleStandards w env req) (fun _ st' => Only expires_in_90_days st')
     (fun _ st' => Only expires_in_90_days st') (start s).
Proof.
  unfold V2.handleStandards. repeat first [ reflexivity | std_step ].
Qed.

(** X17.  Every correlation record is written to expire after ninety days
    (7776000 seconds): this holds for each write of each request, by the
    first worker and through every route of the later one. *)
Theorem records_expire_in_90_days w s env1 env2 req :
  forallb expires_in_90_days (st_trace (snd (V1.fetch_handler w env1 req (start s)))) = true
  /\ forallb expires_in_90_days (st_trace (snd (V2.fetch_handler w env2 req (start s)))) = true.
Proof.
  split.
  - apply (wp_snd _ (Only expires_in_90_days)), V1_ttl.
  - apply (wp_snd _ (Only expires_in_90_days)). unfold V2.fetch_handler.
    repeat lazymatch goal with
           | |- wp (if ?c then _ else _) _ _ _ => destruct c
           end;
      first [ apply handleSentry_ttl | apply handleClickUp_ttl | apply handleStandards_ttl
            | apply wp_ret; reflexivity ].
Qed.

(* --------------------------------------------------------------------- *)
(** ** The records of a first occurrence and of an escalation *)
(* --------------------------------------------------------------------- *)

Lemma written_push R st e :
  Written R st -> (forall k r t, e <> EvPut k r t) -> Written R (push st e).
Proof.
  intros H He k r t Hin. unfold push in Hin. simpl in Hin.
  apply in_app_or in Hin as [Hin | [Heq | []]]; [eauto|]. exfalso. eapply He; eauto.
Qed.

Lemma written_stored R st k r t : Written R st -> R k r -> Written R (stored st k r t).
Proof.
  intros H He k' r' t' Hin. unfold stored in Hin. simpl in Hin.
  apply in_app_or in Hin as [Hin | [Heq | []]]; [eauto|]. injection Heq as <- <- <-. exact He.
Qed.

Lemma written_frame ok R st st' : frame ok st st' -> Written R st -> Written R st'.
Proof.
  intros [_ (evs & Ht & Hf)] H k r t Hin. rewrite Ht in Hin.
  apply in_app_or in Hin as [Hin | Hin]; [eauto|].
  rewrite List.Forall_forall in Hf. destruct (Hf _ Hin) as (rq & Heq & _). discriminate.
Qed.

Lemma written_start R s : Written R (start s).
Proof. intros ? ? ? []. Qed.

Ltac written_tac side :=
  repeat first
    [ assumption
    | eapply written_frame; [eassumption|]
    | apply written_push; [| intros; discriminate]
    | apply written_stored; [| solve [side]]
    | progress change (Written ?R (logged ?st _)) with (Written R st)
    | progress change (Written ?R (ticked ?st)) with (Written R st) ].

Ltac first_side :=
  let H := fresh in
  intros H; cbn [st_store start] in *; simplify_eq; cbn;
  repeat match goal with Ht : st_ticks _ = _ |- _ => rewrite Ht end;
  auto.

Lemma handleSentry_first w env req s :
  wp (V2.handleSentry w env req) (fun _ st' => Written (first_of w s) st')
     (fun _ st' => Written (first_of w s) st') (start s).
Proof.
  pose proof (written_start (first_of w s) s) as Hc.
  unfold V2.handleSentry. repeat first [ solve [written_tac first_side] | frame_step ].
Qed.

Lemma V1_first w env req s :
  wp (V1.fetch_handler w env req) (fun _ st' => Written (first_of w s) st')
     (fun _ st' => Written (first_of w s) st') (start s).
Proof.
  pose proof (written_start (first_of w s) s) as Hc.
  unfold V1.fetch_handler. repeat first [ solve [written_tac first_side] | frame_step ].
Qed.

(** Creating or updating the issue does not read the clock. *)
Lemma gh_ticks w env gk p ai std ex st :
  wp (V2.githubCreateOrUpdateIssue w env gk p ai std ex)
     (fun _ st' => frame any_endpoint st st' /\ st_ticks st' = st_ticks st)
     (fun _ st' => frame any_endpoint st st' /\ st_ticks st' = st_ticks st) st.
Proof.
  unfold V2.githubCreateOrUpdateIssue.
  repeat (wp_step; try solve [split; [frame_tac | reflexivity]]).
Qed.

(** The record under the key, read at any point of the request. *)
Ltac read_step :=
  lazymatch goal with
  | |- wp (bind (state_get ?k) _) _ _ ?st =>
      apply wp_bind, wp_state_get;
      let prior := fresh "prior" in
      let E := fresh "Eprior" in
      destruct (states (st_store st) !! k) as [prior|] eqn:E; cbn [st_store push start] in E
  end.

Ltac ticks_step :=
  lazymatch goal with
  | |- wp (bind (V2.githubCreateOrUpdateIssue _ _ _ _ _ _ _) _) _ _ _ =>
      apply wp_bind; eapply wp_mono; [apply gh_ticks | intros ? ? [? ?] | intros ? ? [? ?]];
      cbv beta in *; cbn [st_ticks push start] in *
  | |- wp (bind (state_get _) _) _ _ _ => read_step
  | _ => frame_step
  end.

Lemma handleClickUp_first w env req s :
  wp (V2.handleClickUp w env req) (fun _ st' => Written (first_of w s) st')
     (fun _ st' => Written (first_of w s) st') (start s).
Proof.
  pose proof (written_start (first_of w s) s) as Hc.
  unfold V2.handleClickUp. repeat first [ solve [written_tac first_side] | ticks_step ].
Qed.

(** X18.  The record of a first occurrence.  Under a key that holds no
    record, every record that a request writes counts one occurrence and is
    first seen at the time the request read from the clock first: in
    [handleSentry], in the escalation (when the record has expired or was
    never written; the key read off the task is not the key of the
    standards text) and in the first worker. *)
Theorem first_record w s key rec ttl :
  states s !! key = None ->
  (forall env req,
     In (EvPut key rec ttl) (st_trace (snd (V2.handleSentry w env req (start s)))) ->
     count rec = 1 /\ first_seen rec = clock w 0)
  /\ (forall env req,
     key <> STANDARDS_KEY ->
     In (EvPut key rec ttl) (st_trace (snd (V2.handleClickUp w env req (start s)))) ->
     count rec = 1 /\ first_seen rec = clock w 0)
  /\ (forall env req,
     In (EvPut key rec ttl) (st_trace (snd (V1.fetch_handler w env req (start s)))) ->
     count rec = 1 /\ first_seen rec = clock w 0).
Proof.
  intros Hnone. split; [|split]; [intros env req Hin | intros env req _ Hin | intros env req Hin].
  - exact (wp_snd _ (Written (first_of w s)) _ (handleSentry_first w env req s) _ _ _ Hin Hnone).
  - exact (wp_snd _ (Written (first_of w s)) _ (handleClickUp_first w env req s) _ _ _ Hin
             Hnone).
  - exact (wp_snd _ (Written (first_of w s)) _ (V1_first w env req s) _ _ _ Hin Hnone).
Qed.

(** The alert of the scenario, delivered to the first worker at [T0]. *)
Lemma first_record_witness :
  exists rec ttl,
    In (EvPut Scenario.gk0 rec ttl) (st_trace (snd Scenario.first_run1))
    /\ count rec = 1 /\ first_seen rec = Scenario.T0.
Proof.
  assert (Ht : exists rec ttl,
             In (EvPut Scenario.gk0 rec ttl) (st_trace (snd Scenario.first_run1))).
  { vm_compute. do 2 eexists. right; right; left. reflexivity. }
  destruct Ht as (rec & ttl & Hin). exists rec, ttl. split; [exact Hin|].
  apply (proj2 (proj2 (first_record Scenario.world0 empty_store Scenario.gk0 rec ttl
                         (lookup_empty _))) Scenario.env1 Scenario.req0 Hin).
Defined.

Lemma gh_patch_frame w env gk p ai std ex st :
  truthy ex = true ->
  wp (V2.githubCreateOrUpdateIssue w env gk p ai std ex)
     (fun num st' => frame any_endpoint st st' /\ num = ex)
     (fun _ st' => frame any_endpoint st st') st.
Proof.
  intros H. unfold V2.githubCreateOrUpdateIssue.
  repeat (wp_step; try solve [frame_tac | split; [frame_tac | reflexivity]]);
    rewrite H in *; discriminate.
Qed.

Ltac escalated_step :=
  lazymatch goal with
  | |- wp (bind (V2.githubCreateOrUpdateIssue _ _ _ _ _ _ ?ex) _) _ _ _ =>
      apply wp_bind;
      let E := fresh "Eex" in
      destruct (truthy ex) eqn:E;
      [ eapply wp_mono; [apply (gh_patch_frame _ _ _ _ _ _ _ _ E) | intros ? ? [? ?] | intros ? ? ?]
      | eapply wp_mono; [apply gh_frame | intros ? ? ? | intros ? ? ?] ];
      cbv beta in *
  | |- wp (bind (state_get _) _) _ _ _ => read_step
  | _ => frame_step
  end.

Ltac escalated_side :=
  let H := fresh in
  intros ? H; cbn [st_store start] in *; simplify_eq; cbn in *;
  repeat split; auto; intros; congruence.

Lemma handleClickUp_escalated w env req s :
  wp (V2.handleClickUp w env req) (fun _ st' => Written (escalated s) st')
     (fun _ st' => Written (escalated s) st') (start s).
Proof.
  pose proof (written_start (escalated s) s) as Hc.
  unfold V2.handleClickUp.
  repeat first [ solve [written_tac escalated_side] | escalated_step ].
Qed.

(** X19.  An escalation is no occurrence.  The record that
    [handleClickUp] writes back under a key that held a record (and is not
    the key of the standards text) has the occurrence count and the
    first-seen time of that record, unchanged, and its issue number if it
    had one. *)
Theorem escalation_keeps_count w s key prior rec ttl env req :
  key <> STANDARDS_KEY ->
  states s !! key = Some prior ->
  In (EvPut key rec ttl) (st_trace (snd (V2.handleClickUp w env req (start s)))) ->
  count rec = count prior /\ first_seen rec = first_seen prior
  /\ (truthy (issue_number prior) = true -> issue_number rec = issue_number prior).
Proof.
  intros _ Hprior Hin.
  exact (wp_snd _ (Written (escalated s)) _ (handleClickUp_escalated w env req s)
           _ _ _ Hin _ Hprior).
Qed.

(** The task of the scenario is tagged a day after its only occurrence. *)
Lemma escalation_keeps_count_witness :
  exists rec ttl,
    In (EvPut Scenario.gk0 rec ttl)
       (st_trace (snd (V2.handleClickUp Scenario.world1 Scenario.env2 Scenario.tagged
                         (start Scenario.store_seen_once))))
    /\ count rec = 1 /\ first_seen rec = Scenario.T0 /\ issue_number rec = VNum 7.
Proof.
  assert (Ht : exists rec ttl,
             In (EvPut Scenario.gk0 rec ttl)
                (st_trace (snd (V2.handleClickUp Scenario.world1 Scenario.env2 Scenario.tagged
                                  (start Scenario.store_seen_once))))).
  { vm_compute. do 2 eexists. do 4 right. left. reflexivity. }
  destruct Ht as (rec & ttl & Hin). exists rec, ttl. split; [exact Hin|].
  assert (Hk : Scenario.gk0 <> STANDARDS_KEY) by (vm_compute; discriminate).
  destruct (escalation_keeps_count Scenario.world1 Scenario.store_seen_once Scenario.gk0
              Scenario.seen_once rec ttl Scenario.env2 Scenario.tagged
              Hk (lookup_singleton_eq _ _) Hin) as (H1 & H2 & H3).
  split; [exact H1|]. split; [exact H2|]. apply H3. reflexivity.
Defined.

(* --------------------------------------------------------------------- *)
(** ** Counts in every store that requests lead to *)
(* --------------------------------------------------------------------- *)

Lemma handleStandards_states w env req s :
  states (st_store (snd (V2.handleStandards w env req (start s)))) = states s.
Proof.
  unfold V2.handleStandards, V2.setStandards, V2.getStandards, bind, standards_get,
    standards_put, nowIso, ret, throw.
  repeat match goal with
         | |- context [if ?c then _ else _] => destruct c
         end; reflexivity.
Qed.

Lemma reachable_positive s : reachable s -> positive s.
Proof.
  induction 1 as [|w env req s _ IH|w env req s _ IH|key s _ IH].
  - exact empty_store_positive.
  - destruct (counts_stay_positive w s IH) as (H1 & H2 & _).
    unfold V2.fetch_handler.
    repeat match goal with
           | |- context [if ?c then _ else _] => destruct c
           end; try exact IH.
    + exact (wp_snd _ Pos _ (H1 env req)).
    + exact (wp_snd _ Pos _ (H2 env req)).
    + unfold positive. rewrite handleStandards_states. exact IH.
  - destruct (counts_stay_positive w s IH) as (_ & _ & H3).
    exact (wp_snd _ Pos _ (H3 env req)).
  - intros k rec Hk. cbn [states] in Hk. apply lookup_delete_Some in Hk as [_ Hk].
    exact (IH k rec Hk).
Qed.

(** X20.  Every record counts at least one occurrence, in every store
    that can be reached from the empty namespace by requests to the later
    worker's router and to the first worker, in any order, with any
    configuration and in any world, and by the expiry of records.  (The key
    of the standards text holds no record.) *)
Theorem reachable_counts_positive s key rec :
  reachable s -> key <> STANDARDS_KEY -> states s !! key = Some rec -> 0 < count rec.
Proof. intros Hs _ Hrec. exact (reachable_positive s Hs key rec Hrec). Qed.

(** The store after the alert of the scenario went through the router. *)
Lemma reachable_counts_positive_witness :
  exists rec,
    states (st_store (snd (V2.fetch_handler Scenario.world0 Scenario.env2 Scenario.req0
                             (start empty_store)))) !! Scenario.gk0 = Some rec
    /\ 0 < count rec.
Proof.
  assert (Ht : exists rec,
             states (st_store (snd (V2.fetch_handler Scenario.world0 Scenario.env2
                                      Scenario.req0 (start empty_store))))
               !! Scenario.gk0 = Some rec).
  { vm_compute. eexists. reflexivity. }
  destruct Ht as (rec & Hrec). exists rec. split; [exact Hrec|].
  assert (Hk : Scenario.gk0 <> STANDARDS_KEY) by (vm_compute; discriminate).
  exact (reachable_counts_positive _ Scenario.gk0 rec
           (reach_later Scenario.world0 Scenario.env2 Scenario.req0 empty_store reach_empty)
           Hk Hrec).
Defined.

(* --------------------------------------------------------------------- *)
(** ** A recorded ticket is reused *)
(* --------------------------------------------------------------------- *)

Lemma tracked_frame ok gk (A B : Prop) st st' :
  frame ok st st' ->
  (A -> ok GhCreateIssue = false) -> (B -> ok CuCreateTask = false) ->
  Tracked gk A B st -> Tracked gk A B st'.
Proof.
  intros [_ (evs & Ht & Hf)] HA HB (Hr & Hi & Hc). unfold Tracked. rewrite Ht.
  split; [|split].
  - intros key Hin. apply in_app_or in Hin as [Hin | Hin]; [auto|].
    rewrite List.Forall_forall in Hf. destruct (Hf _ Hin) as (rq & Heq & _). discriminate.
  - intros a. rewrite fetches_app, (Hi a), (fetches_frame ok _ evs Hf (HA a)). reflexivity.
  - intros b. rewrite fetches_app, (Hc b), (fetches_frame ok _ evs Hf (HB b)). reflexivity.
Qed.

Lemma tracked_push gk (A B : Prop) st e :
  Tracked gk A B st ->
  match e with
  | EvGet _ => False
  | EvFetch rq => (A -> endpoint_eqb (rq_endpoint rq) GhCreateIssue = false)
                  /\ (B -> endpoint_eqb (rq_endpoint rq) CuCreateTask = false)
  | _ => True
  end ->
  Tracked gk A B (push st e).
Proof.
  intros (Hr & Hi & Hc) He. unfold Tracked, push. cbn [st_trace].
  split; [|split].
  - intros key Hin. apply in_app_or in Hin as [Hin | [Heq | []]]; [auto|].
    subst e. destruct He.
  - intros a. rewrite fetches_app, (Hi a). destruct e; cbn [fetches]; try reflexivity.
    destruct He as [He _]. rewrite (He a). reflexivity.
  - intros b. rewrite fetches_app, (Hc b). destruct e; cbn [fetches]; try reflexivity.
    destruct He as [_ He]. rewrite (He b). reflexivity.
Qed.

Lemma tracked_stored gk (A B : Prop) st k r t :
  Tracked gk A B st -> Tracked gk A B (stored st k r t).
Proof. intros H. apply (tracked_push gk A B st (EvPut k r t) H). exact I. Qed.

(** The first read of a request, after no call or after the task fetch. *)
Lemma tracked_init gk (A B : Prop) st :
  st_trace st = [] \/ (exists rq, st_trace st = [EvFetch rq]
                       /\ endpoint_eqb (rq_endpoint rq) GhCreateIssue = false
                       /\ endpoint_eqb (rq_endpoint rq) CuCreateTask = false) ->
  Tracked gk A B (push st (EvGet gk)).
Proof.
  intros [H | (rq & H & H1 & H2)]; unfold Tracked, push; cbn [st_trace]; rewrite H;
    cbn [app In fetches]; rewrite ?H1, ?H2;
    (split; [intros key Hk; intuition congruence | split; reflexivity]).
Qed.

Lemma tracked_done gk (A B : Prop) (s : store) prior0 st :
  states s !! gk = prior0 ->
  (forall p, prior0 = Some p -> truthy (issue_number p) = true -> A) ->
  (forall p, prior0 = Some p -> truthy (clickup_task_id p) = true -> B) ->
  Tracked gk A B st ->
  forall key prior, In (EvGet key) (st_trace st) -> states s !! key = Some prior ->
    (truthy (issue_number prior) = true -> fetches GhCreateIssue (st_trace st) = 0%nat)
    /\ (truthy (clickup_task_id prior) = true -> fetches CuCreateTask (st_trace st) = 0%nat).
Proof.
  intros Hs HA HB (Hr & Hi & Hc) key prior Hin Hp.
  rewrite (Hr key Hin), Hs in Hp. split; intros Ht; eauto.
Qed.

Ltac tracked_tac :=
  repeat first
    [ assumption
    | eapply tracked_frame;
      [ eassumption
      | intros; first [reflexivity | congruence]
      | intros; first [reflexivity | congruence]
      | ]
    | apply tracked_stored
    | apply tracked_push;
      [| first [ exact I
               | split; intros; first [reflexivity | congruence | contradiction] ] ]
    | progress change (Tracked ?gk ?A ?B (logged ?st _)) with (Tracked gk A B st)
    | progress change (Tracked ?gk ?A ?B (ticked ?st)) with (Tracked gk A B st) ].

(** On the update path the task call is the repeat comment at most. *)
Lemma cu_frame_update w env gk p ai prior st :
  truthy (V2.prior_task_id prior) = true ->
  wp (V2.clickupCreateOrUpdate w env gk p ai prior)
     (fun _ st' => frame is_repeat_comment st st')
     (fun _ st' => frame is_repeat_comment st st') st.
Proof.
  intros H. unfold V2.clickupCreateOrUpdate. rewrite H. cbn [negb].
  repeat (wp_step; try solve [frame_tac]).
Qed.

Lemma cu_frame_tasks w env gk p ai prior st :
  wp (V2.clickupCreateOrUpdate w env gk p ai prior)
     (fun _ st' => frame no_issue_create st st')
     (fun _ st' => frame no_issue_create st st') st.
Proof. unfold V2.clickupCreateOrUpdate. repeat (wp_step; try solve [frame_tac]). Qed.

(** With an issue number at hand the issue call is the update. *)
Lemma gh_frame_patch w env gk p ai std ex st :
  truthy ex = true ->
  wp (V2.githubCreateOrUpdateIssue w env gk p ai std ex)
     (fun _ st' => frame is_patch st st') (fun _ st' => frame is_patch st st') st.
Proof.
  intros H. unfold V2.githubCreateOrUpdateIssue.
  repeat (wp_step; try solve [frame_tac]); rewrite H in *; discriminate.
Qed.

Lemma gh_frame_issues w env gk p ai std ex st :
  wp (V2.githubCreateOrUpdateIssue w env gk p ai std ex)
     (fun _ st' => frame no_task_create st st')
     (fun _ st' => frame no_task_create st st') st.
Proof. unfold V2.githubCreateOrUpdateIssue. repeat (wp_step; try solve [frame_tac]). Qed.

Ltac tracked_step :=
  lazymatch goal with
  | |- wp (bind (V2.aiSummarize _ _ _) _) _ _ _ => apply wp_bind; framed aiSummarize_frame
  | |- wp (bind (V2.clickupCreateOrUpdate _ _ _ _ _ ?prior) _) _ _ _ =>
      apply wp_bind;
      let E := fresh "Etask" in
      destruct (truthy (V2.prior_task_id prior)) eqn:E;
      [ eapply wp_mono; [apply cu_frame_update; exact E | intros ? ? ? | intros ? ? ?];
        cbv beta in *
      | framed cu_frame_tasks ]
  | |- wp (bind (V2.githubCreateOrUpdateIssue _ _ _ _ _ _ ?ex) _) _ _ _ =>
      apply wp_bind;
      let E := fresh "Eissue" in
      destruct (truthy ex) eqn:E;
      [ eapply wp_mono; [apply gh_frame_patch; exact E | intros ? ? ? | intros ? ? ?];
        cbv beta in *
      | framed gh_frame_issues ]
  | |- wp (bind (V2.clickupAddComment _ _ _ _) _) _ _ _ => apply wp_bind; framed comment_frame
  | |- wp (V2.clickupAddComment _ _ _ _) _ _ _ => framed comment_frame
  | _ => wp_step
  end.

(** From the read of the record to the end of the request. *)
Ltac tracked_run :=
  lazymatch goal with
  | |- wp (bind (state_get ?k) _) _ _ ?st =>
      apply wp_bind, wp_state_get;
      let E := fresh "Eprior" in
      destruct (states (st_store st) !! k) as [?prior|] eqn:E; cbn [st_store push start] in E;
      lazymatch type of E with
      | _ = ?p0 =>
          eapply (wp_mono _
                    (fun _ st' => Tracked k (truthy (V2.prior_issue_number p0) = true)
                                    (truthy (V2.prior_task_id p0) = true) st') _
                    (fun _ st' => Tracked k (truthy (V2.prior_issue_number p0) = true)
                                    (truthy (V2.prior_task_id p0) = true) st'));
          [ assert (Hc : Tracked k (truthy (V2.prior_issue_number p0) = true)
                           (truthy (V2.prior_task_id p0) = true) (push st (EvGet k)))
              by (apply tracked_init; cbn [st_trace push start app]; eauto);
            repeat first [ solve [tracked_tac] | tracked_step ]
          | intros ? ?; apply (tracked_done _ _ _ _ _ _ E); intros ? [= <-]; cbn; auto
          | intros ? ?; apply (tracked_done _ _ _ _ _ _ E); intros ? [= <-]; cbn; auto ]
      end
  end.

Lemma handleSentry_tracked w env req s :
  wp (V2.handleSentry w env req)
     (fun _ st' => forall key prior, In (EvGet key) (st_trace st') ->
        states s !! key = Some prior ->
        (truthy (issue_number prior) = true -> fetches GhCreateIssue (st_trace st') = 0%nat)
        /\ (truthy (clickup_task_id prior) = true ->
            fetches CuCreateTask (st_trace st') = 0%nat))
     (fun _ st' => forall key prior, In (EvGet key) (st_trace st') ->
        states s !! key = Some prior ->
        (truthy (issue_number prior) = true -> fetches GhCreateIssue (st_trace st') = 0%nat)
        /\ (truthy (clickup_task_id prior) = true ->
            fetches CuCreateTask (st_trace st') = 0%nat))
     (start s).
Proof.
  unfold V2.handleSentry.
  repeat first [ solve [intros ? ? []] | tracked_run | wp_step ].
Qed.

Lemma handleClickUp_tracked w env req s :
  wp (V2.handleClickUp w env req)
     (fun _ st' => forall key prior, In (EvGet key) (st_trace st') ->
        states s !! key = Some prior ->
        (truthy (issue_number prior) = true -> fetches GhCreateIssue (st_trace st') = 0%nat)
        /\ (truthy (clickup_task_id prior) = true ->
            fetches CuCreateTask (st_trace st') = 0%nat))
     (fun _ st' => forall key prior, In (EvGet key) (st_trace st') ->
        states s !! key = Some prior ->
        (truthy (issue_number prior) = true -> fetches GhCreateIssue (st_trace st') = 0%nat)
        /\ (truthy (clickup_task_id prior) = true ->
            fetches CuCreateTask (st_trace st') = 0%nat))
     (start s).
Proof.
  unfold V2.handleClickUp, V2.get_task_request.
  repeat first
    [ solve [intros ? ? []]
    | solve [intros ? ? [|[]]; discriminate]
    | tracked_run
    | wp_step ].
Qed.

(** The first worker creates an issue only for a key without a record. *)
Lemma V1_tracked w env req s :
  wp (V1.fetch_handler w env req)
     (fun _ st' => forall key prior, In (EvGet key) (st_trace st') ->
        states s !! key = Some prior -> fetches GhCreateIssue (st_trace st') = 0%nat)
     (fun _ st' => forall key prior, In (EvGet key) (st_trace st') ->
        states s !! key = Some prior -> fetches GhCreateIssue (st_trace st') = 0%nat)
     (start s).
Proof.
  unfold V1.fetch_handler.
  repeat first
    [ solve [intros ? ? []]
    | lazymatch goal with
      | |- wp (bind (state_get ?k) _) _ _ ?st =>
          apply wp_bind, wp_state_get;
          let E := fresh "Eprior" in
          destruct (states (st_store st) !! k) as [?prior|] eqn:E;
          cbn [st_store push start] in E;
          lazymatch type of E with
          | _ = ?p0 =>
              eapply (wp_mono _
                        (fun _ st' => Tracked k (p0 <> None) False st') _
                        (fun _ st' => Tracked k (p0 <> None) False st'));
              [ assert (Hc : Tracked k (p0 <> None) False (push st (EvGet k)))
                  by (apply tracked_init; cbn [st_trace push start app]; eauto);
                repeat first [ solve [tracked_tac] | wp_step ]
              | intros ? ? (Hr & Hi & _) key prior' Hin Hp; rewrite (Hr key Hin), E in Hp;
                apply Hi; congruence
              | intros ? ? (Hr & Hi & _) key prior' Hin Hp; rewrite (Hr key Hin), E in Hp;
                apply Hi; congruence ]
          end
      end
    | wp_step ].
Qed.

(** X21.  A recorded ticket is reused, whatever the services answer.
    When the record that a request reads names a task, [handleSentry]
    makes no task create call; when it names an issue, neither
    [handleSentry] nor the escalation (reading under a key other than that
    of the standards text) makes an issue create call; and the first
    worker makes no issue create call when it reads a record at all. *)
Theorem recorded_tickets_are_reused w s key prior :
  states s !! key = Some prior ->
  (forall env req,
     In (EvGet key) (st_trace (snd (V2.handleSentry w env req (start s)))) ->
     (truthy (clickup_task_id prior) = true ->
      fetches CuCreateTask (st_trace (snd (V2.handleSentry w env req (start s)))) = 0%nat)
     /\ (truthy (issue_number prior) = true ->
         fetches GhCreateIssue (st_trace (snd (V2.handleSentry w env req (start s)))) = 0%nat))
  /\ (forall env req,
     key <> STANDARDS_KEY ->
     In (EvGet key) (st_trace (snd (V2.handleClickUp w env req (start s)))) ->
     truthy (issue_number prior) = true ->
     fetches GhCreateIssue (st_trace (snd (V2.handleClickUp w env req (start s)))) = 0%nat)
  /\ (forall env req,
     In (EvGet key) (st_trace (snd (V1.fetch_handler w env req (start s)))) ->
     fetches GhCreateIssue (st_trace (snd (V1.fetch_handler w env req (start s)))) = 0%nat).
Proof.
  intros Hp. split; [|split]; [intros env req Hin | intros env req _ Hin | intros env req Hin].
  - pose proof (handleSentry_tracked w env req s) as H. unfold wp in H.
    destruct (V2.handleSentry w env req (start s)) as [[rep|e] st'];
      destruct (H _ _ Hin Hp); auto.
  - pose proof (handleClickUp_tracked w env req s) as H. unfold wp in H.
    destruct (V2.handleClickUp w env req (start s)) as [[rep|e] st'];
      destruct (H _ _ Hin Hp); auto.
  - pose proof (V1_tracked w env req s) as H. unfold wp in H.
    destruct (V1.fetch_handler w env req (start s)) as [[rep|e] st']; exact (H _ _ Hin Hp).
Qed.

(** The task of the scenario is tagged once its issue exists: the issue is
    updated, not created again. *)
Lemma recorded_tickets_are_reused_witness :
  fetches GhCreateIssue
    (st_trace (snd (V2.handleClickUp Scenario.world1 Scenario.env2 Scenario.tagged
                      (start Scenario.store_seen_once)))) = 0%nat
  /\ fetches GhPatchIssue
       (st_trace (snd (V2.handleClickUp Scenario.world1 Scenario.env2 Scenario.tagged
                         (start Scenario.store_seen_once)))) = 1%nat.
Proof.
  split; [|vm_compute; reflexivity].
  apply (proj1 (proj2 (recorded_tickets_are_reused Scenario.world1 Scenario.store_seen_once
                         Scenario.gk0 Scenario.seen_once (lookup_singleton_eq _ _)))
           Scenario.env2 Scenario.tagged).
  - vm_compute; discriminate.
  - vm_compute. right; left. reflexivity.
  - reflexivity.
Defined.

(* --------------------------------------------------------------------- *)
(** ** The status of the answer and the creation *)
(* --------------------------------------------------------------------- *)

Lemma frame_keeps ok ep st st' :
  frame ok st st' -> ok ep = false ->
  fetches ep (st_trace st') = fetches ep (st_trace st).
Proof.
  intros [_ (evs & Ht & Hf)] H. rewrite Ht, fetches_app, (fetches_frame ok _ evs Hf H). lia.
Qed.

Lemma writes_app a b : writes (a ++ b) = (writes a + writes b)%nat.
Proof. induction a as [|e a IH]; [reflexivity|]. destruct e; simpl; rewrite ?IH; lia. Qed.

(** [created] tells whether the task create call was made. *)
Lemma cu_counts w env gk p ai prior st :
  wp (V2.clickupCreateOrUpdate w env gk p ai prior)
     (fun cu st' =>
        fetches CuCreateTask (st_trace st')
        = (fetches CuCreateTask (st_trace st) + if V2.created cu then 1 else 0)%nat)
     (fun _ st' =>
        (fetches CuCreateTask (st_trace st') <= fetches CuCreateTask (st_trace st) + 1)%nat) st.
Proof.
  unfold V2.clickupCreateOrUpdate.
  repeat (wp_step;
          try solve [cbn [st_trace push logged ticked V2.created]; rewrite ?fetches_app;
                     cbn [fetches rq_endpoint endpoint_eqb]; lia]).
Qed.

Ltac count_step :=
  lazymatch goal with
  | |- wp (bind (V2.aiSummarize _ _ _) _) _ _ _ => apply wp_bind; framed aiSummarize_frame
  | |- wp (bind (V2.clickupCreateOrUpdate _ _ _ _ _ _) _) _ _ _ =>
      apply wp_bind; framed cu_counts
  | |- wp (bind (V2.githubCreateOrUpdateIssue _ _ _ _ _ _ _) _) _ _ _ =>
      apply wp_bind; framed gh_frame_issues
  | |- wp (bind (V2.clickupAddComment _ _ _ _) _) _ _ _ => apply wp_bind; framed comment_frame
  | |- wp (V2.clickupAddComment _ _ _ _) _ _ _ => framed comment_frame
  | _ => wp_step
  end.

Ltac count_tac :=
  repeat match goal with
         | H : frame ?ok ?st ?st' |- _ =>
             apply (fun F => frame_keeps ok CuCreateTask st st' F eq_refl) in H
         end;
  cbn [st_trace push stored logged ticked start status ok err app] in *;
  rewrite ?fetches_app in *; cbn [fetches] in *;
  repeat match goal with
         | |- context [V2.created ?cu] => destruct (V2.created cu)
         | H : context [V2.created ?cu] |- _ => destruct (V2.created cu)
         end;
  try split; intros; try split; intros; lia.

Lemma handleSentry_counts w env req s :
  wp (V2.handleSentry w env req)
     (fun rep st' =>
        (fetches CuCreateTask (st_trace st') <= 1)%nat
        /\ (status rep = 201 <-> fetches CuCreateTask (st_trace st') = 1%nat))
     (fun _ st' => (fetches CuCreateTask (st_trace st') <= 1)%nat) (start s).
Proof.
  unfold V2.handleSentry. repeat first [ solve [count_tac] | count_step ].
Qed.

Ltac count1_tac :=
  cbn [st_trace push stored logged ticked start status V1.text_reply app];
  rewrite ?fetches_app, ?writes_app;
  cbn [fetches writes rq_endpoint endpoint_eqb];
  repeat split; intros;
  repeat match goal with H : _ /\ _ |- _ => destruct H end; lia.

Lemma V1_counts w env req s :
  wp (V1.fetch_handler w env req)
     (fun rep st' =>
        status rep = 201
        <-> fetches GhCreateIssue (st_trace st') = 1%nat /\ writes (st_trace st') = 1%nat)
     (fun _ _ => True) (start s).
Proof.
  unfold V1.fetch_handler. repeat first [ exact I | solve [count1_tac] | wp_step ].
Qed.

(** X22.  The answer is 201 exactly when something was created.
    [handleSentry] makes at most one task create call, and an answer of
    it has status 201 if and only if that call was made (a refused create
    throws, so the call then succeeded).  An answer of the first worker
    has status 201 if and only if it made the issue create call and wrote
    the record. *)
Theorem created_is_201 w s req :
  (forall env,
     (fetches CuCreateTask (st_trace (snd (V2.handleSentry w env req (start s)))) <= 1)%nat
     /\ forall rep, fst (V2.handleSentry w env req (start s)) = Normal rep ->
          (status rep = 201
           <-> fetches CuCreateTask (st_trace (snd (V2.handleSentry w env req (start s))))
               = 1%nat))
  /\ (forall env rep,
        fst (V1.fetch_handler w env req (start s)) = Normal rep ->
        (status rep = 201
         <-> fetches GhCreateIssue (st_trace (snd (V1.fetch_handler w env req (start s))))
             = 1%nat
             /\ writes (st_trace (snd (V1.fetch_handler w env req (start s)))) = 1%nat)).
Proof.
  split.
  - intros env. pose proof (handleSentry_counts w env req s) as H. unfold wp in H.
    destruct (V2.handleSentry w env req (start s)) as [[rep|e] st']; cbn [fst snd].
    + destruct H as [H1 H2]. split; [exact H1|]. intros rep' [= <-]. exact H2.
    + split; [exact H|]. discriminate.
  - intros env rep Hrep. pose proof (V1_counts w env req s) as H. unfold wp in H.
    destruct (V1.fetch_handler w env req (start s)) as [[rep'|e] st']; cbn [fst snd] in *;
      [|discriminate]. injection Hrep as <-. exact H.
Qed.

(* --------------------------------------------------------------------- *)
(** ** Calls that the configuration does not open *)
(* --------------------------------------------------------------------- *)

(** Booleans of the configuration, decided from the guards passed. *)
Ltac guards :=
  unfold sentry_sites, escalation_sites, ai_sites, cu_sites, comment_sites, issue_sites, calls
    in *;
  cbn [rq_endpoint negb orb andb] in *;
  repeat match goal with
         | H : andb ?a ?b = true |- _ =>
             let Ha := fresh H in
             let Hb := fresh H in
             destruct (andb_prop a b H) as [Ha Hb]; clear H
         | H : orb ?a ?b = false |- _ =>
             let Ha := fresh H in
             let Hb := fresh H in
             destruct (orb_false_elim a b H) as [Ha Hb]; clear H
         | H : negb ?b = ?v |- _ =>
             first [ apply (proj1 (negb_true_iff b)) in H
                   | apply (proj1 (negb_false_iff b)) in H ]
         end;
  repeat match goal with
         | H : ?b = _ |- context [?b] => rewrite H
         end;
  cbn [negb orb andb]; try reflexivity; try discriminate; rewrite ?orb_true_r; auto.

Ltac sites_tac :=
  repeat first
    [ apply frame_refl
    | apply frame_push; [| solve [guards]]
    | progress change (frame ?ok ?st (logged ?st' _)) with (frame ok st st')
    | progress change (frame ?ok ?st (ticked ?st')) with (frame ok st st') ].

Lemma ai_frame_sites w env p st :
  wp (V2.aiSummarize w env p)
     (fun _ st' => frame (ai_sites env) st st') (fun _ st' => frame (ai_sites env) st st') st.
Proof. unfold V2.aiSummarize. repeat (wp_step; try solve [sites_tac]). Qed.

Lemma cu_frame_sites w env gk p ai prior st :
  wp (V2.clickupCreateOrUpdate w env gk p ai prior)
     (fun _ st' => frame (cu_sites env) st st') (fun _ st' => frame (cu_sites env) st st') st.
Proof. unfold V2.clickupCreateOrUpdate. repeat (wp_step; try solve [sites_tac]). Qed.

Lemma comment_frame_sites w env id c st :
  wp (V2.clickupAddComment w env id c)
     (fun _ st' => frame (comment_sites env) st st')
     (fun _ st' => frame (comment_sites env) st st') st.
Proof. unfold V2.clickupAddComment. repeat (wp_step; try solve [sites_tac]). Qed.

Lemma gh_frame_sites w env gk p ai std ex st :
  wp (V2.githubCreateOrUpdateIssue w env gk p ai std ex)
     (fun _ st' => frame issue_sites st st') (fun _ st' => frame issue_sites st st') st.
Proof. unfold V2.githubCreateOrUpdateIssue. repeat (wp_step; try solve [sites_tac]). Qed.

Ltac sites_step :=
  lazymatch goal with
  | |- wp (bind (V2.aiSummarize _ _ _) _) _ _ _ => apply wp_bind; framed ai_frame_sites
  | |- wp (bind (V2.clickupCreateOrUpdate _ _ _ _ _ _) _) _ _ _ =>
      apply wp_bind; framed cu_frame_sites
  | |- wp (bind (V2.githubCreateOrUpdateIssue _ _ _ _ _ _ _) _) _ _ _ =>
      apply wp_bind; framed gh_frame_sites
  | |- wp (bind (V2.clickupAddComment _ _ _ _) _) _ _ _ =>
      apply wp_bind; framed comment_frame_sites
  | |- wp (V2.clickupAddComment _ _ _ _) _ _ _ => framed comment_frame_sites
  | _ => wp_step
  end.

Ltac sites_side :=
  first
    [ reflexivity
    | let rq := fresh "rq" in
      intros rq; cbn [calls]; destruct (rq_endpoint rq); intros; guards
    | guards ].

(** Every call of a delivery is at a site that the configuration opens. *)
Lemma handleSentry_sites w env req s :
  wp (V2.handleSentry w env req) (fun _ st' => Only (calls (sentry_sites env)) st')
     (fun _ st' => Only (calls (sentry_sites env)) st') (start s).
Proof.
  assert (Hc : Only (calls (sentry_sites env)) (start s)) by reflexivity.
  unfold V2.handleSentry. repeat first [ solve [only_tac sites_side] | sites_step ].
Qed.

Lemma handleClickUp_sites w env req s :
  wp (V2.handleClickUp w env req) (fun _ st' => Only (calls (escalation_sites env)) st')
     (fun _ st' => Only (calls (escalation_sites env)) st') (start s).
Proof.
  assert (Hc : Only (calls (escalation_sites env)) (start s)) by reflexivity.
  unfold V2.handleClickUp, V2.get_task_request.
  repeat first [ solve [only_tac sites_side] | sites_step ].
Qed.

Lemma handleStandards_sites w env req s :
  wp (V2.handleStandards w env req) (fun _ st' => Only (calls (fun _ => false)) st')
     (fun _ st' => Only (calls (fun _ => false)) st') (start s).
Proof.
  unfold V2.handleStandards. repeat first [ reflexivity | std_step ].
Qed.

Lemma calls_weaken (ok ok' : endpoint -> bool) tr :
  (forall ep, ok ep = true -> ok' ep = true) ->
  forallb (calls ok) tr = true -> forallb (calls ok') tr = true.
Proof.
  intros H. apply only_weaken. intros [| | | |rq]; simpl; auto.
Qed.

Lemma calls_none ep tr :
  forallb (calls (fun e => negb (endpoint_eqb e ep))) tr = true -> fetches ep tr = 0%nat.
Proof.
  induction tr as [|e tr IH]; [reflexivity|]. cbn [forallb]. intros H.
  apply andb_prop in H as [He H]. destruct e; cbn [fetches]; auto.
  cbn [calls] in He. apply negb_true_iff in He. rewrite He, IH by exact H. reflexivity.
Qed.

Ltac weaken_sites :=
  let ep := fresh "ep" in
  let H := fresh "Hsite" in
  intros ep H; destruct ep;
  unfold sentry_sites, escalation_sites, ai_sites, cu_sites, comment_sites, issue_sites,
    is_clickup, is_github, is_ai in *;
  cbn [negb orb andb endpoint_eqb] in *;
  try reflexivity;
  repeat match goal with
         | Hb : ?b = _ |- _ =>
             lazymatch Hb with H => fail | _ => rewrite Hb in H end
         end;
  cbn [negb orb andb] in H; rewrite ?andb_false_r in H; try discriminate H.

(** X23.  Without [CLICKUP_TOKEN] the later worker never calls ClickUp:
    whatever the route, the request and the answers of the services, no
    call of the request goes to a ClickUp endpoint. *)
Theorem clickup_needs_token w env req s :
  configured (V2.CLICKUP_TOKEN env) = false ->
  forallb (calls (fun ep => negb (is_clickup ep)))
    (st_trace (snd (V2.fetch_handler w env req (start s)))) = true.
Proof.
  intros Htok. unfold V2.fetch_handler.
  repeat lazymatch goal with
         | |- context [if ?c then _ else _] => destruct c
         end; try reflexivity.
  - eapply calls_weaken; [|apply (wp_snd _ (Only (calls (sentry_sites env)))), handleSentry_sites].
    weaken_sites.
  - eapply calls_weaken;
      [|apply (wp_snd _ (Only (calls (escalation_sites env)))), handleClickUp_sites].
    weaken_sites.
  - eapply calls_weaken;
      [|apply (wp_snd _ (Only (calls (fun _ => false)))), handleStandards_sites].
    discriminate.
Qed.

(** The alert of the scenario and a worker with the GitHub target alone:
    the occurrence is recorded and nothing is called. *)
Lemma clickup_needs_token_witness :
  forallb (calls (fun ep => negb (is_clickup ep)))
    (st_trace (snd (V2.fetch_handler Scenario.world0 Cases.github_only Scenario.req0
                      (start empty_store)))) = true
  /\ writes (st_trace (snd (V2.fetch_handler Scenario.world0 Cases.github_only Scenario.req0
                              (start empty_store)))) = 1%nat.
Proof.
  split; [|vm_compute; reflexivity].
  apply (clickup_needs_token Scenario.world0 Cases.github_only Scenario.req0 empty_store).
  reflexivity.
Defined.

(** X24.  Opening an issue with the alert is opt-in.  Unless
    [CREATE_GITHUB_ON_SENTRY] is set to [true] (in any letter case),
    [handleSentry] makes no call to GitHub and posts no cross-reference
    comment. *)
Theorem github_is_opt_in w env req s :
  env_bool (V2.CREATE_GITHUB_ON_SENTRY env) false = false ->
  forallb (calls (fun ep => negb (is_github ep) && negb (endpoint_eqb ep CuAddComment)))
    (st_trace (snd (V2.handleSentry w env req (start s)))) = true.
Proof.
  intros Hflag.
  eapply calls_weaken; [|apply (wp_snd _ (Only (calls (sentry_sites env)))), handleSentry_sites].
  weaken_sites.
Qed.

(** The alert of the scenario with the flag unset: the task is created
    and GitHub is left alone. *)
Lemma github_is_opt_in_witness :
  forallb (calls (fun ep => negb (is_github ep) && negb (endpoint_eqb ep CuAddComment)))
    (st_trace (snd (V2.handleSentry Scenario.world0 Cases.tasks_only Scenario.req0
                      (start empty_store)))) = true
  /\ fetches CuCreateTask
       (st_trace (snd (V2.handleSentry Scenario.world0 Cases.tasks_only Scenario.req0
                         (start empty_store)))) = 1%nat.
Proof.
  split; [|vm_compute; reflexivity].
  apply (github_is_opt_in Scenario.world0 Cases.tasks_only Scenario.req0 empty_store).
  reflexivity.
Defined.

(** X25.  No summary without a key, and none on escalation.  With neither
    [GITHUB_MODEL_API_KEY] nor [OPENAI_API_KEY] configured, [handleSentry]
    calls no summarisation service; the escalation never calls one,
    whatever is configured (it reuses the text of the task). *)
Theorem summaries_need_a_key w env req s :
  (configured (V2.GITHUB_MODEL_API_KEY env) = false ->
   configured (V2.OPENAI_API_KEY env) = false ->
   forallb (calls (fun ep => negb (is_ai ep)))
     (st_trace (snd (V2.handleSentry w env req (start s)))) = true)
  /\ forallb (calls (fun ep => negb (is_ai ep)))
       (st_trace (snd (V2.handleClickUp w env req (start s)))) = true.
Proof.
  split; [intros H1 H2|].
  - eapply calls_weaken; [|apply (wp_snd _ (Only (calls (sentry_sites env)))), handleSentry_sites].
    weaken_sites.
  - eapply calls_weaken;
      [|apply (wp_snd _ (Only (calls (escalation_sites env)))), handleClickUp_sites].
    weaken_sites.
Qed.

(** X26.  The repeat-occurrence comment can be turned off.  When
    [UPDATE_CLICKUP_ON_REPEAT] is set to something other than [true],
    [handleSentry] posts no repeat-occurrence comment. *)
Theorem repeat_comment_opt_out w env req s :
  env_bool (V2.UPDATE_CLICKUP_ON_REPEAT env) true = false ->
  fetches CuComment (st_trace (snd (V2.handleSentry w env req (start s)))) = 0%nat.
Proof.
  intros Hflag. apply calls_none.
  eapply calls_weaken; [|apply (wp_snd _ (Only (calls (sentry_sites env)))), handleSentry_sites].
  weaken_sites.
Qed.

(** The second occurrence of the scenario with the comment turned off:
    the record counts it, the issue is updated and no comment is posted. *)
Lemma repeat_comment_opt_out_witness :
  fetches CuComment
    (st_trace (snd (V2.handleSentry Scenario.world1 Cases.quiet Scenario.req0
                      (start Scenario.store_seen_once)))) = 0%nat
  /\ fetches GhPatchIssue
       (st_trace (snd (V2.handleSentry Scenario.world1 Cases.quiet Scenario.req0
                         (start Scenario.store_seen_once)))) = 1%nat.
Proof.
  split; [|vm_compute; reflexivity].
  apply (repeat_comment_opt_out Scenario.world1 Cases.quiet Scenario.req0
           Scenario.store_seen_once).
  reflexivity.
Defined.
